(** * Confly: expression resolution over configuration trees

    A shallow embedding of [src/confly/confly.py] and the properties of
    its resolution engine.

    Conventions of the embedding.
    - A Python [str] is a [string]; each [ascii] stands for the code
      point of the same number, so the strings covered are those over
      code points 0..255.
    - A Python [int] is a [Z], a Python [float] is a binary64 value of
      the Standard Library's [spec_float].
    - A [dict] is an association list in insertion order with unique
      string keys; documents are trees (no shared nodes).  For
      documents in which a mapping is shared (YAML anchors and
      aliases) the writes of [_update_parameters] are modelled in
      place, on a store of mappings (module [InPlace]).
    - The process environment and the documents on disk are explicit
      arguments (record [World]); the attributes [config] and
      [op_regex] of the object are explicit arguments (record [Self]).
    - A call that raises returns [Raise e]; the [while] loop of
      [_interpolate] is bounded by a fuel argument and returns
      [OutOfFuel] when the bound is hit; library behaviour outside the
      part written out here returns [Unmodelled].
    - An instance of [Confly] is its [__dict__], an association list
      from attribute names to members (type [object]); attribute
      lookup and assignment follow CPython 3.11.
    - The suffix handling of [_load_conf] is modelled on the final
      component of the path ([yml_name]), after [pathlib] of
      CPython 3.11. *)

From Stdlib Require Import String Ascii List ZArith Bool Lia.
From Stdlib Require Import DecimalString DecimalPos SpecFloat.
Import ListNotations.

Local Open Scope string_scope.
Local Open Scope Z_scope.

(** ** Outcomes of a call *)

Inductive exn : Type :=
| RuntimeError (msg : string)
| TypeError
| ValueError
| FileNotFoundError
| ZeroDivisionError
| OverflowError
| AttributeError
| KeyError
| UnboundLocalError.

Inductive result (A : Type) : Type :=
| Ok (a : A)
| Raise (e : exn)
| OutOfFuel
| Unmodelled.

Arguments Ok {A} a.
Arguments Raise {A} e.
Arguments OutOfFuel {A}.
Arguments Unmodelled {A}.

Definition bind {A B : Type} (r : result A) (k : A -> result B) : result B :=
  match r with
  | Ok a => k a
  | Raise e => Raise e
  | OutOfFuel => OutOfFuel
  | Unmodelled => Unmodelled
  end.

Notation "x <- c1 ;; c2" := (bind c1 (fun x => c2))
  (at level 100, c1 at next level, right associativity).

Fixpoint mapM {A B : Type} (f : A -> result B) (l : list A) : result (list B) :=
  match l with
  | [] => Ok []
  | a :: t => b <- f a ;; t' <- mapM f t ;; Ok (b :: t')
  end.

(** ** Python string primitives *)

Module PyStr.

Definition code (c : ascii) : N := N_of_ascii c.

Definition in_range (lo hi : N) (c : ascii) : bool :=
  (N.leb lo (code c) && N.leb (code c) hi)%bool.

Definition is_ascii_digit (c : ascii) : bool := in_range 48 57 c.

(** [str.isdigit] per character: the decimal digits and, below 256,
    the superscripts U+00B2, U+00B3 and U+00B9. *)
Definition char_isdigit (c : ascii) : bool :=
  (is_ascii_digit c || N.eqb (code c) 178 || N.eqb (code c) 179
   || N.eqb (code c) 185)%bool.

(** [str.isspace] per character, as used by [str.strip()]. *)
Definition char_isspace (c : ascii) : bool :=
  (in_range 9 13 c || in_range 28 32 c || N.eqb (code c) 133
   || N.eqb (code c) 160)%bool.

Fixpoint forallb (p : ascii -> bool) (s : string) : bool :=
  match s with
  | EmptyString => true
  | String c r => (p c && forallb p r)%bool
  end.

Definition is_empty (s : string) : bool :=
  match s with EmptyString => true | _ => false end.

(** [s.isdigit()] *)
Definition isdigit (s : string) : bool :=
  (negb (is_empty s) && forallb char_isdigit s)%bool.

(** longest prefix of characters satisfying [p], and the rest *)
Fixpoint span (p : ascii -> bool) (s : string) : string * string :=
  match s with
  | EmptyString => (EmptyString, EmptyString)
  | String c r =>
      if p c then let (a, b) := span p r in (String c a, b)
      else (EmptyString, s)
  end.

Fixpoint rev_acc (s acc : string) : string :=
  match s with
  | EmptyString => acc
  | String c r => rev_acc r (String c acc)
  end.

Definition rev (s : string) : string := rev_acc s EmptyString.

Definition lstrip (p : ascii -> bool) (s : string) : string := snd (span p s).
Definition rstrip (p : ascii -> bool) (s : string) : string :=
  rev (lstrip p (rev s)).

(** [s.strip()] *)
Definition strip (s : string) : string :=
  rstrip char_isspace (lstrip char_isspace s).

Fixpoint drop (n : nat) (s : string) : string :=
  match n, s with
  | O, _ => s
  | S n', String _ r => drop n' r
  | S _, EmptyString => EmptyString
  end.

(** [s.startswith(p)] *)
Fixpoint startswith (p s : string) : bool :=
  match p with
  | EmptyString => true
  | String a p' =>
      match s with
      | EmptyString => false
      | String b s' => (Ascii.eqb a b && startswith p' s')%bool
      end
  end.

(** [sub in s] for strings *)
Fixpoint contains (sub s : string) : bool :=
  if startswith sub s then true
  else match s with
       | EmptyString => false
       | String _ r => contains sub r
       end.

(** [s.replace(old, new, 1)] *)
Fixpoint replace_first (old new s : string) : string :=
  if startswith old s then new ++ drop (String.length old) s
  else match s with
       | EmptyString => EmptyString
       | String c r => String c (replace_first old new r)
       end.

(** [s.replace(c, "")] for a one-character [c] *)
Fixpoint remove_char (c : ascii) (s : string) : string :=
  match s with
  | EmptyString => EmptyString
  | String d r =>
      if Ascii.eqb c d then remove_char c r else String d (remove_char c r)
  end.

(** [s.split(c)] for a one-character separator [c]: never empty *)
Fixpoint split (c : ascii) (s : string) : list string :=
  match s with
  | EmptyString => [EmptyString]
  | String d r =>
      if Ascii.eqb c d then EmptyString :: split c r
      else match split c r with
           | [] => [String d EmptyString]
           | h :: t => String d h :: t
           end
  end.

(** [sep.join(l)] *)
Fixpoint join (sep : string) (l : list string) : string :=
  match l with
  | [] => EmptyString
  | [x] => x
  | x :: t => x ++ sep ++ join sep t
  end.

Fixpoint repeat (s : string) (n : nat) : string :=
  match n with
  | O => EmptyString
  | S n' => s ++ repeat s n'
  end.

Definition digit_value (c : ascii) : Z := Z.of_N (code c) - 48.

Fixpoint digits_value_acc (s : string) (acc : Z) : Z :=
  match s with
  | EmptyString => acc
  | String c r => digits_value_acc r (10 * acc + digit_value c)
  end.

(** value of a string of decimal digits *)
Definition digits_value (s : string) : Z := digits_value_acc s 0.

(** [int(s)] on a string for which [s.isdigit()] holds: the decimal
    digits are accepted, a superscript digit is not a decimal
    literal. *)
Definition int_of_digits (s : string) : result Z :=
  if forallb is_ascii_digit s then Ok (digits_value s)
  else Raise ValueError.

(** [str(n)] for an integer *)
Definition str_of_int (n : Z) : string :=
  NilZero.string_of_int (Z.to_int n).

Definition lower (c : ascii) : ascii :=
  if in_range 65 90 c then ascii_of_N (code c + 32) else c.

Fixpoint map (f : ascii -> ascii) (s : string) : string :=
  match s with
  | EmptyString => EmptyString
  | String c r => String (f c) (map f r)
  end.

End PyStr.

(** ** Python floats (binary64) *)

Module PyFloat.

Definition prec : Z := 53.
Definition emax : Z := 1024.

Definition float : Type := spec_float.

Definition nearest (m e : Z) : float := binary_normalize prec emax m e false.

(** [float(n)] for an integer [n] *)
Definition of_int (n : Z) : result float :=
  match nearest n 0 with
  | S754_infinity _ => Raise OverflowError
  | f => Ok f
  end.

(** the binary64 value nearest to [n / d], ties to even *)
Definition of_ratio (neg : bool) (n d : positive) : float :=
  let '(q, e, l) := SFdiv_core_binary prec emax (Zpos n) 0 (Zpos d) 0 in
  binary_round_aux prec emax neg q e l.

(** the binary64 value nearest to [m * 10 ^ e10], for [0 <= m] *)
Definition of_decimal (neg : bool) (m e10 : Z) : float :=
  match m with
  | Z0 => S754_zero neg
  | Zpos p =>
      if 0 <=? e10 then nearest (cond_Zopp neg (m * 10 ^ e10)) 0
      else of_ratio neg p (Z.to_pos (10 ^ (- e10)))
  | Zneg _ => S754_nan
  end.

(** [f.is_integer()] *)
Definition is_integer (f : float) : bool :=
  match f with
  | S754_zero _ => true
  | S754_finite _ m e =>
      if 0 <=? e then true else (Zpos m mod 2 ^ (- e)) =? 0
  | _ => false
  end.

(** [int(f)] for a float with [f.is_integer()] *)
Definition to_int (f : float) : Z :=
  match f with
  | S754_finite s m e =>
      cond_Zopp s (if 0 <=? e then Zpos m * 2 ^ e else Zpos m / 2 ^ (- e))
  | _ => 0
  end.

Definition is_zero (f : float) : bool :=
  match f with S754_zero _ => true | _ => false end.

(** [repr(f)], written out for the non-finite values, the zeros and
    the integral values below 2^53 in magnitude, whose shortest
    round-trip form is the integer followed by [.0]. *)
Definition repr (f : float) : result string :=
  match f with
  | S754_nan => Ok "nan"
  | S754_infinity s => Ok (if s then "-inf" else "inf")
  | S754_zero s => Ok (if s then "-0.0" else "0.0")
  | S754_finite _ _ _ =>
      if (is_integer f && (Z.abs (to_int f) <? 2 ^ 53))%bool
      then Ok (PyStr.str_of_int (to_int f) ++ ".0")
      else Unmodelled
  end.

(** *** [float(s)] for a string *)

(** white space stripped by [float]: the ASCII white space, and
    U+0085 and U+00A0 which are first mapped to a blank *)
Definition char_isspace (c : ascii) : bool :=
  (PyStr.in_range 9 13 c || N.eqb (PyStr.code c) 32
   || N.eqb (PyStr.code c) 133 || N.eqb (PyStr.code c) 160)%bool.

Definition is_underscore (c : ascii) : bool := Ascii.eqb c "_".

(** an underscore is allowed only between two digits *)
Fixpoint underscores_ok (prev : ascii) (s : string) : bool :=
  match s with
  | EmptyString => negb (is_underscore prev)
  | String c r =>
      ((if is_underscore c then PyStr.is_ascii_digit prev
        else (negb (is_underscore prev) || PyStr.is_ascii_digit c))
       && underscores_ok c r)%bool
  end.

Definition split_sign (s : string) : bool * string :=
  match s with
  | String "-" r => (true, r)
  | String "+" r => (false, r)
  | _ => (false, s)
  end.

(** the exponent part: [e] or [E], an optional sign, digits *)
Definition parse_exponent (s : string) : option Z :=
  match s with
  | EmptyString => Some 0
  | String c r =>
      if (Ascii.eqb c "e" || Ascii.eqb c "E")%bool then
        let (neg, ds) := split_sign r in
        if (negb (PyStr.is_empty ds) && PyStr.forallb PyStr.is_ascii_digit ds)%bool
        then Some (cond_Zopp neg (PyStr.digits_value ds))
        else None
      else None
  end.

(** a decimal literal: digits, an optional point and digits, with at
    least one digit, and an optional exponent *)
Definition parse_decimal (neg : bool) (s : string) : option float :=
  let (ip, r1) := PyStr.span PyStr.is_ascii_digit s in
  let (fp, r2) :=
    match r1 with
    | String "." r => PyStr.span PyStr.is_ascii_digit r
    | _ => (EmptyString, r1)
    end in
  if PyStr.is_empty (ip ++ fp) then None
  else match parse_exponent r2 with
       | Some e =>
           Some (of_decimal neg (PyStr.digits_value (ip ++ fp))
                   (e - Z.of_nat (String.length fp)))
       | None => None
       end.

Definition parse_inf_nan (neg : bool) (s : string) : option float :=
  let l := PyStr.map PyStr.lower s in
  if (String.eqb l "inf" || String.eqb l "infinity")%bool
  then Some (S754_infinity neg)
  else if String.eqb l "nan" then Some S754_nan
  else None.

(** [float(s)]: [None] stands for [ValueError] *)
Definition of_str (s : string) : option float :=
  if underscores_ok zero s then
    let body := PyStr.remove_char "_" s in
    let t := PyStr.rstrip char_isspace (PyStr.lstrip char_isspace body) in
    let (neg, u) := split_sign t in
    match parse_decimal neg u with
    | Some f => Some f
    | None => parse_inf_nan neg u
    end
  else None.

Definition add (x y : float) : float := SFadd prec emax x y.
Definition sub (x y : float) : float := SFsub prec emax x y.
Definition mul (x y : float) : float := SFmul prec emax x y.

(** [x / y] on floats *)
Definition truediv (x y : float) : result float :=
  if is_zero y then Raise ZeroDivisionError else Ok (SFdiv prec emax x y).

(** [a / b] on integers: the quotient rounded once *)
Definition int_truediv (a b : Z) : result float :=
  match b, a with
  | Z0, _ => Raise ZeroDivisionError
  | _, Z0 => Ok (S754_zero (b <? 0))
  | _, _ =>
      match of_ratio (xorb (a <? 0) (b <? 0)) (Z.to_pos (Z.abs a)) (Z.to_pos (Z.abs b)) with
      | S754_infinity _ => Raise OverflowError
      | f => Ok f
      end
  end.

End PyFloat.

(** ** Value trees *)

#[warnings="-register-all"]
Inductive value : Type :=
| VNone
| VBool (b : bool)
| VInt (n : Z)
| VFloat (f : PyFloat.float)
| VStr (s : string)
| VList (l : list value)
| VDict (d : list (string * value)).

Definition dict : Type := list (string * value).

Fixpoint dict_get (k : string) (d : dict) : option value :=
  match d with
  | [] => None
  | (k', v) :: t => if String.eqb k k' then Some v else dict_get k t
  end.

(** [k in d] *)
Definition dict_mem (k : string) (d : dict) : bool :=
  match dict_get k d with Some _ => true | None => false end.

(** [d[k] = v]: an existing key keeps its place, a new key goes last *)
Fixpoint dict_set (k : string) (v : value) (d : dict) : dict :=
  match d with
  | [] => [(k, v)]
  | (k', v') :: t =>
      if String.eqb k k' then (k, v) :: t else (k', v') :: dict_set k v t
  end.

(** [d.update(other)] for a dict [other] *)
Definition dict_update (d other : dict) : dict :=
  fold_left (fun acc kv => dict_set (fst kv) (snd kv) acc) other d.

(** [{k: f(v) for k, v in d.items()}] *)
Definition map_values (f : value -> result value) (d : dict) : result dict :=
  mapM (fun kv => v' <- f (snd kv) ;; Ok (fst kv, v')) d.

(** [str(v)] for the results of arithmetic *)
Definition py_str (v : value) : result string :=
  match v with
  | VNone => Ok "None"
  | VBool b => Ok (if b then "True" else "False")
  | VInt n => Ok (PyStr.str_of_int n)
  | VFloat f => PyFloat.repr f
  | VStr s => Ok s
  | VList _ | VDict _ => Unmodelled
  end.

(** the first binding of a name in a table *)
Fixpoint assoc {A : Type} (k : string) (l : list (string * A)) : option A :=
  match l with
  | [] => None
  | (k', a) :: t => if String.eqb k k' then Some a else assoc k t
  end.

(** ** The [operator] module *)

Module Operator.

Inductive fn : Type :=
| add | sub | mul | truediv | floordiv | mod_ | pow
| other.

(** the names for which [hasattr(operator, name)] holds
    (CPython 3.11): the names of the module's own namespace and, last
    in the table, the attributes that every module object inherits
    from its type; those not written out below map to [other] *)
Definition names : list (string * fn) :=
  [ ("add", add); ("__add__", add); ("sub", sub); ("__sub__", sub);
    ("mul", mul); ("__mul__", mul); ("truediv", truediv);
    ("__truediv__", truediv); ("floordiv", floordiv);
    ("__floordiv__", floordiv); ("mod", mod_); ("__mod__", mod_);
    ("pow", pow); ("__pow__", pow) ]
  ++ List.map (fun n => (n, other))
    [ "__abs__"; "__all__"; "__and__"; "__builtins__"; "__cached__";
      "__call__"; "__concat__"; "__contains__"; "__delitem__";
      "__doc__"; "__eq__"; "__file__"; "__ge__"; "__getitem__";
      "__gt__"; "__iadd__"; "__iand__"; "__iconcat__";
      "__ifloordiv__"; "__ilshift__"; "__imatmul__"; "__imod__";
      "__imul__"; "__index__"; "__inv__"; "__invert__"; "__ior__";
      "__ipow__"; "__irshift__"; "__isub__"; "__itruediv__";
      "__ixor__"; "__le__"; "__loader__"; "__lshift__"; "__lt__";
      "__matmul__"; "__name__"; "__ne__"; "__neg__"; "__not__";
      "__or__"; "__package__"; "__pos__"; "__rshift__";
      "__setitem__"; "__spec__"; "__xor__"; "_abs"; "abs"; "and_";
      "attrgetter"; "call"; "concat"; "contains"; "countOf";
      "delitem"; "eq"; "ge"; "getitem"; "gt"; "iadd"; "iand";
      "iconcat"; "ifloordiv"; "ilshift"; "imatmul"; "imod"; "imul";
      "index"; "indexOf"; "inv"; "invert"; "ior"; "ipow"; "irshift";
      "is_"; "is_not"; "isub"; "itemgetter"; "itruediv"; "ixor";
      "le"; "length_hint"; "lshift"; "lt"; "matmul"; "methodcaller";
      "ne"; "neg"; "not_"; "or_"; "pos"; "rshift"; "setitem";
      "truth"; "xor";
      "__annotations__"; "__class__"; "__delattr__"; "__dict__";
      "__dir__"; "__format__"; "__getattribute__"; "__getstate__";
      "__hash__"; "__init__"; "__init_subclass__"; "__new__";
      "__reduce__"; "__reduce_ex__"; "__repr__"; "__setattr__";
      "__sizeof__"; "__str__"; "__subclasshook__" ].

(** [getattr(operator, name)], [None] when there is no such attribute *)
Definition getattr (name : string) : option fn := assoc name names.

(** [hasattr(operator, name)] *)
Definition hasattr (name : string) : bool :=
  match getattr name with Some _ => true | None => false end.

(** both operands as floats, for mixed arithmetic *)
Definition coerce (a b : value) : option (result (PyFloat.float * PyFloat.float)) :=
  match a, b with
  | VFloat x, VFloat y => Some (Ok (x, y))
  | VInt n, VFloat y => Some (x <- PyFloat.of_int n ;; Ok (x, y))
  | VFloat x, VInt n => Some (y <- PyFloat.of_int n ;; Ok (x, y))
  | _, _ => None
  end.

Definition is_number (v : value) : bool :=
  match v with VInt _ | VFloat _ => true | _ => false end.

Definition float_arith (f : PyFloat.float -> PyFloat.float -> PyFloat.float)
  (a b : value) : result value :=
  match coerce a b with
  | Some r => xy <- r ;; Ok (VFloat (f (fst xy) (snd xy)))
  | None => Raise TypeError
  end.

(** [f(a, b)] on the values an operand list can hold: integers,
    floats and strings *)
Definition call (f : fn) (a b : value) : result value :=
  match f with
  | add =>
      match a, b with
      | VInt x, VInt y => Ok (VInt (x + y))
      | VStr x, VStr y => Ok (VStr (x ++ y))
      | _, _ => float_arith PyFloat.add a b
      end
  | sub =>
      match a, b with
      | VInt x, VInt y => Ok (VInt (x - y))
      | _, _ => float_arith PyFloat.sub a b
      end
  | mul =>
      match a, b with
      | VInt x, VInt y => Ok (VInt (x * y))
      | VStr x, VInt n | VInt n, VStr x => Ok (VStr (PyStr.repeat x (Z.to_nat n)))
      | _, _ => float_arith PyFloat.mul a b
      end
  | truediv =>
      match a, b with
      | VInt x, VInt y => r <- PyFloat.int_truediv x y ;; Ok (VFloat r)
      | _, _ =>
          match coerce a b with
          | Some r =>
              xy <- r ;; q <- PyFloat.truediv (fst xy) (snd xy) ;; Ok (VFloat q)
          | None => Raise TypeError
          end
      end
  | floordiv =>
      match a, b with
      | VInt x, VInt y =>
          if y =? 0 then Raise ZeroDivisionError else Ok (VInt (x / y))
      | _, _ => if (is_number a && is_number b)%bool then Unmodelled
                else Raise TypeError
      end
  | mod_ =>
      match a, b with
      | VInt x, VInt y =>
          if y =? 0 then Raise ZeroDivisionError else Ok (VInt (x mod y))
      | VStr _, _ => Unmodelled
      | _, _ => if (is_number a && is_number b)%bool then Unmodelled
                else Raise TypeError
      end
  | pow =>
      match a, b with
      | VInt x, VInt y =>
          if 0 <=? y then Ok (VInt (x ^ y))
          else if x =? 0 then Raise ZeroDivisionError
          else Unmodelled
      | _, _ => if (is_number a && is_number b)%bool then Unmodelled
                else Raise TypeError
      end
  | other => Unmodelled
  end.

(** [functools.reduce(f, l)] for a non-empty list: a left fold, a
    single element is returned without a call *)
Definition reduce (f : value -> value -> result value) (l : list value)
  : result value :=
  match l with
  | [] => Raise TypeError
  | a :: t => fold_left (fun acc b => x <- acc ;; f x b) t (Ok a)
  end.

End Operator.

(** ** [os.path.expandvars] (POSIX) *)

Module OsPath.

(** [\w] under [re.ASCII] *)
Definition is_name_char (c : ascii) : bool :=
  (PyStr.is_ascii_digit c || PyStr.in_range 65 90 c
   || PyStr.in_range 97 122 c || Ascii.eqb c "_")%bool.

(** [s] cut at its first closing brace *)
Fixpoint until_brace (s : string) : option (string * string) :=
  match s with
  | EmptyString => None
  | String c r =>
      if Ascii.eqb c "}" then Some (EmptyString, r)
      else match until_brace r with
           | Some (a, b) => Some (String c a, b)
           | None => None
           end
  end.

(** every [$name] and [${name}] whose name is defined is replaced by
    its value, the others are left as written; a substituted value
    is not expanded again *)
Fixpoint expandvars_from (fuel : nat) (environ : list (string * string))
  (s : string) : string :=
  match fuel with
  | O => s
  | S fuel' =>
      match s with
      | EmptyString => EmptyString
      | String c r =>
          if Ascii.eqb c "$" then
            let (name, rest) := PyStr.span is_name_char r in
            if negb (PyStr.is_empty name) then
              match assoc name environ with
              | Some v => v ++ expandvars_from fuel' environ rest
              | None => String c name ++ expandvars_from fuel' environ rest
              end
            else
              match r with
              | String "{" r1 =>
                  match until_brace r1 with
                  | Some (name, rest) =>
                      match assoc name environ with
                      | Some v => v ++ expandvars_from fuel' environ rest
                      | None =>
                          "${" ++ name ++ "}" ++ expandvars_from fuel' environ rest
                      end
                  | None => String c (expandvars_from fuel' environ r)
                  end
              | _ => String c (expandvars_from fuel' environ r)
              end
          else String c (expandvars_from fuel' environ r)
      end
  end.

Definition expandvars (environ : list (string * string)) (s : string) : string :=
  expandvars_from (S (String.length s)) environ s.

End OsPath.

(** ** The expression scanner: [general_op_regex] and [cfg_regex] *)

Module Scanner.

Inductive regex : Type := general_op_regex | cfg_regex.

(** [\w] of the pattern, on code points below 256: letters, decimal
    digits and the underscore *)
Definition is_word (c : ascii) : bool :=
  (OsPath.is_name_char c
   || N.eqb (PyStr.code c) 170 || N.eqb (PyStr.code c) 181
   || N.eqb (PyStr.code c) 186 || PyStr.in_range 192 214 c
   || PyStr.in_range 216 246 c || PyStr.in_range 248 255 c)%bool.

(** [\s] of the pattern, on code points below 256 *)
Definition is_space (c : ascii) : bool := PyFloat.char_isspace c.

Definition is_brace (c : ascii) : bool :=
  (Ascii.eqb c "{" || Ascii.eqb c "}")%bool.

(** one match of the pattern: the matched text, the groups [op] and
    [arg], and the text after the match *)
Record rmatch : Type :=
  { group0 : string; group_op : string; group_arg : string; after : string }.

(** the group [op]: [\w+] for the general pattern, the literal [cfg]
    for the include pattern *)
Definition match_op (rx : regex) (s : string) : option (string * string) :=
  match rx with
  | general_op_regex =>
      let (w, r) := PyStr.span is_word s in
      if PyStr.is_empty w then None else Some (w, r)
  | cfg_regex =>
      if PyStr.startswith "cfg" s then Some ("cfg", PyStr.drop 3 s) else None
  end.

(** [match_at rx fuel s]: the pattern matched at the start of [s].
    [match_arg] matches the group [arg] and the closing brace: runs
    of characters other than braces, and braces that enclose a match
    of the whole pattern. *)
Fixpoint match_at (rx : regex) (fuel : nat) (s : string) {struct fuel}
  : option rmatch :=
  match fuel with
  | O => None
  | S fuel' =>
      match s with
      | String "$" (String "{" s1) =>
          match match_op rx s1 with
          | Some (op, s2) =>
              let (ws1, s3) := PyStr.span is_space s2 in
              match s3 with
              | String ":" s4 =>
                  let (ws2, s5) := PyStr.span is_space s4 in
                  match match_arg rx fuel' s5 with
                  | Some (arg, rest) =>
                      Some {| group0 := "${" ++ op ++ ws1 ++ ":" ++ ws2 ++ arg ++ "}";
                              group_op := op;
                              group_arg := arg;
                              after := rest |}
                  | None => None
                  end
              | _ => None
              end
          | None => None
          end
      | _ => None
      end
  end
with match_arg (rx : regex) (fuel : nat) (s : string) {struct fuel}
  : option (string * string) :=
  match fuel with
  | O => None
  | S fuel' =>
      match s with
      | EmptyString => None
      | String c r =>
          if Ascii.eqb c "}" then Some (EmptyString, r)
          else if Ascii.eqb c "{" then
            match match_at rx fuel' r with
            | Some m =>
                match after m with
                | String "}" r' =>
                    match match_arg rx fuel' r' with
                    | Some (a, rest) => Some ("{" ++ group0 m ++ "}" ++ a, rest)
                    | None => None
                    end
                | _ => None
                end
            | None => None
            end
          else
            match match_arg rx fuel' r with
            | Some (a, rest) => Some (String c a, rest)
            | None => None
            end
      end
  end.

(** every call consumes a character, so this bound is never hit *)
Definition fuel_for (s : string) : nat := S (String.length s).

Definition match_here (rx : regex) (s : string) : option rmatch :=
  match_at rx (fuel_for s) s.

(** [rx.search(s)]: the match at the leftmost position that has one *)
Fixpoint search (rx : regex) (s : string) : option rmatch :=
  match match_here rx s with
  | Some m => Some m
  | None =>
      match s with
      | EmptyString => None
      | String _ r => search rx r
      end
  end.

(** [rx.fullmatch(s)] *)
Definition fullmatch (rx : regex) (s : string) : option rmatch :=
  match match_here rx s with
  | Some m => if PyStr.is_empty (after m) then Some m else None
  | None => None
  end.

End Scanner.

(** ** The class [Confly] *)

Module Confly.

Import Scanner.

(** what a build reads from outside: the process environment, the
    command line ([sys.argv[1:]]) and the documents on disk.
    [documents] gives, for an include name as it is written in a
    [cfg] expression, the tree that [_load_conf(self.config_dir /
    name)] parses; a name without an entry is a missing file. *)
Record World : Type :=
  { environ : list (string * string);
    argv : list string;
    documents : list (string * value) }.

(** the attributes of the object that resolution reads *)
Record Self : Type :=
  { config : value;
    op_regex : regex }.

(** an element of [args]: a string, or the list that [cli=True]
    appends as one element *)
Inductive arg : Type :=
| Token (s : string)
| Argv (l : list string).

Definition list_mem (x : string) (l : list string) : bool :=
  existsb (String.eqb x) l.

(** [_parse_args] *)
Definition _parse_args (w : World) (args : option (list string)) (cli : bool)
  : result (list arg * list arg) :=
  let args := List.map Token (match args with Some l => l | None => [] end) in
  let args := if cli then (args ++ [Argv (argv w)])%list else args in
  fold_left
    (fun acc a =>
       cp <- acc ;;
       let '(configs, parameters) := cp in
       match a with
       | Token t =>
           if PyStr.contains "=" t then Ok (configs, (parameters ++ [a])%list)
           else if PyStr.contains "--" t
                then Ok (configs, (parameters ++ [Token (PyStr.drop 2 t ++ "=True")])%list)
                else Ok ((configs ++ [a])%list, parameters)
       | Argv l =>
           if list_mem "=" l then Ok (configs, (parameters ++ [a])%list)
           else if list_mem "--" l then Raise TypeError
                else Ok ((configs ++ [a])%list, parameters)
       end)
    args (Ok ([], [])).

Definition token_text (a : arg) : result string :=
  match a with
  | Token t => Ok t
  | Argv _ => Raise TypeError
  end.

(** [_update_config] *)
Definition _update_config (config : option string) (arg_configs : list arg)
  : result value :=
  let arg_configs :=
    match config with
    | Some c => Token c :: arg_configs
    | None => arg_configs
    end in
  match arg_configs with
  | [] => Ok (VDict [])
  | _ => names <- mapM token_text arg_configs ;;
         Ok (VStr ("${cfg:" ++ PyStr.join "," names ++ "}"))
  end.

(** [_is_entire_expression] *)
Definition _is_entire_expression (self : Self) (obj : string) : bool :=
  match fullmatch (op_regex self) obj with Some _ => true | None => false end.

(** [_contains_expression] *)
Definition _contains_expression (self : Self) (obj : string) : bool :=
  match search (op_regex self) obj with Some _ => true | None => false end.

(** [_get_expression]: the first match of [finditer] *)
Definition _get_expression (self : Self) (obj : string)
  : result (string * string * string) :=
  match search (op_regex self) obj with
  | Some m => Ok (group0 m, group_op m, group_arg m)
  | None => Raise UnboundLocalError
  end.

(** [key in v] *)
Definition py_in (key : string) (v : value) : result bool :=
  match v with
  | VDict d => Ok (dict_mem key d)
  | VList l =>
      Ok (existsb (fun e => match e with
                            | VStr s => String.eqb key s
                            | _ => false
                            end) l)
  | VStr s => Ok (PyStr.contains key s)
  | _ => Raise TypeError
  end.

(** [v[key]] for a string [key] *)
Definition py_getitem (v : value) (key : string) : result value :=
  match v with
  | VDict d =>
      match dict_get key d with
      | Some x => Ok x
      | None => Raise (RuntimeError "KeyError")
      end
  | _ => Raise TypeError
  end.

Definition undefined (obj : string) : exn :=
  RuntimeError ("Interpolation failed as " ++ obj ++ " is not defined.").

(** [_interpolate_var] *)
Definition _interpolate_var (self : Self) (obj : string) : result value :=
  let keys := PyStr.split "." obj in
  fold_left
    (fun acc key =>
       interpolated_variable <- acc ;;
       present <- py_in key interpolated_variable ;;
       if negb present then Raise (undefined obj)
       else py_getitem interpolated_variable key)
    keys (Ok (config self)).

(** [_load_conf] *)
Definition _load_conf (w : World) (name : string) : result value :=
  match assoc name (documents w) with
  | Some doc => Ok doc
  | None => Raise FileNotFoundError
  end.

Definition char_str (c : ascii) : string := String c EmptyString.

(** one element of a sequence given to [dict.update]: a key and a
    value, when the element is itself a sequence of length two *)
Definition pair_of (e : value) : result (string * value) :=
  match e with
  | VList [VStr k; v] => Ok (k, v)
  | VList [VList _; _] | VList [VDict _; _] => Raise TypeError
  | VList [_; _] => Unmodelled
  | VList _ => Raise ValueError
  | VStr (String a (String b EmptyString)) => Ok (char_str a, VStr (char_str b))
  | VStr _ => Raise ValueError
  | VDict [(k1, _); (k2, _)] => Ok (k1, VStr k2)
  | VDict _ => Raise ValueError
  | _ => Raise TypeError
  end.

(** [d.update(l)] for a list [l] *)
Definition dict_update_seq (d : dict) (l : list value) : result dict :=
  fold_left
    (fun acc e => d' <- acc ;; kv <- pair_of e ;; Ok (dict_set (fst kv) (snd kv) d'))
    l (Ok d).

(** the loop of [_interpolate_cfg] *)
Fixpoint merge_configs (w : World) (configs : list string) (config : dict)
  : result value :=
  match configs with
  | [] => Ok (VDict config)
  | sub_config :: rest =>
      sub_config <- _load_conf w sub_config ;;
      match sub_config with
      | VDict d => merge_configs w rest (dict_update config d)
      | VList l => config' <- dict_update_seq config l ;; merge_configs w rest config'
      | _ => Ok sub_config
      end
  end.

(** [_interpolate_cfg] *)
Definition _interpolate_cfg (w : World) (obj : string) : result value :=
  let obj := PyStr.remove_char " " obj in
  let configs := PyStr.split "," obj in
  merge_configs w configs [].

(** [_interpolate_env] *)
Definition _interpolate_env (w : World) (obj : string) : result value :=
  Ok (VStr (OsPath.expandvars (environ w) ("$" ++ obj))).

(** [_maybe_convert_to_numeric] *)
Definition _maybe_convert_to_numeric (s : value) : result value :=
  match s with
  | VStr t =>
      if PyStr.isdigit t then n <- PyStr.int_of_digits t ;; Ok (VInt n)
      else match PyFloat.of_str t with
           | Some num =>
               if PyFloat.is_integer num then Ok (VInt (PyFloat.to_int num))
               else Ok (VFloat num)
           | None => Ok s
           end
  | _ => Ok s
  end.

(** [_apply_recursively] *)
Fixpoint _apply_recursively (func : value -> result value) (obj : value)
  : result value :=
  match obj with
  | VDict d =>
      d' <- (fix items (d : dict) : result dict :=
               match d with
               | [] => Ok []
               | (k, v) :: t =>
                   v' <- _apply_recursively func v ;;
                   t' <- items t ;;
                   Ok ((k, v') :: t')
               end) d ;;
      Ok (VDict d')
  | VList l =>
      l' <- (fix elems (l : list value) : result (list value) :=
               match l with
               | [] => Ok []
               | v :: t =>
                   v' <- _apply_recursively func v ;;
                   t' <- elems t ;;
                   Ok (v' :: t')
               end) l ;;
      Ok (VList l')
  | _ => func obj
  end.

(** [_interpolate_math] *)
Definition _interpolate_math (op args : string) : result value :=
  let args := List.map PyStr.strip (PyStr.split "," args) in
  args <- _apply_recursively _maybe_convert_to_numeric (VList (List.map VStr args)) ;;
  match args, Operator.getattr op with
  | VList l, Some f =>
      r <- Operator.reduce (Operator.call f) l ;;
      t <- py_str r ;;
      Ok (VStr t)
  | _, _ => Raise AttributeError
  end.

(** [_interpolate_op] *)
Definition _interpolate_op (w : World) (self : Self) (expr op arg : string)
  : result value :=
  if String.eqb op "var" then _interpolate_var self arg
  else if String.eqb op "cfg" then _interpolate_cfg w arg
  else if String.eqb op "env" then _interpolate_env w arg
  else if Operator.hasattr op then _interpolate_math op arg
  else Ok (VStr expr).

(** [_interpolate]; [interpolate_while] is its [while] loop.  Each
    call and each turn of the loop takes one unit of [fuel]. *)
Fixpoint _interpolate (w : World) (self : Self) (fuel : nat) (obj : value)
  {struct fuel} : result value :=
  match fuel with
  | O => OutOfFuel
  | S fuel' =>
      match obj with
      | VDict d => d' <- map_values (_interpolate w self fuel') d ;; Ok (VDict d')
      | VList l => l' <- mapM (_interpolate w self fuel') l ;; Ok (VList l')
      | VStr s =>
          if _is_entire_expression self s then
            e <- _get_expression self s ;;
            let '(expr, op, arg) := e in
            _interpolate_op w self expr op arg
          else if _contains_expression self s then
            interpolate_while w self fuel' s
          else Ok obj
      | _ => Ok obj
      end
  end
with interpolate_while (w : World) (self : Self) (fuel : nat) (obj : string)
  {struct fuel} : result value :=
  match fuel with
  | O => OutOfFuel
  | S fuel' =>
      if _contains_expression self obj then
        e <- _get_expression self obj ;;
        let '(expr, op, arg) := e in
        interpolated_expr <- _interpolate w self fuel' (VStr expr) ;;
        match interpolated_expr with
        | VStr r => interpolate_while w self fuel' (PyStr.replace_first expr r obj)
        | _ => Raise TypeError
        end
      else Ok (VStr obj)
  end.

(** [sub_config[keys[-1]] = value] after the walk of
    [_update_parameters] along [keys[:-1]], which creates the
    mappings that are missing; the write as it shows on a tree
    without shared nodes ([InPlace.set_path] has it on the store) *)
Fixpoint set_path (sub_config : value) (keys : list string) (v : string)
  : result value :=
  match keys with
  | [] => Raise TypeError
  | [key] =>
      match sub_config with
      | VDict d => Ok (VDict (dict_set key (VStr v) d))
      | _ => Raise TypeError
      end
  | key :: rest =>
      present <- py_in key sub_config ;;
      match sub_config with
      | VDict d =>
          let next := match dict_get key d with Some x => x | None => VDict [] end in
          next' <- set_path next rest v ;;
          Ok (VDict (dict_set key next' d))
      | _ => Raise TypeError
      end
  end.

(** one turn of the loop of [_update_parameters] *)
Definition apply_parameter (config : value) (para : arg) : result value :=
  match para with
  | Argv _ => Raise AttributeError
  | Token t =>
      match PyStr.split "=" t with
      | [key_path; v] => set_path config (PyStr.split "." key_path) v
      | _ => Raise ValueError
      end
  end.

(** [_update_parameters] *)
Definition _update_parameters (config : value) (arg_parameters : list arg)
  : result value :=
  fold_left (fun acc para => c <- acc ;; apply_parameter c para)
    arg_parameters (Ok config).

(** [__init__] for a [config] given as a string, up to the resolved
    tree whose items become the attributes of the object *)
Definition build (w : World) (fuel : nat) (config : string)
  (args : option (list string)) (cli : bool) : result value :=
  parsed <- _parse_args w args cli ;;
  let '(arg_configs, arg_parameters) := parsed in
  c0 <- _update_config (Some config) arg_configs ;;
  c1 <- _interpolate w {| config := c0; op_regex := cfg_regex |} fuel c0 ;;
  c2 <- _update_parameters c1 arg_parameters ;;
  c3 <- _interpolate w {| config := c2; op_regex := general_op_regex |} fuel c2 ;;
  c4 <- _apply_recursively _maybe_convert_to_numeric c3 ;;
  match c4 with
  | VDict _ => Ok c4
  | _ => Raise AttributeError
  end.

End Confly.

Import Scanner Confly.

(** ** Notions used in the statements *)

(** the object during the second pass: the full grammar is active *)
Definition phase2 (tree : value) : Self :=
  {| config := tree; op_regex := general_op_regex |}.

(** the object during the first pass: only includes are recognised *)
Definition phase1 (tree : value) : Self :=
  {| config := tree; op_regex := cfg_regex |}.

(** the second pass followed by the numeric pass, as [__init__] runs
    them on the tree [tree] *)
(** the numeric pass over a tree *)
Definition numeric_pass (tree : value) : result value :=
  _apply_recursively _maybe_convert_to_numeric tree.

(** the second pass followed by the numeric pass, as [__init__] runs
    them on the tree [tree] *)
Definition resolve (w : World) (fuel : nat) (tree : value) : result value :=
  r <- _interpolate w (phase2 tree) fuel tree ;;
  numeric_pass r.

(** the value found by following [keys] through nested mappings *)
Fixpoint walk (v : value) (keys : list string) : option value :=
  match keys with
  | [] => Some v
  | k :: rest =>
      match v with
      | VDict d =>
          match dict_get k d with
          | Some x => walk x rest
          | None => None
          end
      | _ => None
      end
  end.

(** neither a mapping nor a sequence *)
Definition is_scalar (v : value) : bool :=
  match v with
  | VDict _ | VList _ => false
  | _ => true
  end.

(** a mapping has each key once *)
Definition unique_keys (d : dict) : Prop := NoDup (List.map fst d).

(** the value of [k] in the last of [docs] that has the key [k] *)
Fixpoint last_binding (k : string) (docs : list dict) : option value :=
  match docs with
  | [] => None
  | d :: rest =>
      match last_binding k rest with
      | Some v => Some v
      | None => dict_get k d
      end
  end.

(** the operand list of an arithmetic expression, as
    [_interpolate_math] cuts it *)
Definition operands (args : string) : list string :=
  List.map PyStr.strip (PyStr.split "," args).

(** the decimal numerals of a list of integers *)
Definition numerals (ns : list Z) : list string :=
  List.map PyStr.str_of_int ns.

(** the conversion of the numeric pass turns the operand into a number *)
Definition coercible (t : string) : bool :=
  match _maybe_convert_to_numeric (VStr t) with
  | Ok (VInt _) | Ok (VFloat _) => true
  | _ => false
  end.

Definition is_str (v : value) : bool :=
  match v with VStr _ => true | _ => false end.

(** both numbers, or both strings *)
Definition same_kind (x y : value) : bool :=
  ((Operator.is_number x && Operator.is_number y)
   || (is_str x && is_str y))%bool.


Fixpoint closers (d : nat) : string :=
  match d with
  | O => EmptyString
  | S d' => String "}" (closers d')
  end.


(** number of occurrences of a character *)
Fixpoint count (c : ascii) (s : string) : nat :=
  match s with
  | EmptyString => O
  | String d r => ((if Ascii.eqb c d then 1 else 0) + count c r)%nat
  end.

Definition empty_world : World :=
  {| environ := []; argv := []; documents := [] |}.

(** the text of the expression with operator [op] and argument [arg] *)
Definition expression (op arg : string) : string :=
  "${" ++ op ++ ":" ++ arg ++ "}".

(** an operator name that the dispatcher passes through *)
Definition unrecognised (op : string) : bool :=
  (negb (String.eqb op "var") && negb (String.eqb op "cfg")
   && negb (String.eqb op "env") && negb (Operator.hasattr op))%bool.

Definition no_dollar (c : ascii) : bool := negb (Ascii.eqb c "$").

(** the text of an expression is free of braces *)
Definition no_brace (c : ascii) : bool := negb (is_brace c).

(** the argument does not start with white space *)
Definition starts_black (s : string) : bool :=
  match s with
  | EmptyString => true
  | String c _ => negb (is_space c)
  end.

(** one turn of the loop of [_interpolate_var] *)
Definition var_step (obj : string) (acc : result value) (key : string)
  : result value :=
  interpolated_variable <- acc ;;
  present <- py_in key interpolated_variable ;;
  if negb present then Raise (undefined obj)
  else py_getitem interpolated_variable key.

(** one turn of [functools.reduce] with the operator [f] *)
Definition reduce_step (f : Operator.fn) (acc : result value) (b : value)
  : result value :=
  x <- acc ;; Operator.call f x b.

(** *** Inputs of the examples *)

(** an expression with an operator that is not recognised, inside
    other text *)
Definition stuck_text : string := "x ${foo:1} y".

(** a tree in which [a] refers to [b], whose own text is an
    expression, and the world whose document [conf] is that tree *)
Definition alias_tree : value :=
  VDict [("a", VStr "${var:b}"); ("b", VStr "${add: 1, 2}")].

Definition alias_world : World :=
  {| environ := []; argv := []; documents := [("conf", alias_tree)] |}.

(** the one-character string U+00B2, SUPERSCRIPT TWO *)
Definition superscript_two : string := String (ascii_of_nat 178) EmptyString.

Definition var_tree : value :=
  VDict [("a", VDict [("b", VInt 1)]); ("c", VStr "${var:a.b}")].

Definition foo_world : World :=
  {| environ := [("FOO", "bar")]; argv := []; documents := [] |}.

Definition doc_A : dict := [("x", VInt 1); ("y", VInt 1)].
Definition doc_B : dict := [("y", VInt 2); ("z", VInt 2)].

Definition merge_world : World :=
  {| environ := []; argv := [];
     documents := [("A", VDict doc_A); ("B", VDict doc_B); ("S", VStr "text")] |}.


(** *** Induction on value trees *)

Section ValueInduction.

Variable P : value -> Prop.
Hypothesis HNone : P VNone.
Hypothesis HBool : forall b, P (VBool b).
Hypothesis HInt : forall n, P (VInt n).
Hypothesis HFloat : forall f, P (VFloat f).
Hypothesis HStr : forall s, P (VStr s).
Hypothesis HList : forall l, Forall P l -> P (VList l).
Hypothesis HDict : forall d, Forall (fun kv => P (snd kv)) d -> P (VDict d).

Fixpoint value_tree_ind (v : value) : P v :=
  match v with
  | VNone => HNone
  | VBool b => HBool b
  | VInt n => HInt n
  | VFloat f => HFloat f
  | VStr s => HStr s
  | VList l =>
      HList l ((fix elems (l : list value) : Forall P l :=
                  match l with
                  | [] => Forall_nil _
                  | x :: t => Forall_cons x (value_tree_ind x) (elems t)
                  end) l)
  | VDict d =>
      HDict d ((fix items (d : dict) : Forall (fun kv => P (snd kv)) d :=
                  match d with
                  | [] => Forall_nil _
                  | kv :: t => Forall_cons kv (value_tree_ind (snd kv)) (items t)
                  end) d)
  end.

End ValueInduction.

(** ** The object and its attributes *)

(** An instance of [Confly] is its [__dict__]: the attributes in the
    order in which they were first set.  An attribute holds a value
    as it is, or an instance of [Confly] (the values that were
    mappings), or one of the objects that [__init__] keeps under the
    names [config], [config_dir], [general_op_regex], [cfg_regex] and
    [op_regex] until it deletes them. *)
Inductive object : Type :=
| Obj (attrs : list (string * member))
with member : Type :=
| Plain (v : value)
| Nested (o : object)
| Internal.

Definition __dict__ (self : object) : list (string * member) :=
  match self with Obj attrs => attrs end.

(** [d[k] = m] on a [__dict__] *)
Fixpoint attrs_set (k : string) (m : member) (l : list (string * member))
  : list (string * member) :=
  match l with
  | [] => [(k, m)]
  | (k', m') :: t =>
      if String.eqb k k' then (k, m) :: t else (k', m') :: attrs_set k m t
  end.

(** [del d[k]] on a [__dict__] *)
Fixpoint attrs_del (k : string) (l : list (string * member))
  : list (string * member) :=
  match l with
  | [] => []
  | (k', m') :: t =>
      if String.eqb k k' then t else (k', m') :: attrs_del k t
  end.

(** [setattr(self, key, m)]: the names [__class__] and [__dict__] take
    only a class and a dictionary, [__weakref__] cannot be written;
    every other string is stored in [__dict__] *)
Definition setattr (self : object) (key : string) (m : member) : result object :=
  if (String.eqb key "__class__" || String.eqb key "__dict__")%bool
  then Raise TypeError
  else if String.eqb key "__weakref__" then Raise AttributeError
  else Ok (Obj (attrs_set key m (__dict__ self))).

(** [del self.key] *)
Definition delattr (self : object) (key : string) : result object :=
  match assoc key (__dict__ self) with
  | Some _ => Ok (Obj (attrs_del key (__dict__ self)))
  | None => Raise AttributeError
  end.

(** the instance when the loop of [__init__] starts: lines 13 to 48
    have set the five attributes of the object itself *)
Definition fresh : object :=
  Obj [("config", Internal); ("config_dir", Internal);
       ("general_op_regex", Internal); ("cfg_regex", Internal);
       ("op_regex", Internal)].

(** the five [del] statements that end [__init__] *)
Definition delete_own (self : object) : result object :=
  self <- delattr self "config" ;;
  self <- delattr self "config_dir" ;;
  self <- delattr self "op_regex" ;;
  self <- delattr self "general_op_regex" ;;
  delattr self "cfg_regex".

(** [Confly(config)] for a [config] that is not a string: the loop
    over [self.config.items()] and the deletions.  Anything but a
    mapping has no [items]. *)
Fixpoint instantiate (config : value) : result object :=
  match config with
  | VDict d =>
      self <- (fix loop (items : dict) (self : object) {struct items}
                 : result object :=
                 match items with
                 | [] => Ok self
                 | (key, value) :: rest =>
                     m <- match value with
                          | VDict _ => o <- instantiate value ;; Ok (Nested o)
                          | _ => Ok (Plain value)
                          end ;;
                     self <- setattr self key m ;;
                     loop rest self
                 end) d fresh ;;
      delete_own self
  | _ => Raise AttributeError
  end.

(** [Confly(value) if isinstance(value, dict) else value] *)
Definition wrap (value : value) : result member :=
  match value with
  | VDict _ => o <- instantiate value ;; Ok (Nested o)
  | _ => Ok (Plain value)
  end.

(** [__init__]: the resolution of a [config] given as a string, then
    the attributes *)
Definition __init__ (w : World) (fuel : nat) (config : value)
  (args : option (list string)) (cli : bool) : result object :=
  match config with
  | VStr s => c <- build w fuel s args cli ;; instantiate c
  | _ => instantiate config
  end.

(** the names that [getattr] finds on the class when the instance has
    no such attribute (CPython 3.11) *)
Definition class_attributes : list string :=
  [ "__class__"; "__delattr__"; "__dict__"; "__dir__"; "__doc__";
    "__eq__"; "__format__"; "__ge__"; "__getattribute__";
    "__getitem__"; "__getstate__"; "__gt__"; "__hash__"; "__init__";
    "__init_subclass__"; "__iter__"; "__le__"; "__len__"; "__lt__";
    "__module__"; "__ne__"; "__new__"; "__reduce__"; "__reduce_ex__";
    "__repr__"; "__setattr__"; "__setitem__"; "__sizeof__"; "__str__";
    "__subclasshook__"; "__weakref__"; "_apply_recursively";
    "_contains_expression"; "_get_expression"; "_interpolate";
    "_interpolate_cfg"; "_interpolate_env"; "_interpolate_math";
    "_interpolate_op"; "_interpolate_var"; "_is_entire_expression";
    "_load_conf"; "_maybe_convert_to_numeric"; "_parse_args";
    "_update_config"; "_update_parameters"; "items"; "save";
    "to_dict" ].

(** [__getitem__]: [getattr(self, key)].  An attribute of the
    instance comes first; a name of the class gives a method or
    another object of the class, which is not a member. *)
Definition __getitem__ (self : object) (key : string) : result member :=
  match assoc key (__dict__ self) with
  | Some m => Ok m
  | None =>
      if list_mem key class_attributes then Unmodelled
      else Raise AttributeError
  end.

(** [__setitem__] *)
Definition __setitem__ (self : object) (key : string) (value : value)
  : result object :=
  m <- wrap value ;;
  setattr self key m.

(** [__iter__]: the names, as iterating [__dict__] yields them *)
Definition __iter__ (self : object) : list string :=
  List.map fst (__dict__ self).

(** [__len__] *)
Definition __len__ (self : object) : nat := List.length (__dict__ self).

(** [items] *)
Definition items (self : object) : list (string * member) := __dict__ self.

(** [to_dict].  In [value.to_dict()] an attribute of [value] named
    [to_dict] hides the method; no value is callable. *)
Fixpoint to_dict (self : object) : result dict :=
  match self with
  | Obj attrs =>
      (fix items (l : list (string * member)) : result dict :=
         match l with
         | [] => Ok []
         | (key, value) :: rest =>
             v <- match value with
                  | Nested o =>
                      match assoc "to_dict" (__dict__ o) with
                      | Some _ => Raise TypeError
                      | None => d <- to_dict o ;; Ok (VDict d)
                      end
                  | Plain v => Ok v
                  | Internal => Unmodelled
                  end ;;
             t <- items rest ;;
             Ok ((key, v) :: t)
         end) attrs
  end.

(** ** The suffix of a path ([pathlib], CPython 3.11) *)

Module PurePath.

(** [s.rfind(c)] for a character [c]; [None] stands for -1 *)
Fixpoint rfind_from (c : ascii) (s : string) (pos : nat) (last : option nat)
  : option nat :=
  match s with
  | EmptyString => last
  | String d r =>
      rfind_from c r (S pos) (if Ascii.eqb c d then Some pos else last)
  end.

Definition rfind (c : ascii) (s : string) : option nat :=
  rfind_from c s O None.

(** [s[:n]] *)
Fixpoint take (n : nat) (s : string) : string :=
  match n, s with
  | S n', String c r => String c (take n' r)
  | _, _ => EmptyString
  end.

(** [suffix] of a path whose final component is [name]: the text from
    the last dot on, when the dot is neither the first nor the last
    character *)
Definition suffix (name : string) : string :=
  match rfind "." name with
  | Some i =>
      if (Nat.ltb 0 i && Nat.ltb i (String.length name - 1))%bool
      then PyStr.drop i name
      else EmptyString
  | None => EmptyString
  end.

(** the final component after [with_suffix(new)], for a suffix [new]
    that starts with a dot and holds no separator *)
Definition with_suffix (name new : string) : result string :=
  if PyStr.is_empty name then Raise ValueError
  else
    let old_suffix := suffix name in
    if PyStr.is_empty old_suffix then Ok (name ++ new)
    else Ok (take (String.length name - String.length old_suffix) name ++ new).

End PurePath.

(** the first two lines of [_load_conf], on the final component of
    [filepath]: the name of the file that is opened *)
Definition yml_name (name : string) : result string :=
  if negb (String.eqb (PurePath.suffix name) ".yml")
  then PurePath.with_suffix name ".yml"
  else Ok name.

(** ** Notions used in the further properties *)

(** every string of the tree (the values of mappings and the items of
    sequences, at any depth) satisfies [p] *)
Fixpoint all_strings (p : string -> bool) (t : value) : bool :=
  match t with
  | VStr s => p s
  | VList l =>
      (fix elems (l : list value) : bool :=
         match l with
         | [] => true
         | v :: r => (all_strings p v && elems r)%bool
         end) l
  | VDict d =>
      (fix items (d : dict) : bool :=
         match d with
         | [] => true
         | kv :: r => (all_strings p (snd kv) && items r)%bool
         end) d
  | _ => true
  end.

(** number of nested containers, plus one *)
Fixpoint depth (t : value) : nat :=
  match t with
  | VList l =>
      S ((fix elems (l : list value) : nat :=
            match l with
            | [] => O
            | v :: r => Nat.max (depth v) (elems r)
            end) l)
  | VDict d =>
      S ((fix items (d : dict) : nat :=
            match d with
            | [] => O
            | kv :: r => Nat.max (depth (snd kv)) (items r)
            end) d)
  | _ => 1%nat
  end.

(** the text with which every match of the pattern starts *)
Definition marker (rx : regex) : string :=
  match rx with
  | general_op_regex => "${"
  | cfg_regex => "${cfg"
  end.

(** the string holds no start of a match of the pattern *)
Definition unmarked (rx : regex) (s : string) : bool :=
  negb (PyStr.contains (marker rx) s).

(** the tree with every leaf blanked: what is left is the nesting of
    mappings and sequences, the keys and their order *)
Fixpoint shape (t : value) : value :=
  match t with
  | VList l => VList (List.map shape l)
  | VDict d => VDict (List.map (fun kv => (fst kv, shape (snd kv))) d)
  | _ => VNone
  end.

(** a string for which [str.isdigit] holds only when it is made of the
    decimal digits 0 to 9 *)
Definition decimal_or_text (s : string) : bool :=
  (negb (PyStr.isdigit s) || PyStr.forallb PyStr.is_ascii_digit s)%bool.

(** CPython's default bound on the number of digits in a conversion
    between [int] and [str] *)
Definition int_max_str_digits : nat := 4300.

(** a string that [str.isdigit] accepts has no more characters than
    that bound *)
Definition within_limit (s : string) : bool :=
  (negb (PyStr.isdigit s) || Nat.leb (String.length s) int_max_str_digits)%bool.

Definition is_mapping (v : value) : bool :=
  match v with VDict _ => true | _ => false end.

(** one turn of the loop of [_parse_args] *)
Definition parse_step (acc : result (list arg * list arg)) (a : arg)
  : result (list arg * list arg) :=
  cp <- acc ;;
  let '(configs, parameters) := cp in
  match a with
  | Token t =>
      if PyStr.contains "=" t then Ok (configs, (parameters ++ [a])%list)
      else if PyStr.contains "--" t
           then Ok (configs, (parameters ++ [Token (PyStr.drop 2 t ++ "=True")])%list)
           else Ok ((configs ++ [a])%list, parameters)
  | Argv l =>
      if list_mem "=" l then Ok (configs, (parameters ++ [a])%list)
      else if list_mem "--" l then Raise TypeError
           else Ok ((configs ++ [a])%list, parameters)
  end.

(** a token that [_parse_args] takes for the name of a document *)
Definition is_config (t : string) : bool :=
  (negb (PyStr.contains "=" t) && negb (PyStr.contains "--" t))%bool.

(** the parameter that [_parse_args] makes of a token that is not the
    name of a document *)
Definition as_parameter (t : string) : string :=
  if PyStr.contains "=" t then t else PyStr.drop 2 t ++ "=True".

(** a character that a document name in a [cfg] list can hold without
    being cut or taken for part of the syntax: no brace, no comma and
    no white space *)
Definition name_char (c : ascii) : bool :=
  (no_brace c && negb (Ascii.eqb c ",") && negb (is_space c))%bool.

Definition plain_name (t : string) : Prop := PyStr.forallb name_char t = true.

(** the mappings of [docs] merged from the left on their top-level
    keys *)
Definition merge_all (docs : list dict) : dict :=
  fold_left dict_update docs [].

(** a value that is neither text nor a container *)
Definition is_atom (v : value) : bool :=
  match v with
  | VNone | VBool _ | VInt _ | VFloat _ => true
  | _ => false
  end.

(** the value stays within CPython's bound on the digits of an [int]
    turned into text or read from it *)
Definition printable (n : Z) : Prop :=
  Z.abs n < 10 ^ Z.of_nat int_max_str_digits.

(** the names that [__init__] uses for the object itself and deletes
    at its end *)
Definition own_names : list string :=
  ["config"; "config_dir"; "op_regex"; "general_op_regex"; "cfg_regex"].

Definition is_own (k : string) : bool := list_mem k own_names.

(** a name that [setattr] stores *)
Definition storable (k : string) : bool :=
  negb (list_mem k ["__class__"; "__dict__"; "__weakref__"]).

(** every key of the mapping, and of the mappings that are values of
    mappings at any depth, satisfies [p]; sequences are not entered *)
Fixpoint keys_all (p : string -> bool) (v : value) : bool :=
  match v with
  | VDict d =>
      (fix items (d : dict) : bool :=
         match d with
         | [] => true
         | kv :: r => (p (fst kv) && keys_all p (snd kv) && items r)%bool
         end) d
  | _ => true
  end.

(** the mapping, and the mappings that are values of mappings at any
    depth, have each key once *)
Fixpoint well_keyed (v : value) : Prop :=
  match v with
  | VDict d =>
      unique_keys d
      /\ (fix items (d : dict) : Prop :=
            match d with
            | [] => True
            | kv :: r => well_keyed (snd kv) /\ items r
            end) d
  | _ => True
  end.

(** the items of a mapping without those under the names of the
    object itself, in the mappings that are values of mappings as
    well *)
Fixpoint prune (v : value) : value :=
  match v with
  | VDict d =>
      VDict ((fix items (d : dict) : dict :=
                match d with
                | [] => []
                | kv :: r =>
                    if is_own (fst kv) then items r
                    else (fst kv, prune (snd kv)) :: items r
                end) d)
  | _ => v
  end.

(** the attribute that holds a value: an instance for a mapping, with
    the attributes of its pruned items, and the value itself
    otherwise *)
Fixpoint as_member (v : value) : member :=
  match v with
  | VDict d =>
      Nested (Obj ((fix items (d : dict) : list (string * member) :=
                      match d with
                      | [] => []
                      | kv :: r =>
                          if is_own (fst kv) then items r
                          else (fst kv, as_member (snd kv)) :: items r
                      end) d))
  | _ => Plain v
  end.

(** the attributes that hold the items of a mapping *)
Definition as_attrs (d : dict) : list (string * member) :=
  List.map (fun kv => (fst kv, as_member (snd kv)))
    (List.filter (fun kv => negb (is_own (fst kv))) d).

(** the pruned items of a mapping *)
Definition prune_items (d : dict) : dict :=
  List.map (fun kv => (fst kv, prune (snd kv)))
    (List.filter (fun kv => negb (is_own (fst kv))) d).

(** [self.to_dict()]: the attribute is looked up on the instance
    first, then the method is called *)
Definition call_to_dict (self : object) : result dict :=
  match assoc "to_dict" (__dict__ self) with
  | Some _ => Raise TypeError
  | None => to_dict self
  end.

(** the loop of [__init__] over the items of [config] *)
Fixpoint set_items (items : dict) (self : object) : result object :=
  match items with
  | [] => Ok self
  | (key, value) :: rest =>
      m <- wrap value ;;
      self <- setattr self key m ;;
      set_items rest self
  end.

(** the value that [to_dict] gives for one attribute *)
Definition item_value (m : member) : result value :=
  match m with
  | Nested o => d <- call_to_dict o ;; Ok (VDict d)
  | Plain v => Ok v
  | Internal => Unmodelled
  end.

(** some mapping kept by the object as an instance (the value of a
    key that is not one of the object's own names, at any depth) has
    the key [to_dict] *)
Fixpoint hides_to_dict (v : value) : bool :=
  match v with
  | VDict d =>
      (fix items (d : dict) : bool :=
         match d with
         | [] => false
         | kv :: r =>
             ((negb (is_own (fst kv))
               && (match snd kv with
                   | VDict d' => dict_mem "to_dict" d'
                   | _ => false
                   end
                   || hides_to_dict (snd kv)))
              || items r)%bool
         end) d
  | _ => false
  end.

(** an [__init__] that raises on a name that cannot be set raises one
    of these *)
Definition is_setattr_error (e : exn) : Prop :=
  e = TypeError \/ e = AttributeError.

(** the attributes of the object itself, in the order in which
    [__init__] sets them *)
Definition own_attrs (a b c e f : member) : list (string * member) :=
  [("config", a); ("config_dir", b); ("general_op_regex", c);
   ("cfg_regex", e); ("op_regex", f)].

(** the mapping itself has the key [to_dict] *)
Definition has_to_dict (v : value) : bool :=
  match v with
  | VDict d => dict_mem "to_dict" d
  | _ => false
  end.

(** a nest in which the inner expression is wrapped in a pair of
    braces of its own, the form that the alternative [\{ (?0) \}] of
    the pattern accepts inside an argument *)
Definition wrapped_nest : string := "${add: 1, {${add: 2, 3}}}".

(** a tree in which the path [a.b] ends at a number, with a reference
    to [a.b.c], and the world whose document [conf] is that tree *)
Definition leaf_tree : value :=
  VDict [("a", VDict [("b", VInt 1)]); ("r", VStr "${var:a.b.c}")].

Definition leaf_world : World :=
  {| environ := []; argv := []; documents := [("conf", leaf_tree)] |}.

(** ** Overrides written in place *)

(** [_update_parameters] writes into the mappings of [self.config]
    themselves (lines 214 to 219), and two places of a configuration
    can hold one and the same mapping: the YAML loader builds one
    [dict] for an anchor and for each of its aliases.  Here a mapping
    is an object of a store and a value holds a reference to it; a
    sequence holds its elements, since no line of the class writes
    into a sequence. *)
Module InPlace.

#[warnings="-register-all"]
Inductive hval : Type :=
| HNone
| HBool (b : bool)
| HInt (n : Z)
| HFloat (f : PyFloat.float)
| HStr (s : string)
| HList (l : list hval)
| HRef (a : nat).

Definition hdict : Type := list (string * hval).

(** the store: the mapping of address [a] is the element of index [a] *)
Definition heap : Type := list hdict.

Definition cell (h : heap) (a : nat) : option hdict := nth_error h a.

Fixpoint store (h : heap) (a : nat) (d : hdict) : heap :=
  match h, a with
  | [], _ => []
  | _ :: t, O => d :: t
  | c :: t, S a' => c :: store t a' d
  end.

(** [{}]: a new, empty mapping *)
Definition alloc (h : heap) : nat * heap := (length h, (h ++ [[]])%list).

Fixpoint hd_get (k : string) (d : hdict) : option hval :=
  match d with
  | [] => None
  | (k', v) :: t => if String.eqb k k' then Some v else hd_get k t
  end.

Definition hd_mem (k : string) (d : hdict) : bool :=
  match hd_get k d with Some _ => true | None => false end.

(** an existing key keeps its place, a new key goes last *)
Fixpoint hd_set (k : string) (v : hval) (d : hdict) : hdict :=
  match d with
  | [] => [(k, v)]
  | (k', v') :: t =>
      if String.eqb k k' then (k, v) :: t else (k', v') :: hd_set k v t
  end.

(** [key in x] *)
Definition py_in (h : heap) (key : string) (x : hval) : result bool :=
  match x with
  | HRef a =>
      match cell h a with
      | Some d => Ok (hd_mem key d)
      | None => Unmodelled
      end
  | HList l =>
      Ok (existsb (fun e => match e with
                            | HStr s => String.eqb key s
                            | _ => false
                            end) l)
  | HStr s => Ok (PyStr.contains key s)
  | _ => Raise TypeError
  end.

(** [x[key] = y] for a string [key] *)
Definition py_setitem (h : heap) (x : hval) (key : string) (y : hval)
  : result heap :=
  match x with
  | HRef a =>
      match cell h a with
      | Some d => Ok (store h a (hd_set key y d))
      | None => Unmodelled
      end
  | _ => Raise TypeError
  end.

(** [x[key]] for a string [key] *)
Definition py_getitem (h : heap) (x : hval) (key : string) : result hval :=
  match x with
  | HRef a =>
      match cell h a with
      | Some d =>
          match hd_get key d with
          | Some y => Ok y
          | None => Raise (RuntimeError "KeyError")
          end
      | None => Unmodelled
      end
  | _ => Raise TypeError
  end.

(** lines 215 to 219: the walk along [keys[:-1]], which stores a new
    mapping under a key that is missing, and the assignment at
    [keys[-1]] *)
Fixpoint set_path (h : heap) (sub_config : hval) (keys : list string)
  (v : string) : result heap :=
  match keys with
  | [] => Raise TypeError
  | [key] => py_setitem h sub_config key (HStr v)
  | key :: rest =>
      present <- py_in h key sub_config ;;
      h1 <- (if present then Ok h
             else let (a, h0) := alloc h in
                  py_setitem h0 sub_config key (HRef a)) ;;
      next <- py_getitem h1 sub_config key ;;
      set_path h1 next rest v
  end.

(** one turn of the loop of [_update_parameters] *)
Definition apply_parameter (h : heap) (config : hval) (para : arg)
  : result heap :=
  match para with
  | Argv _ => Raise AttributeError
  | Token t =>
      match PyStr.split "=" t with
      | [key_path; v] => set_path h config (PyStr.split "." key_path) v
      | _ => Raise ValueError
      end
  end.

(** [_update_parameters]: [self.config] is the same object before and
    after, what changes is the store *)
Definition _update_parameters (h : heap) (config : hval)
  (arg_parameters : list arg) : result heap :=
  fold_left (fun acc para => h1 <- acc ;; apply_parameter h1 config para)
    arg_parameters (Ok h).

(** a step from a value to a part of it: the item of a mapping or the
    element of a sequence *)
Inductive seg : Type :=
| Key (k : string)
| Index (i : nat).

(** the value found by following [p] from [x] *)
Fixpoint walk (h : heap) (x : hval) (p : list seg) : option hval :=
  match p with
  | [] => Some x
  | Key k :: rest =>
      match x with
      | HRef a =>
          match cell h a with
          | Some d =>
              match hd_get k d with
              | Some y => walk h y rest
              | None => None
              end
          | None => None
          end
      | _ => None
      end
  | Index i :: rest =>
      match x with
      | HList l =>
          match nth_error l i with
          | Some y => walk h y rest
          | None => None
          end
      | _ => None
      end
  end.

(** no mapping is held at two places below [x], as in a document
    without aliases *)
Definition unshared (h : heap) (x : hval) : Prop :=
  forall p q a,
    walk h x p = Some (HRef a) -> walk h x q = Some (HRef a) -> p = q.

(** every reference below [x] is to a mapping of the store *)
Definition closed (h : heap) (x : hval) : Prop :=
  forall p a, walk h x p = Some (HRef a) -> (a < length h)%nat.

(** the path [q] parts ways with the key path [keys] at some segment *)
Fixpoint departs (keys : list string) (q : list seg) : Prop :=
  match keys, q with
  | k :: ks, s :: q' => s <> Key k \/ (s = Key k /\ departs ks q')
  | _, _ => False
  end.

(** the document [{a: &x {k: 1}, b: *x}]: one mapping under two keys *)
Definition shared_store : heap :=
  [[("a", HRef 1%nat); ("b", HRef 1%nat)]; [("k", HInt 1)]].

(** the document [{a: {b: 0}, c: {k: 1}}] *)
Definition plain_store : heap :=
  [[("a", HRef 1%nat); ("c", HRef 2%nat)]; [("b", HInt 0)]; [("k", HInt 1)]].

End InPlace.

(** * Properties *)

(** ** Strings *)

Lemma append_empty_r (s : string) : s ++ "" = s.
Proof. induction s as [|c r IH]; simpl; [reflexivity | rewrite IH; reflexivity]. Qed.

Lemma append_assoc (a b c : string) : (a ++ b) ++ c = a ++ b ++ c.
Proof. induction a as [|x a IH]; simpl; [reflexivity | rewrite IH; reflexivity]. Qed.

Lemma length_append (a b : string) :
  String.length (a ++ b) = (String.length a + String.length b)%nat.
Proof. induction a as [|c r IH]; simpl; [reflexivity | rewrite IH; reflexivity]. Qed.

Lemma span_all (p : ascii -> bool) (s : string) :
  PyStr.forallb p s = true -> PyStr.span p s = (s, EmptyString).
Proof.
  induction s as [|c r IH]; simpl; [reflexivity|].
  destruct (p c); simpl; [|discriminate].
  intro H. rewrite (IH H). reflexivity.
Qed.

Lemma span_stop (p : ascii -> bool) (a : string) (c : ascii) (r : string) :
  PyStr.forallb p a = true -> p c = false ->
  PyStr.span p (a ++ String c r) = (a, String c r).
Proof.
  induction a as [|d a' IH]; simpl; intros Ha Hc.
  - rewrite Hc. reflexivity.
  - apply andb_true_iff in Ha. destruct Ha as [Hd Ha'].
    rewrite Hd, (IH Ha' Hc). reflexivity.
Qed.

Lemma split_length (c : ascii) (s : string) :
  List.length (PyStr.split c s) = S (count c s).
Proof.
  induction s as [|d r IH]; [reflexivity|].
  simpl. destruct (Ascii.eqb c d).
  - simpl. rewrite IH. reflexivity.
  - destruct (PyStr.split c r); simpl in *; [discriminate | exact IH].
Qed.

Lemma contains_char (c : ascii) (s : string) :
  (1 <= count c s)%nat -> PyStr.contains (String c EmptyString) s = true.
Proof.
  induction s as [|d r IH]; simpl; [lia|].
  destruct (Ascii.eqb c d); simpl; [reflexivity | exact IH].
Qed.

Lemma split_plain (c : ascii) (k : string) :
  count c k = 0%nat -> PyStr.split c k = [k].
Proof.
  induction k as [|d r IH]; [reflexivity|].
  simpl. destruct (Ascii.eqb c d); [discriminate|].
  intro H. rewrite (IH H). reflexivity.
Qed.

Lemma split_app (c : ascii) (k r : string) :
  count c k = 0%nat -> PyStr.split c (k ++ String c r) = k :: PyStr.split c r.
Proof.
  induction k as [|d k' IH]; simpl.
  - intros _. rewrite Ascii.eqb_refl. reflexivity.
  - destruct (Ascii.eqb c d); [discriminate|].
    intro H. rewrite (IH H). reflexivity.
Qed.

(** splitting a joined list of names gives the names back *)
Lemma split_join (c : ascii) (keys : list string) :
  keys <> [] -> Forall (fun k => count c k = 0%nat) keys ->
  PyStr.split c (PyStr.join (String c EmptyString) keys) = keys.
Proof.
  induction keys as [|k rest IH]; [congruence|].
  intros _ Hall. inversion Hall as [|? ? Hk Hrest]; subst.
  destruct rest as [|k2 rest'].
  - simpl. apply split_plain. exact Hk.
  - change (PyStr.join (String c EmptyString) (k :: k2 :: rest'))
      with (k ++ String c (PyStr.join (String c EmptyString) (k2 :: rest'))).
    rewrite split_app by exact Hk.
    rewrite IH; [reflexivity | discriminate | exact Hrest].
Qed.

Lemma startswith_drop (x s : string) :
  PyStr.startswith x s = true -> x ++ PyStr.drop (String.length x) s = s.
Proof.
  revert s. induction x as [|a x IH]; intros s H; [reflexivity|].
  destruct s as [|b s]; [discriminate|].
  simpl in H. apply andb_true_iff in H. destruct H as [Hab Hx].
  apply Ascii.eqb_eq in Hab. subst b.
  simpl. rewrite (IH s Hx). reflexivity.
Qed.

Lemma replace_first_unfold (old new : string) (c : ascii) (s : string) :
  PyStr.replace_first old new (String c s) =
  if PyStr.startswith old (String c s)
  then new ++ PyStr.drop (String.length old) (String c s)
  else String c (PyStr.replace_first old new s).
Proof. reflexivity. Qed.

(** replacing a text by itself changes nothing *)
Lemma replace_first_same (x s : string) : PyStr.replace_first x x s = s.
Proof.
  induction s as [|c s IH].
  - simpl. destruct (PyStr.startswith x "") eqn:E; [|reflexivity].
    apply (startswith_drop x ""). exact E.
  - rewrite replace_first_unfold.
    destruct (PyStr.startswith x (String c s)) eqn:E.
    + apply startswith_drop. exact E.
    + rewrite IH. reflexivity.
Qed.

Lemma forallb_weaken (p q : ascii -> bool) (s : string) :
  (forall c, p c = true -> q c = true) ->
  PyStr.forallb p s = true -> PyStr.forallb q s = true.
Proof.
  intro Hpq. induction s as [|c r IH]; simpl; [reflexivity|].
  intro H. apply andb_true_iff in H. destruct H as [Hc Hr].
  rewrite (Hpq c Hc), (IH Hr). reflexivity.
Qed.

Lemma forallb_count (p : ascii -> bool) (c : ascii) (s : string) :
  p c = false -> PyStr.forallb p s = true -> count c s = 0%nat.
Proof.
  intro Hc. induction s as [|d r IH]; simpl; [reflexivity|].
  intro H. apply andb_true_iff in H. destruct H as [Hd Hr].
  destruct (Ascii.eqb c d) eqn:E.
  - apply Ascii.eqb_eq in E. subst d. congruence.
  - apply IH. exact Hr.
Qed.

Lemma forallb_rev_acc (p : ascii -> bool) (s acc : string) :
  PyStr.forallb p (PyStr.rev_acc s acc)
  = (PyStr.forallb p s && PyStr.forallb p acc)%bool.
Proof.
  revert acc. induction s as [|c r IH]; intro acc; simpl; [reflexivity|].
  rewrite IH. simpl. destruct (p c), (PyStr.forallb p r); reflexivity.
Qed.

Lemma rev_acc_twice (s acc acc' : string) :
  PyStr.rev_acc (PyStr.rev_acc s acc) acc' = PyStr.rev_acc acc (s ++ acc').
Proof.
  revert acc acc'. induction s as [|c r IH]; intros acc acc'; simpl; [reflexivity|].
  rewrite IH. reflexivity.
Qed.

Lemma rev_involutive (s : string) : PyStr.rev (PyStr.rev s) = s.
Proof.
  unfold PyStr.rev. rewrite rev_acc_twice. simpl. apply append_empty_r.
Qed.

Lemma lstrip_black (p q : ascii -> bool) (s : string) :
  (forall c, q c = true -> p c = false) ->
  PyStr.forallb q s = true -> PyStr.lstrip p s = s.
Proof.
  intros Hqp H. unfold PyStr.lstrip.
  destruct s as [|c r]; [reflexivity|].
  simpl in *. apply andb_true_iff in H. destruct H as [Hc _].
  rewrite (Hqp c Hc). reflexivity.
Qed.

Lemma digit_not_space (c : ascii) :
  PyStr.is_ascii_digit c = true -> PyStr.char_isspace c = false.
Proof. destruct c as [[] [] [] [] [] [] [] []]; vm_compute; congruence. Qed.

(** stripping a string of digits leaves it as it is *)
Lemma strip_digits (s : string) :
  PyStr.forallb PyStr.is_ascii_digit s = true -> PyStr.strip s = s.
Proof.
  intro H. unfold PyStr.strip, PyStr.rstrip.
  rewrite (lstrip_black _ _ s digit_not_space H).
  rewrite (lstrip_black _ PyStr.is_ascii_digit (PyStr.rev s) digit_not_space).
  - apply rev_involutive.
  - unfold PyStr.rev. rewrite forallb_rev_acc, H. reflexivity.
Qed.

(** ** Decimal numerals *)

Lemma string_of_uint_digits (d : Decimal.uint) :
  PyStr.forallb PyStr.is_ascii_digit (NilEmpty.string_of_uint d) = true.
Proof. induction d; simpl; try exact IHd; reflexivity. Qed.

Ltac digit_step IH :=
  match goal with
  | |- context [PyStr.digit_value ?c] =>
      let v := eval vm_compute in (PyStr.digit_value c) in
      change (PyStr.digit_value c) with v
  end;
  rewrite <- IH; f_equal; lia.

Lemma digits_value_acc_pos (d : Decimal.uint) :
  forall acc : positive,
    PyStr.digits_value_acc (NilEmpty.string_of_uint d) (Zpos acc)
    = Zpos (Pos.of_uint_acc d acc).
Proof.
  induction d; intro acc;
    cbn [NilEmpty.string_of_uint PyStr.digits_value_acc Pos.of_uint_acc];
    try reflexivity; digit_step IHd.
Qed.

Lemma digits_value_uint (d : Decimal.uint) :
  PyStr.digits_value_acc (NilEmpty.string_of_uint d) 0 = Z.of_N (Pos.of_uint d).
Proof.
  induction d;
    cbn [NilEmpty.string_of_uint PyStr.digits_value_acc Pos.of_uint Z.of_N];
    try reflexivity; try exact IHd;
    rewrite <- digits_value_acc_pos; f_equal.
Qed.

(** the numeral of a natural number is made of decimal digits, and
    its value is the number *)
Lemma str_of_int_digits (n : Z) :
  0 <= n ->
  PyStr.str_of_int n <> ""
  /\ PyStr.forallb PyStr.is_ascii_digit (PyStr.str_of_int n) = true
  /\ PyStr.digits_value (PyStr.str_of_int n) = n.
Proof.
  intro Hn. unfold PyStr.str_of_int, PyStr.digits_value.
  destruct n as [|p|p]; [repeat split; discriminate | | lia].
  cbn [Z.to_int NilZero.string_of_int].
  pose proof (string_of_uint_digits (Pos.to_uint p)) as Hall.
  assert (Hd : PyStr.digits_value_acc (NilEmpty.string_of_uint (Pos.to_uint p)) 0
               = Zpos p).
  { rewrite digits_value_uint, DecimalPos.Unsigned.of_to. reflexivity. }
  unfold NilZero.string_of_uint.
  destruct (Pos.to_uint p) eqn:E;
    [simpl in Hd; discriminate | ..];
    (split; [simpl; discriminate | split; [exact Hall | exact Hd]]).
Qed.

Lemma numerals_plain (ns : list Z) :
  Forall (fun n => 0 <= n) ns ->
  Forall (fun t => t <> "" /\ PyStr.forallb PyStr.is_ascii_digit t = true) (numerals ns)
  /\ List.map PyStr.digits_value (numerals ns) = ns.
Proof.
  induction 1 as [|n ns Hn Hns [IHd IHv]]; [split; [constructor | reflexivity]|].
  destruct (str_of_int_digits n Hn) as (Hne & Hdig & Hval).
  split.
  - constructor; [split; assumption | exact IHd].
  - cbn [numerals List.map]. fold (numerals ns). rewrite Hval, IHv. reflexivity.
Qed.

(** ** The scanner *)

Lemma match_at_unfold (rx : regex) (fuel : nat) (s1 : string) :
  match_at rx (S fuel) (String "$" (String "{" s1)) =
  match match_op rx s1 with
  | Some (op, s2) =>
      let (ws1, s3) := PyStr.span is_space s2 in
      match s3 with
      | String ":" s4 =>
          let (ws2, s5) := PyStr.span is_space s4 in
          match match_arg rx fuel s5 with
          | Some (arg, rest) =>
              Some {| group0 := "${" ++ op ++ ws1 ++ ":" ++ ws2 ++ arg ++ "}";
                      group_op := op;
                      group_arg := arg;
                      after := rest |}
          | None => None
          end
      | _ => None
      end
  | None => None
  end.
Proof. reflexivity. Qed.

Lemma search_unfold (rx : regex) (c : ascii) (r : string) :
  search rx (String c r) =
  match match_here rx (String c r) with
  | Some m => Some m
  | None => search rx r
  end.
Proof. reflexivity. Qed.

(** the group [arg] of text without braces ends at the first closing
    brace *)
Lemma match_arg_plain (rx : regex) (u t : string) :
  PyStr.forallb no_brace u = true ->
  forall fuel, (String.length u < fuel)%nat ->
  match_arg rx fuel (u ++ String "}" t) = Some (u, t).
Proof.
  induction u as [|c r IH]; intros Hu fuel Hf.
  - destruct fuel; [lia|]. reflexivity.
  - destruct fuel as [|fuel]; [simpl in Hf; lia|].
    simpl in Hu. apply andb_true_iff in Hu. destruct Hu as [Hc Hr].
    unfold no_brace, is_brace in Hc.
    apply negb_true_iff, orb_false_iff in Hc. destruct Hc as [Ho Hcl].
    cbn [append match_arg]. rewrite Hcl, Ho.
    rewrite (IH Hr fuel) by (simpl in Hf; lia). reflexivity.
Qed.

(** an expression whose operator is a word and whose argument has no
    braces is matched as a whole, with these two groups *)
Lemma match_plain (op ws arg rest : string) :
  op <> "" -> PyStr.forallb is_word op = true ->
  PyStr.forallb is_space ws = true ->
  PyStr.forallb no_brace arg = true -> starts_black arg = true ->
  match_here general_op_regex ("${" ++ op ++ ":" ++ ws ++ arg ++ "}" ++ rest)
  = Some {| group0 := "${" ++ op ++ ":" ++ ws ++ arg ++ "}";
            group_op := op;
            group_arg := arg;
            after := rest |}.
Proof.
  intros Hne Hop Hws Harg Hblack.
  unfold match_here, fuel_for.
  change ("${" ++ op ++ ":" ++ ws ++ arg ++ "}" ++ rest)
    with (String "$" (String "{" (op ++ String ":" (ws ++ arg ++ String "}" rest)))).
  rewrite match_at_unfold.
  unfold match_op. rewrite (span_stop is_word op ":" _ Hop eq_refl).
  destruct op as [|o op']; [congruence|]. cbn [PyStr.is_empty].
  change (PyStr.span is_space (String ":" (ws ++ arg ++ String "}" rest)))
    with (EmptyString, String ":" (ws ++ arg ++ String "}" rest)).
  cbv iota beta.
  assert (Hspan : PyStr.span is_space (ws ++ arg ++ String "}" rest)
                  = (ws, arg ++ String "}" rest)).
  { destruct arg as [|a arg'].
    - apply span_stop; [exact Hws | reflexivity].
    - apply span_stop; [exact Hws|].
      simpl in Hblack. apply negb_true_iff in Hblack. exact Hblack. }
  rewrite Hspan. cbv iota beta.
  rewrite (match_arg_plain general_op_regex arg rest Harg).
  - reflexivity.
  - cbn [String.length]. rewrite !length_append. cbn [String.length].
    rewrite !length_append. cbn [String.length]. lia.
Qed.

(** a match starts with a dollar sign *)
Lemma match_here_dollar (rx : regex) (c : ascii) (r : string) :
  no_dollar c = true -> match_here rx (String c r) = None.
Proof.
  unfold no_dollar, match_here, fuel_for. intro H.
  destruct c as [[] [] [] [] [] [] [] []]; try reflexivity; discriminate.
Qed.

Lemma search_after_text (rx : regex) (pre rest : string) (m : rmatch) :
  PyStr.forallb no_dollar pre = true ->
  match_here rx (String "$" rest) = Some m ->
  search rx (pre ++ String "$" rest) = Some m.
Proof.
  intros Hpre Hm. induction pre as [|c pre IH].
  - cbn [append]. rewrite search_unfold, Hm. reflexivity.
  - simpl in Hpre. apply andb_true_iff in Hpre. destruct Hpre as [Hc Hpre].
    cbn [append]. rewrite search_unfold, (match_here_dollar rx c _ Hc).
    apply IH. exact Hpre.
Qed.

(** the text of a match and the text after it make up the string *)
Lemma match_covers (rx : regex) (fuel : nat) :
  (forall s m, match_at rx fuel s = Some m -> s = group0 m ++ after m)
  /\ (forall s a rest, match_arg rx fuel s = Some (a, rest) ->
                       s = a ++ String "}" rest).
Proof.
  induction fuel as [|fuel [IHat IHarg]]; [split; intros; discriminate|].
  split.
  - intros s m H.
    destruct s as [|c0 s]; [discriminate|].
    destruct (Ascii.eqb c0 "$") eqn:E0;
      [apply Ascii.eqb_eq in E0; subst c0
      |destruct c0 as [[] [] [] [] [] [] [] []]; simpl in H; discriminate].
    destruct s as [|c1 s1]; [discriminate|].
    destruct (Ascii.eqb c1 "{") eqn:E1;
      [apply Ascii.eqb_eq in E1; subst c1
      |destruct c1 as [[] [] [] [] [] [] [] []]; simpl in H; discriminate].
    rewrite match_at_unfold in H.
    destruct (match_op rx s1) as [[op s2]|] eqn:Hop; [|discriminate].
    destruct (PyStr.span is_space s2) as [ws1 s3] eqn:Hws1.
    destruct s3 as [|c3 s4]; [discriminate|].
    destruct (Ascii.eqb c3 ":") eqn:E3;
      [apply Ascii.eqb_eq in E3; subst c3
      |destruct c3 as [[] [] [] [] [] [] [] []]; discriminate].
    destruct (PyStr.span is_space s4) as [ws2 s5] eqn:Hws2.
    destruct (match_arg rx fuel s5) as [[arg rest]|] eqn:Harg; [|discriminate].
    inversion H; subst m. cbn [group0 after].
    apply IHarg in Harg. subst s5.
    assert (Hspan : forall p t a b, PyStr.span p t = (a, b) -> t = a ++ b).
    { intros p t. induction t as [|c t IHt]; simpl; intros a b Hs.
      - inversion Hs. reflexivity.
      - destruct (p c).
        + destruct (PyStr.span p t) as [a' b'] eqn:Ht.
          inversion Hs; subst. simpl. rewrite (IHt a' b eq_refl). reflexivity.
        + inversion Hs. reflexivity. }
    apply Hspan in Hws1, Hws2. subst s2 s4.
    assert (Hs1 : s1 = op ++ ws1 ++ String ":" (ws2 ++ arg ++ String "}" rest)).
    { destruct rx; unfold match_op in Hop.
      - destruct (PyStr.span is_word s1) as [wd r] eqn:Hw.
        destruct (PyStr.is_empty wd); [discriminate|].
        inversion Hop; subst. apply Hspan in Hw. exact Hw.
      - destruct (PyStr.startswith "cfg" s1) eqn:Hsw; [|discriminate].
        injection Hop as Ho Hd. subst op. rewrite <- Hd.
        symmetry. apply (startswith_drop "cfg" s1 Hsw). }
    rewrite Hs1. cbn [append]. do 2 f_equal.
    rewrite !append_assoc. cbn [append]. rewrite !append_assoc. reflexivity.
  - intros s a rest H.
    destruct s as [|c r]; [discriminate|].
    cbn [match_arg] in H.
    destruct (Ascii.eqb c "}") eqn:Ec.
    + apply Ascii.eqb_eq in Ec. inversion H; subst. reflexivity.
    + destruct (Ascii.eqb c "{") eqn:Eo.
      * apply Ascii.eqb_eq in Eo. subst c.
        destruct (match_at rx fuel r) as [m|] eqn:Hm; [|discriminate].
        destruct (after m) as [|c2 r'] eqn:Hafter; [discriminate|].
        destruct (Ascii.eqb c2 "}") eqn:E2;
          [apply Ascii.eqb_eq in E2; subst c2
          |destruct c2 as [[] [] [] [] [] [] [] []]; discriminate].
        destruct (match_arg rx fuel r') as [[a' rest']|] eqn:Ha; [|discriminate].
        inversion H; subst.
        apply IHat in Hm. apply IHarg in Ha. rewrite Hm, Hafter, Ha.
        cbn [append]. f_equal. rewrite !append_assoc. reflexivity.
      * destruct (match_arg rx fuel r) as [[a' rest']|] eqn:Ha; [|discriminate].
        inversion H; subst. apply IHarg in Ha. rewrite Ha. reflexivity.
Qed.

(** the first match lies in the string, after some text *)
Lemma search_covers (rx : regex) (s : string) (m : rmatch) :
  search rx s = Some m -> exists pre, s = pre ++ group0 m ++ after m.
Proof.
  induction s as [|c r IH].
  - intro H. discriminate.
  - rewrite search_unfold.
    destruct (match_here rx (String c r)) as [m0|] eqn:E.
    + intro H. inversion H; subst. exists "".
      apply (proj1 (match_covers rx _) _ _ E).
    + intro H. destruct (IH H) as [pre Hpre].
      exists (String c pre). simpl. rewrite <- Hpre. reflexivity.
Qed.

(** ** The resolution loop *)

Section Loop.

Variable w : World.
Variable self : Self.

Lemma interpolate_while_step (fuel : nat) (obj : string) :
  interpolate_while w self (S fuel) obj =
  if _contains_expression self obj then
    e <- _get_expression self obj ;;
    let '(expr, op, arg) := e in
    interpolated_expr <- _interpolate w self fuel (VStr expr) ;;
    match interpolated_expr with
    | VStr r => interpolate_while w self fuel (PyStr.replace_first expr r obj)
    | _ => Raise TypeError
    end
  else Ok (VStr obj).
Proof. reflexivity. Qed.

Lemma interpolate_str_step (fuel : nat) (s : string) :
  _interpolate w self (S fuel) (VStr s) =
  if _is_entire_expression self s then
    e <- _get_expression self s ;;
    let '(expr, op, arg) := e in
    _interpolate_op w self expr op arg
  else if _contains_expression self s then interpolate_while w self fuel s
  else Ok (VStr s).
Proof. reflexivity. Qed.

End Loop.

(** a whole-string expression goes to the dispatcher with its groups *)
Lemma interpolate_plain (w : World) (self : Self) (fuel : nat) (op arg : string) :
  op_regex self = general_op_regex ->
  op <> "" -> PyStr.forallb is_word op = true ->
  PyStr.forallb no_brace arg = true -> starts_black arg = true ->
  _interpolate w self (S fuel) (VStr ("${" ++ op ++ ":" ++ arg ++ "}"))
  = _interpolate_op w self ("${" ++ op ++ ":" ++ arg ++ "}") op arg.
Proof.
  intros Hrx Hne Hop Harg Hblack.
  pose proof (match_plain op "" arg "" Hne Hop eq_refl Harg Hblack) as Hm.
  change ("${" ++ op ++ ":" ++ "" ++ arg ++ "}" ++ "")
    with ("${" ++ op ++ ":" ++ arg ++ "}") in Hm.
  change ("${" ++ op ++ ":" ++ "" ++ arg ++ "}")
    with ("${" ++ op ++ ":" ++ arg ++ "}") in Hm.
  rewrite interpolate_str_step.
  unfold _is_entire_expression, _get_expression, fullmatch. rewrite Hrx.
  change ("${" ++ op ++ ":" ++ arg ++ "}")
    with (String "$" (String "{" (op ++ ":" ++ arg ++ "}"))) in *.
  rewrite search_unfold, Hm. reflexivity.
Qed.

Lemma mapM_agree {A B : Type} (f g : A -> result B) (l : list A) :
  (forall a, f a <> OutOfFuel -> g a = f a) ->
  mapM f l <> OutOfFuel -> mapM g l = mapM f l.
Proof.
  intro Hfg. induction l as [|a t IH]; [reflexivity|].
  simpl. intro H.
  destruct (f a) as [b| | |] eqn:Hfa.
  - rewrite (Hfg a) by (rewrite Hfa; discriminate). rewrite Hfa. simpl in *.
    destruct (mapM f t) as [t'| | |] eqn:Hft.
    + rewrite IH by discriminate. reflexivity.
    + rewrite IH by discriminate. reflexivity.
    + exfalso. apply H. reflexivity.
    + rewrite IH by discriminate. reflexivity.
  - rewrite (Hfg a) by (rewrite Hfa; discriminate). rewrite Hfa. reflexivity.
  - exfalso. apply H. reflexivity.
  - rewrite (Hfg a) by (rewrite Hfa; discriminate). rewrite Hfa. reflexivity.
Qed.

Lemma bind_settled {A B : Type} (r : result A) (k : A -> result B) :
  bind r k <> OutOfFuel -> r <> OutOfFuel.
Proof. destruct r; simpl; congruence. Qed.

Section Fuel.

Variable w : World.
Variable self : Self.

Lemma interpolate_step (fuel : nat) (obj : value) :
  _interpolate w self (S fuel) obj =
  match obj with
  | VDict d => d' <- map_values (_interpolate w self fuel) d ;; Ok (VDict d')
  | VList l => l' <- mapM (_interpolate w self fuel) l ;; Ok (VList l')
  | VStr s =>
      if _is_entire_expression self s then
        e <- _get_expression self s ;;
        let '(expr, op, arg) := e in
        _interpolate_op w self expr op arg
      else if _contains_expression self s then interpolate_while w self fuel s
      else Ok obj
  | _ => Ok obj
  end.
Proof. reflexivity. Qed.

(** a call that has returned or raised with some fuel does the same
    with one unit more *)
Lemma fuel_step (fuel : nat) :
  (forall obj, _interpolate w self fuel obj <> OutOfFuel ->
               _interpolate w self (S fuel) obj = _interpolate w self fuel obj)
  /\ (forall s, interpolate_while w self fuel s <> OutOfFuel ->
                interpolate_while w self (S fuel) s = interpolate_while w self fuel s).
Proof.
  induction fuel as [|fuel [IHi IHw]].
  - split; intros x H; exfalso; apply H; reflexivity.
  - split.
    + intros obj H. rewrite (interpolate_step (S fuel)).
      rewrite interpolate_step in H |- *.
      destruct obj; try reflexivity.
      * destruct (_is_entire_expression self s); [reflexivity|].
        destruct (_contains_expression self s); [|reflexivity].
        apply IHw. exact H.
      * apply bind_settled in H.
        rewrite (mapM_agree _ _ l IHi H). reflexivity.
      * apply bind_settled in H. unfold map_values in *.
        rewrite (mapM_agree (fun kv => v' <- _interpolate w self fuel (snd kv) ;; Ok (fst kv, v'))
                   (fun kv => v' <- _interpolate w self (S fuel) (snd kv) ;; Ok (fst kv, v')) d);
          [reflexivity | | exact H].
        intros [k v] Hkv. simpl in *.
        rewrite IHi; [reflexivity|]. apply (bind_settled _ _ Hkv).
    + intros s H. rewrite (interpolate_while_step w self (S fuel)).
      rewrite interpolate_while_step in H |- *.
      destruct (_contains_expression self s); [|reflexivity].
      destruct (_get_expression self s) as [[[expr op] arg]| | |]; try reflexivity.
      cbn [bind] in H |- *.
      pose proof (bind_settled _ _ H) as Hinner.
      rewrite (IHi _ Hinner).
      destruct (_interpolate w self fuel (VStr expr)) as [r| | |]; try reflexivity.
      cbn [bind] in H |- *.
      destruct r; try reflexivity.
      apply IHw. exact H.
Qed.

(** the outcome of a call that has returned or raised is the same for
    every larger amount of fuel *)
Theorem fuel_monotone (fuel extra : nat) (obj : value) :
  _interpolate w self fuel obj <> OutOfFuel ->
  _interpolate w self (extra + fuel) obj = _interpolate w self fuel obj.
Proof.
  intro H. induction extra as [|extra IH]; [reflexivity|].
  cbn [Nat.add]. rewrite (proj1 (fuel_step (extra + fuel))); [exact IH|].
  rewrite IH. exact H.
Qed.

End Fuel.

(** ** Nesting of any depth *)






Lemma closers_snoc (d : nat) : closers (S d) = closers d ++ "}".
Proof.
  induction d as [|d IH]; [reflexivity|].
  simpl. f_equal. exact IH.
Qed.


Section NestedLoop.

Variable w : World.
Variable tree : value.






End NestedLoop.









(** the outer expression of the wrapped nest goes to the operator
    with the text of the inner one among its operands, and the call
    raises [TypeError]; so does the nest inside other text *)
Lemma wrapped_nest_is_evaluated_outer_first :
  forall (w : World) (tree : value) (n : nat),
    _is_entire_expression (phase2 tree) wrapped_nest = true
    /\ _get_expression (phase2 tree) ("x " ++ wrapped_nest ++ " y")
       = Ok (wrapped_nest, "add", "1, {${add: 2, 3}}")
    /\ operands "1, {${add: 2, 3}}" = ["1"; "{${add: 2"; "3}}"]
    /\ _interpolate w (phase2 tree) (1 + n) (VStr wrapped_nest) = Raise TypeError
    /\ _interpolate w (phase2 tree) (3 + n) (VStr ("x " ++ wrapped_nest ++ " y"))
       = Raise TypeError
    /\ resolve w (2 + n) (VDict [("v", VStr wrapped_nest)]) = Raise TypeError.
Proof.
  intros w tree n. repeat split; vm_compute; reflexivity.
Qed.

(** ** Unrecognised operators inside other text *)

Lemma expression_append (op arg post : string) :
  expression op arg ++ post = "${" ++ op ++ ":" ++ "" ++ arg ++ "}" ++ post.
Proof.
  unfold expression. cbn [append]. rewrite append_assoc.
  cbn [append]. rewrite append_assoc. reflexivity.
Qed.

Section Unrecognised.

Variable w : World.
Variable tree : value.
Variables pre op arg post : string.

Hypothesis Hpre : PyStr.forallb no_dollar pre = true.
Hypothesis Hne : op <> "".
Hypothesis Hop : PyStr.forallb is_word op = true.
Hypothesis Hun : unrecognised op = true.
Hypothesis Harg : PyStr.forallb no_brace arg = true.
Hypothesis Hblack : starts_black arg = true.
Hypothesis Htext : pre ++ post <> "".

Let expr := expression op arg.
Let text := pre ++ expr ++ post.

Lemma unrecognised_found :
  search general_op_regex text
  = Some {| group0 := expr; group_op := op; group_arg := arg; after := post |}.
Proof.
  pose proof (match_plain op "" arg post Hne Hop eq_refl Harg Hblack) as Hm.
  unfold text, expr. rewrite expression_append.
  apply search_after_text; [exact Hpre | exact Hm].
Qed.

Lemma unrecognised_not_entire :
  _is_entire_expression (phase2 tree) text = false.
Proof.
  unfold _is_entire_expression, fullmatch.
  change (op_regex (phase2 tree)) with general_op_regex.
  unfold text. destruct pre as [|c pre'].
  - cbn [append].
    pose proof (match_plain op "" arg post Hne Hop eq_refl Harg Hblack) as Hm.
    unfold expr. rewrite expression_append, Hm. cbn [after].
    destruct post; [exfalso; apply Htext; reflexivity | reflexivity].
  - simpl in Hpre. apply andb_true_iff in Hpre. destruct Hpre as [Hc _].
    cbn [append]. rewrite (match_here_dollar _ c _ Hc). reflexivity.
Qed.

(** the dispatcher returns the expression as its own text *)
Lemma unrecognised_passes (fuel : nat) :
  _interpolate w (phase2 tree) (S fuel) (VStr expr) = Ok (VStr expr).
Proof.
  unfold expr, expression.
  rewrite interpolate_plain by (reflexivity || assumption).
  pose proof Hun as H. unfold unrecognised in H.
  apply andb_true_iff in H. destruct H as [H Hh].
  apply andb_true_iff in H. destruct H as [H He].
  apply andb_true_iff in H. destruct H as [Hv Hc].
  apply negb_true_iff in Hv, Hc, He, Hh.
  unfold _interpolate_op. rewrite Hv, Hc, He, Hh. reflexivity.
Qed.

Lemma unrecognised_loop (fuel : nat) :
  interpolate_while w (phase2 tree) fuel text = OutOfFuel.
Proof.
  induction fuel as [|fuel IH]; [reflexivity|].
  rewrite interpolate_while_step.
  unfold _contains_expression, _get_expression.
  change (op_regex (phase2 tree)) with general_op_regex.
  rewrite unrecognised_found. cbn [bind group0 group_op group_arg].
  destruct fuel as [|fuel']; [reflexivity|].
  rewrite unrecognised_passes. cbn [bind].
  rewrite replace_first_same. exact IH.
Qed.

Lemma unrecognised_never_returns (fuel : nat) :
  _interpolate w (phase2 tree) fuel (VStr text) = OutOfFuel.
Proof.
  destruct fuel as [|fuel]; [reflexivity|].
  rewrite interpolate_str_step, unrecognised_not_entire.
  unfold _contains_expression.
  change (op_regex (phase2 tree)) with general_op_regex.
  rewrite unrecognised_found. apply unrecognised_loop.
Qed.

End Unrecognised.

(** C2.  The loop of [_interpolate] does not terminate on a string
    that embeds an expression with an unrecognised operator among
    other text: the dispatcher returns the expression as its own
    text, the replacement leaves the string as it was, and whatever
    the number of turns allowed the call has not returned.  This holds
    for every such expression with a plain argument that is the first
    one in the string. *)
Theorem C2_unrecognised_operator_in_text_never_returns :
  forall (w : World) (tree : value) (pre op arg post : string) (fuel : nat),
    PyStr.forallb no_dollar pre = true ->
    op <> "" -> PyStr.forallb is_word op = true ->
    unrecognised op = true ->
    PyStr.forallb no_brace arg = true -> starts_black arg = true ->
    pre ++ post <> "" ->
    _interpolate w (phase2 tree) fuel (VStr (pre ++ expression op arg ++ post))
    = OutOfFuel.
Proof.
  intros. apply unrecognised_never_returns; assumption.
Qed.

Lemma C2_witness :
  _interpolate empty_world (phase2 (VDict [])) 1000 (VStr "x ${foo:1} y")
  = OutOfFuel.
Proof.
  apply (C2_unrecognised_operator_in_text_never_returns
           empty_world (VDict []) "x " "foo" "1" " y" 1000);
    try reflexivity; discriminate.
Defined.

(** A name that the [operator] module has only as an attribute that
    every module object inherits, such as [__class__], is recognised:
    the expression goes to [_interpolate_math], with one operand it is
    replaced by the operand, and the loop returns. *)
Lemma inherited_attribute_is_recognised :
  forall (w : World) (tree : value) (n : nat),
    unrecognised "__class__" = false
    /\ _interpolate w (phase2 tree) (4 + n) (VStr "x ${__class__:1} y")
       = Ok (VStr "x 1 y").
Proof.
  intros w tree n. split; reflexivity.
Qed.

Lemma stuck_loop (w : World) (tree : value) (fuel : nat) :
  interpolate_while w (phase2 tree) fuel stuck_text = OutOfFuel.
Proof.
  induction fuel as [|fuel IH]; [reflexivity|].
  rewrite interpolate_while_step.
  change (_contains_expression (phase2 tree) stuck_text) with true.
  change (_get_expression (phase2 tree) stuck_text)
    with (@Ok (string * string * string) ("${foo:1}", "foo", "1")).
  cbn [bind].
  destruct fuel as [|fuel']; [reflexivity|].
  rewrite interpolate_str_step.
  change (_is_entire_expression (phase2 tree) "${foo:1}") with true.
  change (_get_expression (phase2 tree) "${foo:1}")
    with (@Ok (string * string * string) ("${foo:1}", "foo", "1")).
  cbn [bind].
  change (_interpolate_op w (phase2 tree) "${foo:1}" "foo" "1")
    with (@Ok value (VStr "${foo:1}")).
  cbn [bind].
  change (PyStr.replace_first "${foo:1}" "${foo:1}" stuck_text) with stuck_text.
  exact IH.
Qed.

(** on [x ${foo:1} y] the call has not returned, whatever the number
    of turns allowed *)
Lemma stuck_text_never_returns :
  forall (w : World) (tree : value) (fuel : nat),
    _interpolate w (phase2 tree) fuel (VStr stuck_text) = OutOfFuel.
Proof.
  intros w tree [|fuel]; [reflexivity|].
  rewrite interpolate_str_step.
  change (_is_entire_expression (phase2 tree) stuck_text) with false.
  change (_contains_expression (phase2 tree) stuck_text) with true.
  cbv iota.
  apply stuck_loop.
Qed.

(** ** Variable lookup *)

Section VarLookup.

Variable obj : string.

Lemma var_fold_raise (keys : list string) (e : exn) :
  fold_left (var_step obj) keys (Raise e) = Raise e.
Proof. induction keys as [|k r IH]; simpl; [reflexivity | exact IH]. Qed.

Lemma var_step_present (d : dict) (k : string) (y : value) :
  dict_get k d = Some y -> var_step obj (Ok (VDict d)) k = Ok y.
Proof.
  intro H. unfold var_step. simpl. unfold dict_mem. rewrite H. reflexivity.
Qed.

Lemma var_step_absent (d : dict) (k : string) :
  dict_get k d = None -> var_step obj (Ok (VDict d)) k = Raise (undefined obj).
Proof.
  intro H. unfold var_step. simpl. unfold dict_mem. rewrite H. reflexivity.
Qed.

Lemma var_fold_found (keys : list string) :
  forall v x, walk v keys = Some x -> fold_left (var_step obj) keys (Ok v) = Ok x.
Proof.
  induction keys as [|k rest IH]; cbn [fold_left walk]; intros v x H.
  - congruence.
  - destruct v; try discriminate.
    destruct (dict_get k d) as [y|] eqn:Hy; [|discriminate].
    rewrite (var_step_present d k y Hy).
    apply IH. exact H.
Qed.

Lemma var_fold_missing (pre post : list string) (k : string) :
  forall v d, walk v pre = Some (VDict d) -> dict_get k d = None ->
  fold_left (var_step obj) (pre ++ k :: post) (Ok v) = Raise (undefined obj).
Proof.
  intros v d Hw Hk.
  rewrite fold_left_app, (var_fold_found pre v _ Hw). cbn [fold_left].
  rewrite (var_step_absent d k Hk).
  apply var_fold_raise.
Qed.

End VarLookup.

Lemma interpolate_var_fold (self : Self) (obj : string) :
  _interpolate_var self obj
  = fold_left (var_step obj) (PyStr.split "." obj) (Ok (config self)).
Proof. reflexivity. Qed.

(** A [var] expression whose path has a segment that is absent from
    the mapping reached at that level fails with the "is not defined"
    [RuntimeError]; when every segment is present the value found at
    the end of the path is returned. *)
Lemma var_lookup_in_mappings :
  forall (w : World) (self : Self) (expr : string) (keys : list string),
    keys <> [] ->
    Forall (fun k => count "." k = 0%nat) keys ->
    (forall pre k post d,
        keys = (pre ++ k :: post)%list ->
        walk (config self) pre = Some (VDict d) ->
        dict_get k d = None ->
        _interpolate_op w self expr "var" (PyStr.join "." keys)
        = Raise (undefined (PyStr.join "." keys)))
    /\ (forall v,
           walk (config self) keys = Some v ->
           _interpolate_op w self expr "var" (PyStr.join "." keys) = Ok v).
Proof.
  intros w self expr keys Hne Hdots.
  assert (Hsplit : PyStr.split "." (PyStr.join "." keys) = keys)
    by (apply split_join; assumption).
  split.
  - intros pre k post d Hkeys Hw Hk.
    change (_interpolate_op w self expr "var" (PyStr.join "." keys))
      with (_interpolate_var self (PyStr.join "." keys)).
    rewrite interpolate_var_fold, Hsplit, Hkeys.
    apply (var_fold_missing _ pre post k _ d); assumption.
  - intros v Hw.
    change (_interpolate_op w self expr "var" (PyStr.join "." keys))
      with (_interpolate_var self (PyStr.join "." keys)).
    rewrite interpolate_var_fold, Hsplit.
    apply var_fold_found. exact Hw.
Qed.

Lemma var_lookup_in_mappings_examples :
  _interpolate_op empty_world (phase2 var_tree) "${var:a.x}" "var" "a.x"
    = Raise (undefined "a.x")
  /\ _interpolate_op empty_world (phase2 var_tree) "${var:a.b}" "var" "a.b"
    = Ok (VInt 1).
Proof. split; reflexivity. Qed.

(** C7.  A path with a segment that is absent does not always fail
    with the "is not defined" error.  The test of line 172,
    [key not in interpolated_variable], is made on whatever value the
    walk has reached: in the tree [{a: {b: 1}}] the path [a.b.c] has
    no segment [c], the walk has reached the number 1, and the test
    itself raises [TypeError]; so does the build of a document that
    holds [${var:a.b.c}].  The sibling case of a segment absent from a
    mapping, [a.x], raises the "is not defined" [RuntimeError]. *)
Theorem C7_absent_segment_after_a_leaf_raises_type_error :
  forall (w : World) (n : nat),
    walk leaf_tree ["a"; "b"] = Some (VInt 1)
    /\ walk leaf_tree ["a"; "b"; "c"] = None
    /\ _interpolate_var (phase2 leaf_tree) "a.b.c" = Raise TypeError
    /\ _interpolate w (phase2 leaf_tree) (1 + n) (VStr "${var:a.b.c}")
       = Raise TypeError
    /\ build leaf_world (3 + n) "conf" None false = Raise TypeError
    /\ _interpolate_var (phase2 leaf_tree) "a.x" = Raise (undefined "a.x").
Proof.
  intros w n.
  split; [reflexivity|]. split; [reflexivity|]. split; [reflexivity|].
  split; [reflexivity|]. split; [reflexivity|]. reflexivity.
Qed.

(** the examples of the specification, through [_interpolate] *)
Lemma var_examples :
  forall (w : World) (n : nat),
    resolve w (2 + n) (VDict [("a", VInt 1); ("b", VStr "${var:a}")])
      = Ok (VDict [("a", VInt 1); ("b", VInt 1)])
    /\ resolve w (2 + n) (VDict [("b", VStr "${var:missing}")])
      = Raise (undefined "missing").
Proof. intros w n. split; vm_compute; reflexivity. Qed.

(** X1.  A [var] expression that is the whole string yields the value
    stored under its path, as it stands in the tree *)
Lemma whole_string_var (w : World) (tree : value) (keys : list string)
  (v : value) (fuel : nat) :
  keys <> [] ->
  Forall (fun k => count "." k = 0%nat) keys ->
  PyStr.forallb no_brace (PyStr.join "." keys) = true ->
  starts_black (PyStr.join "." keys) = true ->
  walk tree keys = Some v ->
  _interpolate w (phase2 tree) (S fuel) (VStr (expression "var" (PyStr.join "." keys)))
  = Ok v.
Proof.
  intros Hne Hdots Hplain Hblack Hwalk.
  unfold expression.
  rewrite interpolate_plain by (reflexivity || assumption || discriminate).
  change (_interpolate_op w (phase2 tree) ("${" ++ "var" ++ ":" ++ PyStr.join "." keys ++ "}")
            "var" (PyStr.join "." keys))
    with (_interpolate_var (phase2 tree) (PyStr.join "." keys)).
  rewrite interpolate_var_fold, split_join by assumption.
  apply var_fold_found. exact Hwalk.
Qed.

(** ** Whole-string expressions are not scanned again *)

(** C1.  After the second pass a string of the tree can still hold a
    well-formed expression with a recognised operator: when a [var]
    expression is the whole string, the value it refers to is taken
    as it stands in the tree before the pass and is not scanned
    again.  Here [a] ends as the text of [b], while [b] itself is
    resolved to 3. *)
Theorem C1_whole_string_var_is_not_rescanned :
  forall n : nat,
    _interpolate alias_world (phase2 alias_tree) (2 + n) alias_tree
      = Ok (VDict [("a", VStr "${add: 1, 2}"); ("b", VStr "3")])
    /\ build alias_world (2 + n) "conf" None false
      = Ok (VDict [("a", VStr "${add: 1, 2}"); ("b", VInt 3)])
    /\ _contains_expression (phase2 alias_tree) "${add: 1, 2}" = true
    /\ Operator.hasattr "add" = true.
Proof.
  intro n. repeat split; vm_compute; reflexivity.
Qed.

(** the same reference inside other text is scanned again *)
Lemma embedded_var_is_rescanned :
  forall n : nat,
    _interpolate alias_world (phase2 alias_tree) (4 + n) (VStr "x ${var:b} y")
      = Ok (VStr "x 3 y").
Proof. intro n. vm_compute. reflexivity. Qed.

(** ** Environment lookup *)

(** [$name] for a bare name: its value, or the reference as written *)
Lemma expandvars_name (environ : list (string * string)) (name : string) :
  name <> "" -> PyStr.forallb OsPath.is_name_char name = true ->
  OsPath.expandvars environ ("$" ++ name)
  = match assoc name environ with
    | Some v => v
    | None => "$" ++ name
    end.
Proof.
  intros Hne Hname. unfold OsPath.expandvars.
  change ("$" ++ name) with (String "$" name).
  cbn [OsPath.expandvars_from String.length Ascii.eqb Bool.eqb].
  rewrite (span_all _ _ Hname).
  destruct name as [|c r]; [congruence|].
  cbn [PyStr.is_empty negb].
  destruct (assoc (String c r) environ) as [v|].
  - apply append_empty_r.
  - cbn [append]. rewrite append_empty_r. reflexivity.
Qed.

(** C8.  An [env] expression naming a variable returns the value the
    process environment gives it; when the variable is not defined it
    returns the reference [$NAME] as [os.path.expandvars] leaves it;
    and an environment lookup returns a string for every argument, it
    has no failing case. *)
Theorem C8_env_lookup :
  forall (w : World) (self : Self) (expr name : string),
    name <> "" ->
    PyStr.forallb OsPath.is_name_char name = true ->
    (forall v, assoc name (environ w) = Some v ->
               _interpolate_op w self expr "env" name = Ok (VStr v))
    /\ (assoc name (environ w) = None ->
        _interpolate_op w self expr "env" name = Ok (VStr ("$" ++ name)))
    /\ (forall arg, exists s, _interpolate_op w self expr "env" arg = Ok (VStr s)).
Proof.
  intros w self expr name Hne Hname.
  assert (H : _interpolate_op w self expr "env" name
              = Ok (VStr (match assoc name (environ w) with
                          | Some v => v
                          | None => "$" ++ name
                          end))).
  { change (_interpolate_op w self expr "env" name)
      with (Ok (VStr (OsPath.expandvars (environ w) ("$" ++ name)))).
    rewrite expandvars_name by assumption. reflexivity. }
  split; [|split].
  - intros v Hv. rewrite H, Hv. reflexivity.
  - intro Hv. rewrite H, Hv. reflexivity.
  - intro arg. eexists. reflexivity.
Qed.

Lemma C8_witness :
  _interpolate_op foo_world (phase2 (VDict [])) "${env:FOO}" "env" "FOO"
    = Ok (VStr "bar")
  /\ _interpolate_op foo_world (phase2 (VDict [])) "${env:HOME}" "env" "HOME"
    = Ok (VStr "$HOME").
Proof.
  split.
  - apply (C8_env_lookup foo_world (phase2 (VDict [])) "${env:FOO}" "FOO");
      [discriminate | reflexivity | reflexivity].
  - apply (C8_env_lookup foo_world (phase2 (VDict [])) "${env:HOME}" "HOME");
      [discriminate | reflexivity | reflexivity].
Defined.

(** the example of the specification, through [_interpolate]: whole
    strings and references inside other text *)
Lemma env_examples :
  forall (tree : value) (n : nat),
    _interpolate foo_world (phase2 tree) (1 + n) (VStr "${env:FOO}")
      = Ok (VStr "bar")
    /\ _interpolate foo_world (phase2 tree) (1 + n) (VStr "${env:NOPE}")
      = Ok (VStr "$NOPE")
    /\ _interpolate foo_world (phase2 tree) (4 + n) (VStr "<${env:FOO}|${env:NOPE}>")
      = Ok (VStr "<bar|$NOPE>").
Proof. intros tree n. repeat split; vm_compute; reflexivity. Qed.

(** an [env] expression that is the whole string yields the value of
    the variable, or the reference when the variable is not defined *)
Lemma whole_string_env (w : World) (tree : value) (name : string) (fuel : nat) :
  name <> "" -> PyStr.forallb OsPath.is_name_char name = true ->
  _interpolate w (phase2 tree) (S fuel) (VStr (expression "env" name))
  = Ok (VStr (match assoc name (environ w) with
              | Some v => v
              | None => "$" ++ name
              end)).
Proof.
  intros Hne Hname.
  assert (Hplain : PyStr.forallb no_brace name = true).
  { clear Hne. induction name as [|c r IH]; [reflexivity|].
    simpl in *. apply andb_true_iff in Hname. destruct Hname as [Hc Hr].
    rewrite (IH Hr), andb_true_r.
    destruct c as [[] [] [] [] [] [] [] []]; try reflexivity; discriminate. }
  assert (Hblack : starts_black name = true).
  { destruct name as [|c r]; [reflexivity|].
    simpl in *. apply andb_true_iff in Hname. destruct Hname as [Hc _].
    destruct c as [[] [] [] [] [] [] [] []]; try reflexivity; discriminate. }
  unfold expression.
  rewrite interpolate_plain by (reflexivity || assumption || discriminate).
  change (_interpolate_op w (phase2 tree) ("${" ++ "env" ++ ":" ++ name ++ "}") "env" name)
    with (Ok (VStr (OsPath.expandvars (environ w) ("$" ++ name)))).
  rewrite expandvars_name by assumption. reflexivity.
Qed.

(** ** Includes *)

Lemma dict_get_set (k k' : string) (v : value) (d : dict) :
  dict_get k (dict_set k' v d)
  = if String.eqb k k' then Some v else dict_get k d.
Proof.
  induction d as [|[k1 v1] t IH]; simpl.
  - reflexivity.
  - destruct (String.eqb k' k1) eqn:E1; simpl.
    + apply String.eqb_eq in E1. subst k1.
      destruct (String.eqb k k'); reflexivity.
    + destruct (String.eqb k k1) eqn:E2.
      * apply String.eqb_eq in E2. subst k1.
        rewrite String.eqb_sym, E1. reflexivity.
      * exact IH.
Qed.

Lemma dict_get_absent (k : string) (d : dict) :
  ~ In k (List.map fst d) -> dict_get k d = None.
Proof.
  induction d as [|[k1 v1] t IH]; simpl; [reflexivity|].
  intro H. destruct (String.eqb k k1) eqn:E.
  - apply String.eqb_eq in E. subst. exfalso. apply H. left. reflexivity.
  - apply IH. intro Hin. apply H. right. exact Hin.
Qed.

(** [d.update(other)]: the keys of [other] take its values, the other
    keys keep theirs *)
Lemma dict_get_update (k : string) (other : dict) :
  unique_keys other ->
  forall d,
    dict_get k (dict_update d other)
    = match dict_get k other with
      | Some v => Some v
      | None => dict_get k d
      end.
Proof.
  unfold dict_update, unique_keys.
  induction other as [|[k1 v1] t IH]; simpl; intros Hu d; [reflexivity|].
  inversion Hu as [|? ? Hnot Ht]; subst.
  rewrite (IH Ht). rewrite dict_get_set.
  destruct (String.eqb k k1) eqn:E.
  - apply String.eqb_eq in E. subst k1.
    rewrite (dict_get_absent _ _ Hnot). reflexivity.
  - reflexivity.
Qed.

Section Merge.

Variable w : World.

(** merging documents that are all mappings *)
Lemma merge_mappings (names : list string) (docs : list dict) :
  Forall2 (fun n d => _load_conf w n = Ok (VDict d)) names docs ->
  Forall unique_keys docs ->
  forall acc,
  exists merged,
    merge_configs w names acc = Ok (VDict merged)
    /\ forall k, dict_get k merged
                 = match last_binding k docs with
                   | Some v => Some v
                   | None => dict_get k acc
                   end.
Proof.
  induction 1 as [|n d names docs Hn Hrest IH]; intros Hu acc.
  - exists acc. split; reflexivity.
  - inversion Hu as [|? ? Hd Hdocs]; subst.
    destruct (IH Hdocs (dict_update acc d)) as (merged & Hm & Hk).
    exists merged. split.
    + simpl. rewrite Hn. simpl. exact Hm.
    + intro k. rewrite Hk. simpl.
      destruct (last_binding k docs); [reflexivity|].
      rewrite (dict_get_update k d Hd).
      destruct (dict_get k d); reflexivity.
Qed.


End Merge.


Lemma unique_keys_A : unique_keys doc_A.
Proof.
  unfold unique_keys. simpl.
  repeat constructor; simpl; intuition discriminate.
Qed.

Lemma unique_keys_B : unique_keys doc_B.
Proof.
  unfold unique_keys. simpl.
  repeat constructor; simpl; intuition discriminate.
Qed.


(** the example of the specification: [A = {x: 1, y: 1}] and
    [B = {y: 2, z: 2}] merge into [{x: 1, y: 2, z: 2}], in both
    passes; a value that is itself a mapping is replaced whole *)
Lemma cfg_examples :
  forall (tree : value) (n : nat),
    _interpolate merge_world (phase1 tree) (1 + n) (VStr "${cfg: A, B}")
      = Ok (VDict [("x", VInt 1); ("y", VInt 2); ("z", VInt 2)])
    /\ _interpolate merge_world (phase2 tree) (1 + n) (VStr "${cfg: A, B}")
      = Ok (VDict [("x", VInt 1); ("y", VInt 2); ("z", VInt 2)])
    /\ build merge_world (2 + n) "A" (Some ["B"]) false
      = Ok (VDict [("x", VInt 1); ("y", VInt 2); ("z", VInt 2)]).
Proof. intros tree n. repeat split; vm_compute; reflexivity. Qed.

(** ** The numeric pass *)

(** C9.  The conversion of a leaf is not total: [str.isdigit] holds for
    the superscript digits, which [int] does not accept, and that call
    is made outside the [try] block, so the conversion of such a leaf,
    and the pass over any tree that holds one, raises [ValueError]. *)
Theorem C9_conversion_raises_on_superscript_digit :
  PyStr.isdigit superscript_two = true
  /\ _maybe_convert_to_numeric (VStr superscript_two) = Raise ValueError
  /\ _apply_recursively _maybe_convert_to_numeric
       (VDict [("x", VList [VStr "1"; VStr superscript_two])])
     = Raise ValueError.
Proof. repeat split; vm_compute; reflexivity. Qed.

Section NumericPass.

Abbreviation pass := numeric_pass.

Lemma pass_list (l : list value) :
  pass (VList l) = (l' <- mapM pass l ;; Ok (VList l')).
Proof.
  unfold numeric_pass. simpl. f_equal.
  induction l as [|v t IH]; [reflexivity|].
  simpl. rewrite IH. reflexivity.
Qed.

Lemma pass_dict (d : dict) :
  pass (VDict d) = (d' <- map_values pass d ;; Ok (VDict d')).
Proof.
  unfold numeric_pass, map_values. simpl. f_equal.
  induction d as [|[k v] t IH]; [reflexivity|].
  simpl. rewrite IH.
  destruct (_apply_recursively _maybe_convert_to_numeric v); reflexivity.
Qed.

(** a converted leaf is a fixed point of the conversion *)
Lemma convert_leaf_stable (s : string) (v : value) :
  _maybe_convert_to_numeric (VStr s) = Ok v -> pass v = Ok v.
Proof.
  unfold _maybe_convert_to_numeric.
  destruct (PyStr.isdigit s) eqn:Hd.
  - destruct (PyStr.int_of_digits s); simpl; intro H; inversion H; reflexivity.
  - destruct (PyFloat.of_str s) as [num|] eqn:Hf.
    + destruct (PyFloat.is_integer num); intro H; inversion H; reflexivity.
    + intro H; inversion H; subst. unfold numeric_pass. simpl. rewrite Hd, Hf. reflexivity.
Qed.

Lemma mapM_stable {A : Type} (g : A -> result A) (l : list A) :
  Forall (fun x => forall x', g x = Ok x' -> g x' = Ok x') l ->
  forall l', mapM g l = Ok l' -> mapM g l' = Ok l'.
Proof.
  induction 1 as [|x t Hx Ht IH]; simpl; intros l' H.
  - inversion H. reflexivity.
  - destruct (g x) as [x'| | |] eqn:Hg; simpl in H; try discriminate.
    destruct (mapM g t) as [t'| | |] eqn:Hm; simpl in H; try discriminate.
    inversion H; subst. simpl.
    rewrite (Hx _ eq_refl). simpl. rewrite (IH _ eq_refl). reflexivity.
Qed.

(** X2.  The numeric pass is idempotent: when it returns a tree, a second
    pass returns that same tree. *)
Theorem numeric_pass_idempotent :
  forall t t' : value, pass t = Ok t' -> pass t' = Ok t'.
Proof.
  intro t. induction t as [| b | n | f | s | l IH | d IH] using value_tree_ind;
    intros t' H.
  - inversion H; reflexivity.
  - inversion H; reflexivity.
  - inversion H; reflexivity.
  - inversion H; reflexivity.
  - apply (convert_leaf_stable s). exact H.
  - rewrite pass_list in H.
    destruct (mapM pass l) as [l'| | |] eqn:Hm; simpl in H; try discriminate.
    inversion H; subst. rewrite pass_list.
    rewrite (mapM_stable pass l IH l' Hm). reflexivity.
  - rewrite pass_dict in H. unfold map_values in *.
    destruct (mapM _ d) as [d'| | |] eqn:Hm; simpl in H; try discriminate.
    inversion H; subst. rewrite pass_dict. unfold map_values.
    rewrite (mapM_stable _ d) with (l' := d'); [reflexivity| |exact Hm].
    eapply Forall_impl; [|exact IH].
    intros [k v] Hv [k' v'] Hkv. simpl in *.
    destruct (pass v) as [v1| | |] eqn:Hp; simpl in Hkv; try discriminate.
    inversion Hkv; subst. simpl. rewrite (Hv _ eq_refl). reflexivity.
Qed.

End NumericPass.

(** ** Arithmetic *)

(** C5.  [div] is not one of the names of the [operator] module, so
    the dispatcher does not treat it as arithmetic: the expression
    [${div: 6, 3}] is returned as its own text, and the numeric pass
    leaves that text in the tree. *)
Theorem C5_div_is_left_unresolved :
  forall (w : World) (tree : value) (n : nat),
    Operator.hasattr "div" = false
    /\ _interpolate_op w (phase2 tree) "${div: 6, 3}" "div" "6, 3"
       = Ok (VStr "${div: 6, 3}")
    /\ _interpolate w (phase2 tree) (1 + n) (VStr "${div: 6, 3}")
       = Ok (VStr "${div: 6, 3}")
    /\ resolve w (2 + n) (VDict [("q", VStr "${div: 6, 3}")])
       = Ok (VDict [("q", VStr "${div: 6, 3}")]).
Proof.
  intros w tree n. repeat split; vm_compute; reflexivity.
Qed.

(** the names [add], [sub], [mul], [pow] and [truediv] are dispatched
    as arithmetic *)
Lemma arithmetic_examples :
  forall (w : World) (n : nat),
    resolve w (2 + n)
      (VDict [("a", VStr "${add: 6, 3}"); ("s", VStr "${sub: 6, 3, 1}");
              ("m", VStr "${mul: 6, 3}"); ("p", VStr "${pow: 6, 3}");
              ("t", VStr "${truediv: 6, 3}"); ("f", VStr "${floordiv: 7, 2}")])
    = Ok (VDict [("a", VInt 9); ("s", VInt 2); ("m", VInt 18);
                 ("p", VInt 216); ("t", VInt 2); ("f", VInt 3)]).
Proof. intros w n. vm_compute. reflexivity. Qed.

Section Reduce.

Variable f : Operator.fn.

Lemma reduce_raise (l : list value) (e : exn) :
  fold_left (reduce_step f) l (Raise e) = Raise e.
Proof. induction l as [|b t IH]; simpl; [reflexivity | exact IH]. Qed.

Lemma reduce_cons (a : value) (t : list value) :
  Operator.reduce (Operator.call f) (a :: t) = fold_left (reduce_step f) t (Ok a).
Proof. reflexivity. Qed.

Lemma reduce_step_ok (x b : value) :
  reduce_step f (Ok x) b = Operator.call f x b.
Proof. reflexivity. Qed.

End Reduce.

Lemma interpolate_math_unfold (op args : string) :
  _interpolate_math op args
  = (l <- mapM numeric_pass (List.map VStr (operands args)) ;;
     match Operator.getattr op with
     | Some f =>
         r <- Operator.reduce (Operator.call f) l ;;
         t <- py_str r ;;
         Ok (VStr t)
     | None => Raise AttributeError
     end).
Proof.
  unfold _interpolate_math.
  change (_apply_recursively _maybe_convert_to_numeric
            (VList (List.map VStr (List.map PyStr.strip (PyStr.split "," args)))))
    with (numeric_pass (VList (List.map VStr (operands args)))).
  rewrite pass_list.
  destruct (mapM numeric_pass (List.map VStr (operands args))); reflexivity.
Qed.

(** the operand list of a comma-separated list of numerals *)
Lemma operands_numerals (ns : list Z) :
  ns <> [] -> Forall (fun n => 0 <= n) ns ->
  operands (PyStr.join "," (numerals ns)) = numerals ns.
Proof.
  intros Hne Hns. destruct (numerals_plain ns Hns) as [Hplain _].
  unfold operands. rewrite split_join.
  - induction Hplain as [|t ts [_ Ht] _ IH]; [reflexivity|].
    cbn [List.map]. rewrite (strip_digits t Ht), IH. reflexivity.
  - destruct ns; [congruence | discriminate].
  - eapply Forall_impl; [|exact Hplain].
    intros t [_ Ht]. apply (forallb_count PyStr.is_ascii_digit); [reflexivity | exact Ht].
Qed.

Lemma digit_isdigit (c : ascii) :
  PyStr.is_ascii_digit c = true -> PyStr.char_isdigit c = true.
Proof. unfold PyStr.char_isdigit. intros ->. reflexivity. Qed.

(** the numeric conversion of numerals gives the integers back *)
Lemma convert_numerals (ns : list Z) :
  Forall (fun n => 0 <= n) ns ->
  mapM numeric_pass (List.map VStr (numerals ns)) = Ok (List.map VInt ns).
Proof.
  induction 1 as [|n ns Hn Hns IH]; [reflexivity|].
  destruct (str_of_int_digits n Hn) as (Hne & Hdig & Hval).
  cbn [numerals List.map mapM]. fold (numerals ns). rewrite IH.
  change (numeric_pass (VStr (PyStr.str_of_int n)))
    with (_maybe_convert_to_numeric (VStr (PyStr.str_of_int n))).
  unfold _maybe_convert_to_numeric, PyStr.isdigit, PyStr.int_of_digits.
  rewrite (forallb_weaken _ _ _ digit_isdigit Hdig), Hdig, Hval.
  destruct (PyStr.str_of_int n); [congruence | reflexivity].
Qed.

(** [reduce] over integers is the left fold of the operation *)
Lemma reduce_ints (f : Operator.fn) (op : Z -> Z -> Z) (n : Z) (ns : list Z) :
  (forall x y, 0 <= y -> Operator.call f (VInt x) (VInt y) = Ok (VInt (op x y))) ->
  Forall (fun n => 0 <= n) ns ->
  Operator.reduce (Operator.call f) (List.map VInt (n :: ns))
  = Ok (VInt (fold_left op ns n)).
Proof.
  intros Hop Hns. cbn [List.map]. rewrite reduce_cons.
  revert n. induction Hns as [|y ns Hy Hns IH]; intro n; [reflexivity|].
  cbn [List.map fold_left]. rewrite reduce_step_ok, (Hop n y Hy). apply IH.
Qed.

(** For every comma-separated list of naturals, [add], [sub], [mul]
    and [pow] are folded from the left over the operands and the
    result is returned as its decimal text. *)
Theorem arithmetic_left_fold (n : Z) (ns : list Z) :
  0 <= n -> Forall (fun n => 0 <= n) ns ->
  let args := PyStr.join "," (numerals (n :: ns)) in
  _interpolate_math "add" args = Ok (VStr (PyStr.str_of_int (fold_left Z.add ns n)))
  /\ _interpolate_math "sub" args = Ok (VStr (PyStr.str_of_int (fold_left Z.sub ns n)))
  /\ _interpolate_math "mul" args = Ok (VStr (PyStr.str_of_int (fold_left Z.mul ns n)))
  /\ _interpolate_math "pow" args = Ok (VStr (PyStr.str_of_int (fold_left Z.pow ns n))).
Proof.
  intros Hn Hns args.
  assert (Hall : Forall (fun n => 0 <= n) (n :: ns)) by (constructor; assumption).
  assert (Hargs : mapM numeric_pass (List.map VStr (operands args))
                  = Ok (List.map VInt (n :: ns))).
  { unfold args. rewrite operands_numerals by (assumption || discriminate).
    apply convert_numerals. exact Hall. }
  repeat split; rewrite interpolate_math_unfold, Hargs; cbn [bind].
  - change (Operator.getattr "add") with (Some Operator.add). cbv iota.
    rewrite (reduce_ints Operator.add Z.add); [reflexivity | reflexivity | exact Hns].
  - change (Operator.getattr "sub") with (Some Operator.sub). cbv iota.
    rewrite (reduce_ints Operator.sub Z.sub); [reflexivity | reflexivity | exact Hns].
  - change (Operator.getattr "mul") with (Some Operator.mul). cbv iota.
    rewrite (reduce_ints Operator.mul Z.mul); [reflexivity | reflexivity | exact Hns].
  - change (Operator.getattr "pow") with (Some Operator.pow). cbv iota.
    rewrite (reduce_ints Operator.pow Z.pow); [reflexivity | | exact Hns].
    intros x y Hy. simpl. apply Z.leb_le in Hy. rewrite Hy. reflexivity.
Qed.

(** ** Operands that are not numbers *)

Lemma of_int_outcome (n : Z) :
  (exists y, PyFloat.of_int n = Ok y) \/ (exists e, PyFloat.of_int n = Raise e).
Proof. unfold PyFloat.of_int. destruct (PyFloat.nearest n 0); eauto. Qed.

Lemma int_truediv_outcome (a b : Z) :
  (exists y, PyFloat.int_truediv a b = Ok y)
  \/ (exists e, PyFloat.int_truediv a b = Raise e).
Proof.
  unfold PyFloat.int_truediv.
  destruct b; [eauto | |]; (destruct a; [eauto | |]);
    match goal with
    | |- context [PyFloat.of_ratio ?s ?n ?d] => destruct (PyFloat.of_ratio s n d); eauto
    end.
Qed.

Lemma truediv_outcome (x y : PyFloat.float) :
  (exists q, PyFloat.truediv x y = Ok q) \/ (exists e, PyFloat.truediv x y = Raise e).
Proof. unfold PyFloat.truediv. destruct (PyFloat.is_zero y); eauto. Qed.

(** [sub] and [truediv] return a number from two numbers, or raise *)
Lemma strict_outcome (f : Operator.fn) (x b : value) :
  f = Operator.sub \/ f = Operator.truediv ->
  (exists y, Operator.call f x b = Ok y
             /\ Operator.is_number x = true /\ Operator.is_number b = true)
  \/ (exists e, Operator.call f x b = Raise e).
Proof.
  intros [-> | ->]; destruct x, b; simpl; eauto;
    unfold Operator.float_arith, Operator.coerce; simpl;
    try (match goal with
         | |- context [PyFloat.of_int ?n] =>
             destruct (of_int_outcome n) as [[y ->]|[e ->]]; simpl
         end);
    try (match goal with
         | |- context [PyFloat.int_truediv ?a ?b] =>
             destruct (int_truediv_outcome a b) as [[y ->]|[e ->]]; simpl
         end);
    try (match goal with
         | |- context [PyFloat.truediv ?a ?b] =>
             destruct (truediv_outcome a b) as [[q ->]|[e ->]]; simpl
         end);
    eauto.
Qed.

(** [add] returns a value of the kind of its operands, which are of
    one kind, or raises *)
Lemma add_outcome (x b : value) :
  (exists y, Operator.call Operator.add x b = Ok y
             /\ same_kind x b = true /\ same_kind x y = true)
  \/ (exists e, Operator.call Operator.add x b = Raise e).
Proof.
  unfold same_kind.
  destruct x, b; simpl; eauto;
    unfold Operator.float_arith, Operator.coerce; simpl;
    try (match goal with
         | |- context [PyFloat.of_int ?n] =>
             destruct (of_int_outcome n) as [[y ->]|[e ->]]; simpl
         end);
    eauto.
Qed.

Lemma strict_fold_raises (f : Operator.fn) :
  f = Operator.sub \/ f = Operator.truediv ->
  forall (t : list value) (x : value),
    (Operator.is_number x = false /\ t <> [])
    \/ (exists v, In v t /\ Operator.is_number v = false) ->
    exists e, fold_left (reduce_step f) t (Ok x) = Raise e.
Proof.
  intros Hf t. induction t as [|b t IH]; intros x H.
  - destruct H as [[_ H]|(v & [] & _)]. congruence.
  - cbn [fold_left]. rewrite reduce_step_ok.
    destruct (strict_outcome f x b Hf) as [(y & Hy & Hx & Hb)|[e He]].
    + rewrite Hy. apply IH. right.
      destruct H as [[Hx' _]|(v & [<-|Hin] & Hv)]; try congruence.
      exists v. split; assumption.
    + rewrite He. exists e. apply reduce_raise.
Qed.

Lemma same_kind_trans (x y v : value) :
  same_kind x y = true -> same_kind x v = false -> same_kind y v = false.
Proof. unfold same_kind. destruct x, y, v; simpl; intros; congruence. Qed.

Lemma add_fold_raises (t : list value) :
  forall x : value,
    (exists v, In v t /\ same_kind x v = false) ->
    exists e, fold_left (reduce_step Operator.add) t (Ok x) = Raise e.
Proof.
  induction t as [|b t IH]; intros x (v & Hin & Hv); [destruct Hin|].
  cbn [fold_left]. rewrite reduce_step_ok.
  destruct (add_outcome x b) as [(y & Hy & Hxb & Hxy)|[e He]].
  - rewrite Hy. apply IH. destruct Hin as [<-|Hin]; [congruence|].
    exists v. split; [exact Hin|]. apply (same_kind_trans x); assumption.
  - rewrite He. exists e. apply reduce_raise.
Qed.

(** the conversion of the operands: an error, or the converted list *)
Lemma convert_operands (ops : list string) :
  (exists e, mapM numeric_pass (List.map VStr ops) = Raise e)
  \/ (exists l, mapM numeric_pass (List.map VStr ops) = Ok l
                /\ Forall2 (fun t v => _maybe_convert_to_numeric (VStr t) = Ok v) ops l).
Proof.
  induction ops as [|t ops IH]; simpl.
  - right. exists []. split; [reflexivity | constructor].
  - change (numeric_pass (VStr t)) with (_maybe_convert_to_numeric (VStr t)).
    assert (Hc : (exists v, _maybe_convert_to_numeric (VStr t) = Ok v)
                 \/ (exists e, _maybe_convert_to_numeric (VStr t) = Raise e)).
    { unfold _maybe_convert_to_numeric.
      destruct (PyStr.isdigit t).
      - unfold PyStr.int_of_digits. destruct (PyStr.forallb _ t); simpl; eauto.
      - destruct (PyFloat.of_str t) as [num|]; [|eauto].
        destruct (PyFloat.is_integer num); eauto. }
    destruct Hc as [[v Hv]|[e He]].
    + rewrite Hv. simpl. destruct IH as [[e ->]|(l & -> & Hl)]; simpl.
      * left. eauto.
      * right. exists (v :: l). split; [reflexivity|]. constructor; assumption.
    + rewrite He. simpl. left. eauto.
Qed.

Lemma converted_member (ops : list string) (l : list value) (t : string) :
  Forall2 (fun t v => _maybe_convert_to_numeric (VStr t) = Ok v) ops l ->
  In t ops ->
  exists v, In v l /\ _maybe_convert_to_numeric (VStr t) = Ok v.
Proof.
  induction 1 as [|t0 v0 ops l H0 Hrest IH]; intros Hin; [destruct Hin|].
  destruct Hin as [<-|Hin].
  - exists v0. split; [left; reflexivity | exact H0].
  - destruct (IH Hin) as (v & Hv & Hc). exists v. split; [right; exact Hv | exact Hc].
Qed.

(** the operands after conversion hold a value that is not a number *)
Lemma converted_non_number (ops : list string) (l : list value) :
  Forall2 (fun t v => _maybe_convert_to_numeric (VStr t) = Ok v) ops l ->
  (exists t, In t ops /\ coercible t = false) ->
  exists v, In v l /\ Operator.is_number v = false.
Proof.
  intros Hl (t & Hin & Hc).
  destruct (converted_member ops l t Hl Hin) as (v & Hv & Hconv).
  exists v. split; [exact Hv|].
  unfold coercible in Hc. rewrite Hconv in Hc.
  destruct v; try reflexivity; discriminate.
Qed.

Lemma converted_number (ops : list string) (l : list value) :
  Forall2 (fun t v => _maybe_convert_to_numeric (VStr t) = Ok v) ops l ->
  (exists t, In t ops /\ coercible t = true) ->
  exists v, In v l /\ Operator.is_number v = true.
Proof.
  intros Hl (t & Hin & Hc).
  destruct (converted_member ops l t Hl Hin) as (v & Hv & Hconv).
  exists v. split; [exact Hv|].
  unfold coercible in Hc. rewrite Hconv in Hc.
  destruct v; try reflexivity; discriminate.
Qed.

(** C4, as the code has it.  Operands are not checked for being
    numbers.  With [sub] and with [truediv], which have no meaning on
    strings, an operand list of two or more operands one of which is
    not coercible to a number fails with an error; with [add] it fails
    when the list holds both an operand that is coercible and one that
    is not. *)
Theorem C4_non_numeric_operand :
  forall args : string,
    (exists t, In t (operands args) /\ coercible t = false) ->
    ((2 <= List.length (operands args))%nat ->
     (exists e, _interpolate_math "sub" args = Raise e)
     /\ (exists e, _interpolate_math "truediv" args = Raise e))
    /\ ((exists t, In t (operands args) /\ coercible t = true) ->
        exists e, _interpolate_math "add" args = Raise e).
Proof.
  intros args Hnon.
  destruct (convert_operands (operands args)) as [[e He]|(l & Hl & Hconv)].
  - split; [intros _; split|intros _];
      rewrite interpolate_math_unfold, He; eexists; reflexivity.
  - pose proof (converted_non_number _ _ Hconv Hnon) as (v & Hv & Hvn).
    pose proof (Forall2_length Hconv) as Hlen.
    split.
    + intro H2.
      destruct l as [|a [|b t]]; try (simpl in Hlen; lia).
      assert (Hstrict : forall f, f = Operator.sub \/ f = Operator.truediv ->
                exists e, Operator.reduce (Operator.call f) (a :: b :: t) = Raise e).
      { intros f Hf. rewrite reduce_cons. apply (strict_fold_raises f Hf).
        destruct Hv as [<-|Hv].
        - left. split; [exact Hvn | discriminate].
        - right. exists v. split; assumption. }
      split; rewrite interpolate_math_unfold, Hl; cbn [bind].
      * destruct (Hstrict Operator.sub (or_introl eq_refl)) as [e He].
        change (Operator.getattr "sub") with (Some Operator.sub).
        cbv iota. rewrite He. eexists. reflexivity.
      * destruct (Hstrict Operator.truediv (or_intror eq_refl)) as [e He].
        change (Operator.getattr "truediv") with (Some Operator.truediv).
        cbv iota. rewrite He. eexists. reflexivity.
    + intro Hnum.
      pose proof (converted_number _ _ Hconv Hnum) as (u & Hu & Hun).
      rewrite interpolate_math_unfold, Hl. cbn [bind].
      change (Operator.getattr "add") with (Some Operator.add). cbv iota.
      destruct l as [|a t]; [destruct Hv|].
      assert (Hr : exists e, Operator.reduce (Operator.call Operator.add) (a :: t)
                             = Raise e).
      { rewrite reduce_cons. apply add_fold_raises.
        destruct (Operator.is_number a) eqn:Ha.
        - destruct Hv as [<-|Hv]; [congruence|].
          exists v. split; [exact Hv|].
          unfold same_kind. rewrite Ha, Hvn. destruct a; try discriminate; reflexivity.
        - destruct Hu as [<-|Hu]; [congruence|].
          exists u. split; [exact Hu|].
          unfold same_kind. rewrite Ha, Hun. destruct u; try discriminate.
          + simpl. apply andb_false_r.
          + simpl. apply andb_false_r. }
      destruct Hr as [e He]. rewrite He. eexists. reflexivity.
Qed.

Lemma C4_witness :
  (exists e, _interpolate_math "sub" "10, x" = Raise e)
  /\ (exists e, _interpolate_math "add" "1, x" = Raise e).
Proof.
  split.
  - destruct (C4_non_numeric_operand "10, x") as [H _].
    + exists "x". split; [right; left; reflexivity | reflexivity].
    + destruct H as [H _]; [|exact H].
      apply le_n.
  - destruct (C4_non_numeric_operand "1, x") as [_ H].
    + exists "x". split; [right; left; reflexivity | reflexivity].
    + apply H. exists "1". split; [left; reflexivity | reflexivity].
Defined.

(** C4, as the specification words it, does not hold: [foo] and
    [bar] are not coercible, yet [add] returns their concatenation *)
Lemma C4_counterexample :
  ~ (forall op args : string,
        Operator.hasattr op = true ->
        (exists t, In t (operands args) /\ coercible t = false) ->
        exists e, _interpolate_math op args = Raise e).
Proof.
  intro H.
  destruct (H "add" "foo, bar") as [e He].
  - reflexivity.
  - exists "foo". split; [left; reflexivity | reflexivity].
  - vm_compute in He. discriminate.
Qed.

Lemma non_numeric_operand_examples :
  _interpolate_math "add" "foo, bar" = Ok (VStr "foobar")
  /\ _interpolate_math "mul" "ab, 3" = Ok (VStr "ababab")
  /\ _interpolate_math "sub" "foo" = Ok (VStr "foo")
  /\ _interpolate_math "add" "1, x" = Raise TypeError
  /\ _interpolate_math "sub" "foo, bar" = Raise TypeError.
Proof. repeat split; vm_compute; reflexivity. Qed.

(** ** Overrides *)

(** a token with an [=] goes to the parameters, whatever comes before
    or after it in [args] *)
Lemma parse_args_keeps (w : World) (l : list string) :
  forall (c p : list arg),
  exists c' p',
    fold_left
      (fun acc a =>
         cp <- acc ;;
         let '(configs, parameters) := cp in
         match a with
         | Token t =>
             if PyStr.contains "=" t then Ok (configs, (parameters ++ [a])%list)
             else if PyStr.contains "--" t
                  then Ok (configs, (parameters ++ [Token (PyStr.drop 2 t ++ "=True")])%list)
                  else Ok ((configs ++ [a])%list, parameters)
         | Argv l =>
             if list_mem "=" l then Ok (configs, (parameters ++ [a])%list)
             else if list_mem "--" l then Raise TypeError
                  else Ok ((configs ++ [a])%list, parameters)
         end)
      (List.map Token l) (Ok (c, p)) = Ok (c', p')
    /\ (forall a, In a p -> In a p')
    /\ (forall t, In t l -> PyStr.contains "=" t = true -> In (Token t) p').
Proof.
  induction l as [|t l IH]; intros c p.
  - exists c, p. simpl. repeat split; auto. intros t [].
  - simpl. destruct (PyStr.contains "=" t) eqn:He.
    + destruct (IH c (p ++ [Token t])%list) as (c' & p' & Hf & Hp & Hl).
      exists c', p'. split; [exact Hf|]. split.
      * intros a Ha. apply Hp, in_or_app. left. exact Ha.
      * intros t' [<-|Hin] Ht'.
        -- apply Hp, in_or_app. right. left. reflexivity.
        -- apply Hl; assumption.
    + destruct (PyStr.contains "--" t).
      * destruct (IH c (p ++ [Token (PyStr.drop 2 t ++ "=True")])%list)
          as (c' & p' & Hf & Hp & Hl).
        exists c', p'. split; [exact Hf|]. split.
        -- intros a Ha. apply Hp, in_or_app. left. exact Ha.
        -- intros t' [<-|Hin] Ht'; [congruence | apply Hl; assumption].
      * destruct (IH (c ++ [Token t])%list p) as (c' & p' & Hf & Hp & Hl).
        exists c', p'. split; [exact Hf|]. split; [exact Hp|].
        intros t' [<-|Hin] Ht'; [congruence | apply Hl; assumption].
Qed.

(** unpacking [para.split("=")] into two names needs exactly one [=] *)
Lemma apply_parameter_ok (config config' : value) (t : string) :
  apply_parameter config (Token t) = Ok config' -> count "=" t = 1%nat.
Proof.
  unfold apply_parameter. intro H.
  pose proof (split_length "=" t) as Hl.
  destruct (PyStr.split "=" t) as [|a [|b [|c r]]]; try discriminate.
  simpl in Hl. lia.
Qed.

Lemma apply_parameter_raises (config : value) (t : string) :
  (2 <= count "=" t)%nat -> apply_parameter config (Token t) = Raise ValueError.
Proof.
  unfold apply_parameter. intro H.
  pose proof (split_length "=" t) as Hl.
  destruct (PyStr.split "=" t) as [|a [|b [|c r]]]; try reflexivity.
  simpl in Hl. lia.
Qed.

Lemma update_parameters_raise_stays (l : list arg) (e : exn) :
  fold_left (fun acc para => c <- acc ;; apply_parameter c para) l (Raise e)
  = Raise e.
Proof. induction l as [|a l IH]; simpl; [reflexivity | exact IH]. Qed.

Lemma set_path_dict (d : dict) (k k2 : string) (rest : list string) (v : string) :
  set_path (VDict d) (k :: k2 :: rest) v =
  (next' <- set_path (match dict_get k d with Some x => x | None => VDict [] end)
              (k2 :: rest) v ;;
   Ok (VDict (dict_set k next' d))).
Proof. reflexivity. Qed.

Lemma set_path_outcome (keys : list string) (v : string) :
  forall sub, (exists r, set_path sub keys v = Ok r)
              \/ (exists e, set_path sub keys v = Raise e).
Proof.
  induction keys as [|k rest IH]; intro sub.
  - right. eexists. reflexivity.
  - destruct rest as [|k2 rest'].
    + destruct sub; simpl; eauto.
    + destruct sub; try (right; eexists; reflexivity).
      rewrite set_path_dict.
      match goal with
      | |- context [set_path ?x (k2 :: rest') v] =>
          destruct (IH x) as [[r Hr]|[e He]]
      end.
      * rewrite Hr. simpl. eauto.
      * rewrite He. simpl. eauto.
Qed.

Lemma apply_parameter_outcome (config : value) (a : arg) :
  (exists r, apply_parameter config a = Ok r)
  \/ (exists e, apply_parameter config a = Raise e).
Proof.
  destruct a as [t|l]; simpl; [|eauto].
  destruct (PyStr.split "=" t) as [|x [|y [|z r]]]; eauto.
  apply set_path_outcome.
Qed.

(** one parameter that cannot be applied makes the whole update fail *)
Lemma update_parameters_raises (t : string) (l : list arg) :
  In (Token t) l -> (2 <= count "=" t)%nat ->
  forall config, exists e, _update_parameters config l = Raise e.
Proof.
  unfold _update_parameters.
  induction l as [|a l IH]; intros Hin Ht config; [destruct Hin|].
  simpl. destruct Hin as [->|Hin].
  - rewrite apply_parameter_raises by exact Ht.
    eexists. apply update_parameters_raise_stays.
  - destruct (apply_parameter_outcome config a) as [[r Hr]|[e He]].
    + rewrite Hr. apply IH; assumption.
    + rewrite He. eexists. apply update_parameters_raise_stays.
Qed.

(** C10.  A token with two or more [=] is classified as a key-value
    override by [_parse_args]; applying it raises [ValueError], which
    makes [_update_parameters], and so the build, fail without a tree;
    an override that is applied has exactly one [=]. *)
Theorem C10_override_needs_exactly_one_equals :
  forall (w : World) (args : list string) (t : string),
    In t args -> (2 <= count "=" t)%nat ->
    (exists configs parameters,
        _parse_args w (Some args) false = Ok (configs, parameters)
        /\ In (Token t) parameters
        /\ forall config, exists e, _update_parameters config parameters = Raise e)
    /\ (forall config, apply_parameter config (Token t) = Raise ValueError)
    /\ (forall fuel config tree, build w fuel config (Some args) false <> Ok tree)
    /\ (forall config config' t',
           apply_parameter config (Token t') = Ok config' -> count "=" t' = 1%nat).
Proof.
  intros w args t Hin Ht.
  destruct (parse_args_keeps w args [] []) as (c' & p' & Hf & _ & Hl).
  assert (Hp : In (Token t) p').
  { apply Hl; [exact Hin|]. apply (contains_char "="). lia. }
  assert (Hparse : _parse_args w (Some args) false = Ok (c', p')) by exact Hf.
  split; [|split; [|split]].
  - exists c', p'. split; [exact Hparse|]. split; [exact Hp|].
    intro config. apply (update_parameters_raises t); assumption.
  - intro config. apply apply_parameter_raises. exact Ht.
  - intros fuel config tree. unfold build. rewrite Hparse. cbn [bind].
    destruct (_update_config (Some config) c') as [c0| | |]; cbn [bind];
      try discriminate.
    destruct (_interpolate w _ fuel c0) as [c1| | |]; cbn [bind]; try discriminate.
    destruct (update_parameters_raises t p' Hp Ht c1) as [e He].
    rewrite He. discriminate.
  - intros config config' t'. apply apply_parameter_ok.
Qed.

Lemma C10_witness :
  (exists configs parameters,
      _parse_args empty_world (Some ["base"; "a.b=x=1"]) false = Ok (configs, parameters)
      /\ In (Token "a.b=x=1") parameters
      /\ forall config, exists e, _update_parameters config parameters = Raise e)
  /\ (forall config, apply_parameter config (Token "a.b=x=1") = Raise ValueError).
Proof.
  destruct (C10_override_needs_exactly_one_equals empty_world
              ["base"; "a.b=x=1"] "a.b=x=1") as (H1 & H2 & _).
  - simpl. right. left. reflexivity.
  - simpl. lia.
  - split; [exact H1 | exact H2].
Defined.

(** * Further properties *)

(** ** The numeric pass, continued *)

Lemma mapM_ok_inv {A B : Type} (f : A -> result B) (a : A) (t : list A) (l' : list B) :
  mapM f (a :: t) = Ok l' ->
  exists b t', f a = Ok b /\ mapM f t = Ok t' /\ l' = b :: t'.
Proof.
  simpl. destruct (f a) as [b| | |]; simpl; try discriminate.
  destruct (mapM f t) as [t'| | |]; simpl; try discriminate.
  intro H. inversion H. exists b, t'. repeat split.
Qed.

Lemma all_strings_list (p : string -> bool) (l : list value) :
  all_strings p (VList l) = List.forallb (all_strings p) l.
Proof.
  induction l as [|v t IH]; [reflexivity|].
  simpl in *. rewrite IH. reflexivity.
Qed.

Lemma all_strings_dict (p : string -> bool) (d : dict) :
  all_strings p (VDict d) = List.forallb (fun kv => all_strings p (snd kv)) d.
Proof.
  induction d as [|kv t IH]; [reflexivity|].
  simpl in *. rewrite IH. reflexivity.
Qed.

(** the conversion of a leaf fails only on a string of digits that are
    not all decimal *)
Lemma convert_leaf_outcome (s : string) :
  if decimal_or_text s
  then exists v, _maybe_convert_to_numeric (VStr s) = Ok v
  else _maybe_convert_to_numeric (VStr s) = Raise ValueError.
Proof.
  unfold decimal_or_text, _maybe_convert_to_numeric, PyStr.int_of_digits.
  destruct (PyStr.isdigit s); simpl.
  - destruct (PyStr.forallb PyStr.is_ascii_digit s); simpl; eauto.
  - destruct (PyFloat.of_str s) as [num|]; [|eauto].
    destruct (PyFloat.is_integer num); eauto.
Qed.

Lemma numeric_pass_cases (t : value) :
  if all_strings decimal_or_text t
  then exists t', numeric_pass t = Ok t'
  else numeric_pass t = Raise ValueError.
Proof.
  induction t as [| b | n | f | s | l IH | d IH] using value_tree_ind;
    try (simpl; eexists; reflexivity).
  - apply convert_leaf_outcome.
  - rewrite all_strings_list, pass_list.
    induction IH as [|x t Hx Ht IHt]; [simpl; eauto|].
    cbn [List.forallb mapM].
    destruct (all_strings decimal_or_text x).
    + destruct Hx as [x' Hx']. rewrite Hx'. cbn [bind andb].
      destruct (List.forallb (all_strings decimal_or_text) t).
      * destruct IHt as [t' Ht']. cbn [bind] in Ht'.
        destruct (mapM numeric_pass t) as [t2| | |]; try discriminate.
        cbn [bind]. eauto.
      * cbn [bind] in IHt.
        destruct (mapM numeric_pass t) as [t2| | |]; try discriminate.
        cbn [bind]. exact IHt.
    + rewrite Hx. reflexivity.
  - rewrite all_strings_dict, pass_dict. unfold map_values.
    induction IH as [|[k x] t Hx Ht IHt]; [simpl; eauto|].
    cbn [List.forallb mapM fst snd] in *.
    destruct (all_strings decimal_or_text x).
    + destruct Hx as [x' Hx']. rewrite Hx'. cbn [bind andb].
      destruct (List.forallb (fun kv => all_strings decimal_or_text (snd kv)) t).
      * destruct IHt as [t' Ht']. cbn [bind] in Ht'.
        destruct (mapM _ t) as [t2| | |]; try discriminate.
        cbn [bind]. eauto.
      * cbn [bind] in IHt.
        destruct (mapM _ t) as [t2| | |]; try discriminate.
        cbn [bind]. exact IHt.
    + rewrite Hx. reflexivity.
Qed.

(** X3.  The numeric pass returns a tree for every tree in which each
    string that [str.isdigit] accepts is made of the digits 0 to 9
    and, as CPython bounds the digits of an [int] read from text, has
    at most 4300 characters; on a tree that holds a string of digits
    that are not all decimal it raises [ValueError]. *)
Theorem numeric_pass_outcome (t : value) :
  (all_strings decimal_or_text t = true ->
   all_strings within_limit t = true ->
   exists t', numeric_pass t = Ok t')
  /\ (all_strings decimal_or_text t = false ->
      numeric_pass t = Raise ValueError).
Proof.
  pose proof (numeric_pass_cases t) as H.
  split; intro Hd; rewrite Hd in H; [intros _|]; exact H.
Qed.

Lemma numeric_pass_outcome_witness :
  (exists t', numeric_pass (VDict [("a", VStr "12"); ("b", VList [VStr "x"])]) = Ok t')
  /\ numeric_pass (VList [VStr superscript_two]) = Raise ValueError.
Proof.
  split.
  - apply (proj1 (numeric_pass_outcome
                    (VDict [("a", VStr "12"); ("b", VList [VStr "x"])])));
      reflexivity.
  - apply (proj2 (numeric_pass_outcome (VList [VStr superscript_two]))).
    reflexivity.
Defined.

Lemma numeric_pass_idempotent_witness :
  numeric_pass (VDict [("n", VInt 7); ("s", VStr "text")])
  = Ok (VDict [("n", VInt 7); ("s", VStr "text")]).
Proof.
  apply (numeric_pass_idempotent (VDict [("n", VStr "7"); ("s", VStr "text")])).
  reflexivity.
Defined.

Lemma convert_leaf_shape (v v' : value) :
  is_scalar v = true -> numeric_pass v = Ok v' -> shape v' = shape v.
Proof.
  unfold numeric_pass.
  destruct v; try discriminate; intros _; simpl;
    try (intro H; inversion H; reflexivity).
  destruct (PyStr.isdigit s).
  - destruct (PyStr.int_of_digits s); simpl; intro H; inversion H; reflexivity.
  - destruct (PyFloat.of_str s) as [num|].
    + destruct (PyFloat.is_integer num); intro H; inversion H; reflexivity.
    + intro H; inversion H; reflexivity.
Qed.

(** X4.  The numeric pass keeps the shape of the tree: the result has the
    same nesting of mappings and sequences, the same keys in the same
    order and the same number of items; only leaves change. *)
Theorem numeric_pass_keeps_shape :
  forall t t' : value, numeric_pass t = Ok t' -> shape t' = shape t.
Proof.
  intro t. induction t as [| b | n | f | s | l IH | d IH] using value_tree_ind;
    intros t' H;
    try (match type of H with
         | numeric_pass ?v = _ => exact (convert_leaf_shape v _ eq_refl H)
         end).
  - rewrite pass_list in H.
    destruct (mapM numeric_pass l) as [l'| | |] eqn:Hm; simpl in H; try discriminate.
    inversion H; subst t'. cbn [shape]. f_equal.
    clear H. revert l' Hm.
    induction IH as [|x t Hx Ht IHt]; intros l' Hm.
    + inversion Hm. reflexivity.
    + apply mapM_ok_inv in Hm. destruct Hm as (x' & t' & Hx' & Ht' & ->).
      cbn [List.map]. rewrite (Hx _ Hx'), (IHt _ Ht'). reflexivity.
  - rewrite pass_dict in H. unfold map_values in H.
    destruct (mapM _ d) as [d'| | |] eqn:Hm; simpl in H; try discriminate.
    inversion H; subst t'. cbn [shape]. f_equal.
    clear H. revert d' Hm.
    induction IH as [|[k x] t Hx Ht IHt]; intros d' Hm.
    + inversion Hm. reflexivity.
    + apply mapM_ok_inv in Hm. destruct Hm as ([k' x'] & t' & Hx' & Ht' & ->).
      cbn [fst snd] in *.
      destruct (numeric_pass x) as [x1| | |] eqn:Hp; simpl in Hx'; try discriminate.
      inversion Hx'; subst. cbn [List.map fst snd].
      rewrite (Hx _ eq_refl), (IHt _ Ht'). reflexivity.
Qed.

Lemma numeric_pass_keeps_shape_witness :
  shape (VDict [("a", VInt 1); ("l", VList [VFloat (PyFloat.nearest 5 (-1)); VStr "x"])])
  = shape (VDict [("a", VStr "1"); ("l", VList [VStr "2.5"; VStr "x"])]).
Proof.
  apply (numeric_pass_keeps_shape
           (VDict [("a", VStr "1"); ("l", VList [VStr "2.5"; VStr "x"])])).
  vm_compute. reflexivity.
Defined.

(** X5.  The decimal text of a natural number below the bound of 4300
    digits is converted back to that number: no digit is lost,
    whatever its size. *)
Theorem convert_numeral_round_trip (n : Z) :
  0 <= n -> n < 10 ^ Z.of_nat int_max_str_digits ->
  _maybe_convert_to_numeric (VStr (PyStr.str_of_int n)) = Ok (VInt n).
Proof.
  intros Hn _.
  destruct (str_of_int_digits n Hn) as (Hne & Hdig & Hval).
  unfold _maybe_convert_to_numeric, PyStr.isdigit, PyStr.int_of_digits.
  rewrite (forallb_weaken _ _ _ digit_isdigit Hdig), Hdig, Hval.
  destruct (PyStr.str_of_int n); [congruence | reflexivity].
Qed.

Lemma convert_numeral_round_trip_witness :
  _maybe_convert_to_numeric (VStr (PyStr.str_of_int 9007199254740993))
  = Ok (VInt 9007199254740993).
Proof.
  apply convert_numeral_round_trip; [lia | reflexivity].
Defined.

(** ** Overrides, continued *)

Lemma set_path_mapping (c : value) (keys : list string) (v : string) (c' : value) :
  set_path c keys v = Ok c' -> exists d, c = VDict d.
Proof.
  destruct keys as [|k [|k2 rest]]; [discriminate | |];
    destruct c; try discriminate; eauto.
Qed.

Lemma set_path_last (d : dict) (k v : string) :
  set_path (VDict d) [k] v = Ok (VDict (dict_set k (VStr v) d)).
Proof. reflexivity. Qed.

Lemma dict_get_set_same (k : string) (v : value) (d : dict) :
  dict_get k (dict_set k v d) = Some v.
Proof. rewrite dict_get_set, String.eqb_refl. reflexivity. Qed.

Lemma dict_get_set_other (k k' : string) (v : value) (d : dict) :
  k' <> k -> dict_get k' (dict_set k v d) = dict_get k' d.
Proof.
  intro H. rewrite dict_get_set.
  destruct (String.eqb k' k) eqn:E; [|reflexivity].
  apply String.eqb_eq in E. congruence.
Qed.

Lemma walk_cons (d : dict) (k : string) (rest : list string) :
  walk (VDict d) (k :: rest)
  = match dict_get k d with Some x => walk x rest | None => None end.
Proof. reflexivity. Qed.

(** the value written by [set_path] is found at the end of the path *)
Lemma set_path_lookup (keys : list string) (v : string) :
  forall c c', set_path c keys v = Ok c' -> walk c' keys = Some (VStr v).
Proof.
  induction keys as [|k rest IH]; intros c c' H; [discriminate|].
  destruct (set_path_mapping _ _ _ _ H) as [d ->].
  destruct rest as [|k2 rest'].
  - rewrite set_path_last in H. inversion H; subst c'.
    rewrite walk_cons, dict_get_set_same. reflexivity.
  - rewrite set_path_dict in H.
    destruct (set_path _ (k2 :: rest') v) as [next'| | |] eqn:Hn; try discriminate.
    cbn [bind] in H. inversion H; subst c'.
    rewrite walk_cons, dict_get_set_same. apply (IH _ _ Hn).
Qed.

(** a path that runs into a value that is not a mapping cannot be
    written *)
Lemma set_path_blocked (pre : list string) (k : string) (post : list string)
  (v : string) :
  forall c x, walk c pre = Some x -> is_mapping x = false ->
              set_path c (pre ++ k :: post) v = Raise TypeError.
Proof.
  induction pre as [|p pre' IH]; intros c x Hw Hx.
  - inversion Hw; subst x. cbn [app].
    destruct post; destruct c; try discriminate; reflexivity.
  - destruct c; try discriminate. rewrite walk_cons in Hw.
    destruct (dict_get p d) as [y|] eqn:Hy; [|discriminate].
    assert (Hcons : exists k2 rest, (pre' ++ k :: post)%list = k2 :: rest)
      by (destruct pre'; simpl; eauto).
    destruct Hcons as (k2 & rest & Hcons).
    cbn [app]. rewrite Hcons, set_path_dict, Hy, <- Hcons.
    rewrite (IH _ _ Hw Hx). reflexivity.
Qed.

(** a path on which every value met before the last segment is a
    mapping can be written *)
Lemma set_path_clear (keys : list string) (v : string) :
  keys <> [] ->
  forall c,
    (forall pre k post x,
        keys = (pre ++ k :: post)%list -> walk c pre = Some x -> is_mapping x = true) ->
    exists c', set_path c keys v = Ok c'.
Proof.
  induction keys as [|k rest IH]; intros Hne c H; [congruence|].
  assert (Hc : is_mapping c = true) by (apply (H [] k rest c); reflexivity).
  destruct c; try discriminate.
  destruct rest as [|k2 rest']; [rewrite set_path_last; eauto|].
  rewrite set_path_dict.
  destruct (IH ltac:(discriminate)
              (match dict_get k d with Some x => x | None => VDict [] end))
    as [next' Hn].
  - intros pre k' post x Hk Hw.
    destruct (dict_get k d) as [y|] eqn:Hy.
    + apply (H (k :: pre) k' post x); [rewrite Hk; reflexivity|].
      rewrite walk_cons, Hy. exact Hw.
    + destruct pre as [|p pre']; [inversion Hw; reflexivity | discriminate].
  - rewrite Hn. cbn [bind]. eauto.
Qed.

Lemma update_parameters_snoc (c : value) (params : list arg) (a : arg) :
  _update_parameters c (params ++ [a])
  = (c1 <- _update_parameters c params ;; apply_parameter c1 a).
Proof. unfold _update_parameters. rewrite fold_left_app. reflexivity. Qed.

Lemma apply_parameter_split (c : value) (t key_path v : string) :
  PyStr.split "=" t = [key_path; v] ->
  apply_parameter c (Token t) = set_path c (PyStr.split "." key_path) v.
Proof. intro H. unfold apply_parameter. rewrite H. reflexivity. Qed.

(** X6.  An override [key_path=v] that is applied can be read back: after
    the update the tree holds the text [v] at [key_path], whatever was
    there and whatever the overrides before it did, so the last
    override of a path wins.  The value is stored as text. *)
Theorem override_is_read_back :
  forall (c c' : value) (params : list arg) (t key_path v : string),
    PyStr.split "=" t = [key_path; v] ->
    _update_parameters c (params ++ [Token t]) = Ok c' ->
    walk c' (PyStr.split "." key_path) = Some (VStr v).
Proof.
  intros c c' params t key_path v Hs H.
  rewrite update_parameters_snoc in H.
  destruct (_update_parameters c params) as [c1| | |]; try discriminate.
  cbn [bind] in H. rewrite (apply_parameter_split _ _ _ _ Hs) in H.
  apply (set_path_lookup _ _ _ _ H).
Qed.

Lemma override_is_read_back_witness :
  walk (VDict [("a", VDict [("b", VStr "2"); ("c", VInt 0)])]) ["a"; "b"]
  = Some (VStr "2").
Proof.
  apply (override_is_read_back
           (VDict [("a", VDict [("b", VInt 0); ("c", VInt 0)])])
           (VDict [("a", VDict [("b", VStr "2"); ("c", VInt 0)])])
           [Token "a.b=1"] "a.b=2" "a.b" "2"); reflexivity.
Defined.

(** *** Overrides written in place *)

Section Store.
Import InPlace.
Local Open Scope nat_scope.

Lemma cell_lt (h : heap) (a : nat) (d : hdict) :
  cell h a = Some d -> a < length h.
Proof.
  intro H. apply nth_error_Some. unfold cell in H. congruence.
Qed.

Lemma length_store (h : heap) : forall a d, length (store h a d) = length h.
Proof.
  induction h as [|c t IH]; intros a d; [reflexivity|].
  destruct a; cbn [store length]; [reflexivity | rewrite IH; reflexivity].
Qed.

Lemma cell_store_same (h : heap) :
  forall a d, a < length h -> cell (store h a d) a = Some d.
Proof.
  induction h as [|c t IH]; intros a d H; [inversion H|].
  destruct a; [reflexivity|].
  cbn [store]. unfold cell. cbn [nth_error]. apply IH.
  cbn [length] in H. lia.
Qed.

Lemma cell_store_other (h : heap) :
  forall a b d, b <> a -> cell (store h a d) b = cell h b.
Proof.
  induction h as [|c t IH]; intros a b d H; [reflexivity|].
  destruct a, b; try reflexivity; [congruence|].
  cbn [store]. unfold cell. cbn [nth_error]. apply IH. congruence.
Qed.

Lemma cell_alloc_old (h : heap) (b : nat) :
  b < length h -> cell (h ++ [[]])%list b = cell h b.
Proof. intro H. unfold cell. apply nth_error_app1. exact H. Qed.

Lemma cell_alloc_new (h : heap) : cell (h ++ [[]])%list (length h) = Some [].
Proof.
  unfold cell. rewrite nth_error_app2 by lia. rewrite Nat.sub_diag. reflexivity.
Qed.

Lemma hd_get_set (k k' : string) (v : hval) (d : hdict) :
  hd_get k' (hd_set k v d) = if String.eqb k' k then Some v else hd_get k' d.
Proof.
  induction d as [|[k0 v0] t IH]; cbn [hd_set hd_get].
  - reflexivity.
  - destruct (String.eqb k k0) eqn:E; cbn [hd_get].
    + apply String.eqb_eq in E. subst k0.
      destruct (String.eqb k' k); reflexivity.
    + destruct (String.eqb k' k0) eqn:E0; [|exact IH].
      apply String.eqb_eq in E0. subst k0.
      rewrite String.eqb_sym, E. reflexivity.
Qed.

Lemma hd_get_set_same (k : string) (v : hval) (d : hdict) :
  hd_get k (hd_set k v d) = Some v.
Proof. rewrite hd_get_set, String.eqb_refl. reflexivity. Qed.

Lemma hd_get_set_other (k k' : string) (v : hval) (d : hdict) :
  k' <> k -> hd_get k' (hd_set k v d) = hd_get k' d.
Proof.
  intro H. rewrite hd_get_set.
  destruct (String.eqb k' k) eqn:E; [|reflexivity].
  apply String.eqb_eq in E. congruence.
Qed.

Lemma in_place_walk_key (h : heap) (a : nat) (d : hdict) (k : string)
  (q : list seg) :
  cell h a = Some d ->
  InPlace.walk h (HRef a) (Key k :: q)
  = match hd_get k d with Some y => InPlace.walk h y q | None => None end.
Proof. intro H. cbn [InPlace.walk]. rewrite H. reflexivity. Qed.

(** a walk sees only the mappings that it can reach *)
Lemma in_place_walk_unchanged (h h' : heap) :
  forall q z,
    (forall p b, InPlace.walk h z p = Some (HRef b) -> cell h' b = cell h b) ->
    InPlace.walk h' z q = InPlace.walk h z q.
Proof.
  induction q as [|s q IH]; intros z H; [reflexivity|].
  destruct s as [k|i].
  - destruct z; try reflexivity.
    cbn [InPlace.walk]. rewrite (H [] a eq_refl).
    destruct (cell h a) as [d|] eqn:Hc; [|reflexivity].
    destruct (hd_get k d) as [y|] eqn:Hy; [|reflexivity].
    apply IH. intros p b Hp. apply (H (Key k :: p) b).
    rewrite (in_place_walk_key _ _ _ _ _ Hc), Hy. exact Hp.
  - destruct z; try reflexivity.
    cbn [InPlace.walk]. destruct (nth_error l i) as [y|] eqn:Hy; [|reflexivity].
    apply IH. intros p b Hp. apply (H (Index i :: p) b).
    cbn [InPlace.walk]. rewrite Hy. exact Hp.
Qed.

Lemma unshared_item (h : heap) (a : nat) (d : hdict) (k : string) (y : hval) :
  cell h a = Some d -> hd_get k d = Some y ->
  unshared h (HRef a) -> unshared h y.
Proof.
  intros Hc Hy H p q b Hp Hq.
  assert (E : Key k :: p = Key k :: q)
    by (apply (H _ _ b); rewrite (in_place_walk_key _ _ _ _ _ Hc), Hy; assumption).
  congruence.
Qed.

Lemma closed_item (h : heap) (a : nat) (d : hdict) (k : string) (y : hval) :
  cell h a = Some d -> hd_get k d = Some y ->
  closed h (HRef a) -> closed h y.
Proof.
  intros Hc Hy H p b Hp. apply (H (Key k :: p)).
  rewrite (in_place_walk_key _ _ _ _ _ Hc), Hy. exact Hp.
Qed.

(** a mapping is not below one of its own items *)
Lemma item_below (h : heap) (a : nat) (d : hdict) (k : string) (y : hval) :
  cell h a = Some d -> hd_get k d = Some y -> unshared h (HRef a) ->
  forall p, InPlace.walk h y p <> Some (HRef a).
Proof.
  intros Hc Hy H p Hp.
  assert (E : [] = Key k :: p)
    by (apply (H _ _ a); [reflexivity|];
        rewrite (in_place_walk_key _ _ _ _ _ Hc), Hy; assumption).
  discriminate.
Qed.

(** the items under two keys of a mapping have no mapping in common *)
Lemma items_apart (h : heap) (a : nat) (d : hdict) (k k' : string)
  (y z : hval) :
  cell h a = Some d -> hd_get k d = Some y -> hd_get k' d = Some z ->
  k' <> k -> unshared h (HRef a) ->
  forall p q b, InPlace.walk h z p = Some (HRef b) ->
                InPlace.walk h y q <> Some (HRef b).
Proof.
  intros Hc Hy Hz Hne H p q b Hp Hq.
  assert (E : Key k' :: p = Key k :: q)
    by (apply (H _ _ b); rewrite (in_place_walk_key _ _ _ _ _ Hc);
        [rewrite Hz | rewrite Hy]; assumption).
  congruence.
Qed.

(** nothing lies below a mapping that is empty *)
Lemma in_place_walk_empty (h : heap) (a : nat) (p : list seg) (w : hval) :
  cell h a = Some [] -> InPlace.walk h (HRef a) p = Some w -> p = [].
Proof.
  intros Hc H. destruct p as [|[k|i] p]; [reflexivity | |discriminate].
  rewrite (in_place_walk_key _ _ _ _ _ Hc) in H. discriminate.
Qed.

Lemma in_place_set_path_unfold (h : heap) (x : hval) (key k2 : string)
  (rest : list string) (v : string) :
  InPlace.set_path h x (key :: k2 :: rest) v
  = (present <- InPlace.py_in h key x ;;
     h1 <- (if present then Ok h
            else let (a, h0) := alloc h in
                 InPlace.py_setitem h0 x key (HRef a)) ;;
     next <- InPlace.py_getitem h1 x key ;;
     InPlace.set_path h1 next (k2 :: rest) v).
Proof. reflexivity. Qed.

(** what is written into is a mapping *)
Lemma in_place_set_path_mapping (h : heap) (x : hval) (key : string)
  (rest : list string) (v : string) (h' : heap) :
  InPlace.set_path h x (key :: rest) v = Ok h' ->
  exists a d, x = HRef a /\ cell h a = Some d.
Proof.
  destruct rest as [|k2 rest].
  - cbn [InPlace.set_path]. unfold InPlace.py_setitem.
    destruct x; try discriminate.
    destruct (cell h a) as [d|] eqn:Hc; [eauto | discriminate].
  - rewrite in_place_set_path_unfold.
    destruct x; try discriminate.
    + unfold InPlace.py_in. cbn [bind].
      destruct (PyStr.contains key s); cbn [bind]; discriminate.
    + unfold InPlace.py_in. cbn [bind].
      destruct (existsb _ l); cbn [bind]; discriminate.
    + unfold InPlace.py_in.
      destruct (cell h a) as [d|] eqn:Hc; [eauto | discriminate].
Qed.

Lemma in_place_set_path_last (h : heap) (a : nat) (d : hdict) (key v : string) :
  cell h a = Some d ->
  InPlace.set_path h (HRef a) [key] v = Ok (store h a (hd_set key (HStr v) d)).
Proof.
  intro Hc. cbn [InPlace.set_path]. unfold InPlace.py_setitem.
  rewrite Hc. reflexivity.
Qed.

(** one turn of the walk: an item that is present is entered, for one
    that is missing a new mapping is stored and entered *)
Lemma in_place_set_path_step (h : heap) (a : nat) (d : hdict) (key k2 : string)
  (rest : list string) (v : string) :
  cell h a = Some d ->
  InPlace.set_path h (HRef a) (key :: k2 :: rest) v
  = match hd_get key d with
    | Some y => InPlace.set_path h y (k2 :: rest) v
    | None =>
        InPlace.set_path
          (store (h ++ [[]])%list a (hd_set key (HRef (length h)) d))
          (HRef (length h)) (k2 :: rest) v
    end.
Proof.
  intro Hc. pose proof (cell_lt _ _ _ Hc) as Hlt.
  rewrite in_place_set_path_unfold.
  unfold InPlace.py_in. rewrite Hc. cbn [bind]. unfold hd_mem.
  destruct (hd_get key d) as [y|] eqn:Hy; cbn [bind].
  - unfold InPlace.py_getitem. rewrite Hc, Hy. reflexivity.
  - unfold alloc, InPlace.py_setitem.
    rewrite (cell_alloc_old _ _ Hlt), Hc. cbn [bind].
    unfold InPlace.py_getitem.
    rewrite cell_store_same by (rewrite length_app; cbn [length]; lia).
    rewrite hd_get_set_same. reflexivity.
Qed.

(** The write of [set_path] below a value that shares no mapping:
    the walks that part ways with the key path find what they found
    before, the mappings they reach are as they were, and so is every
    mapping of the store that is not below the value. *)
Lemma in_place_set_path_frame (keys : list string) (v : string) :
  forall h x h',
    unshared h x -> closed h x ->
    InPlace.set_path h x keys v = Ok h' ->
    (forall q, departs keys q -> InPlace.walk h' x q = InPlace.walk h x q)
    /\ (forall q b, departs keys q -> InPlace.walk h x q = Some (HRef b) ->
                    cell h' b = cell h b)
    /\ (forall b, b < length h ->
                  (forall p, InPlace.walk h x p <> Some (HRef b)) ->
                  cell h' b = cell h b)
    /\ length h <= length h'.
Proof.
  induction keys as [|key rest IH]; intros h x h' Hu Hcl H; [discriminate|].
  destruct (in_place_set_path_mapping _ _ _ _ _ _ H) as (a & d & -> & Hc).
  pose proof (cell_lt _ _ _ Hc) as Hlt.
  (* it is enough to know the mapping written into and that what lies
     below its other items is as before *)
  assert (Hgoal :
    forall d',
      cell h' a = Some d' ->
      (forall k', k' <> key -> hd_get k' d' = hd_get k' d) ->
      (forall k' z p b, k' <> key -> hd_get k' d = Some z ->
                        InPlace.walk h z p = Some (HRef b) -> cell h' b = cell h b) ->
      (forall q', departs rest q' ->
                  match hd_get key d' with
                  | Some y' => InPlace.walk h' y' q'
                  | None => None
                  end
                  = match hd_get key d with
                    | Some y => InPlace.walk h y q'
                    | None => None
                    end) ->
      (forall q' b y, departs rest q' -> hd_get key d = Some y ->
                      InPlace.walk h y q' = Some (HRef b) -> cell h' b = cell h b) ->
      (forall q, departs (key :: rest) q ->
                 InPlace.walk h' (HRef a) q = InPlace.walk h (HRef a) q)
      /\ (forall q b, departs (key :: rest) q ->
                      InPlace.walk h (HRef a) q = Some (HRef b) ->
                      cell h' b = cell h b)).
  { intros d' Hc' Hother Hsib Hsame Hsame2. split.
    - intros q Hd. destruct q as [|s q']; [destruct Hd|].
      cbn [departs] in Hd. destruct Hd as [Hne|[-> Hd]].
      + destruct s as [k'|i]; [|reflexivity].
        assert (Hk : k' <> key) by congruence.
        rewrite (in_place_walk_key _ _ _ _ _ Hc'), (in_place_walk_key _ _ _ _ _ Hc).
        rewrite (Hother _ Hk).
        destruct (hd_get k' d) as [z|] eqn:Hz; [|reflexivity].
        apply in_place_walk_unchanged. intros p b Hp.
        apply (Hsib k' z p b Hk Hz Hp).
      + rewrite (in_place_walk_key _ _ _ _ _ Hc'), (in_place_walk_key _ _ _ _ _ Hc).
        apply (Hsame _ Hd).
    - intros q b Hd Hq. destruct q as [|s q']; [destruct Hd|].
      cbn [departs] in Hd. destruct Hd as [Hne|[-> Hd]].
      + destruct s as [k'|i]; [|discriminate].
        assert (Hk : k' <> key) by congruence.
        rewrite (in_place_walk_key _ _ _ _ _ Hc) in Hq.
        destruct (hd_get k' d) as [z|] eqn:Hz; [|discriminate].
        apply (Hsib k' z q' b Hk Hz Hq).
      + rewrite (in_place_walk_key _ _ _ _ _ Hc) in Hq.
        destruct (hd_get key d) as [y|] eqn:Hy; [|discriminate].
        apply (Hsame2 q' b y Hd eq_refl Hq). }
  assert (Hroot : forall b, (forall p, InPlace.walk h (HRef a) p <> Some (HRef b)) ->
                            b <> a).
  { intros b Hb E. subst b. apply (Hb []). reflexivity. }
  destruct rest as [|k2 rest'].
  - (* the assignment at the last key *)
    rewrite (in_place_set_path_last _ _ _ _ _ Hc) in H. inversion H; subst h'.
    assert (Hsib : forall k' z p b, k' <> key -> hd_get k' d = Some z ->
                     InPlace.walk h z p = Some (HRef b) ->
                     cell (store h a (hd_set key (HStr v) d)) b = cell h b).
    { intros k' z p b Hk Hz Hp. apply cell_store_other.
      intro E. subst b. apply (item_below _ _ _ _ _ Hc Hz Hu p Hp). }
    destruct (Hgoal (hd_set key (HStr v) d)) as [Ha Ha2].
    + apply cell_store_same. exact Hlt.
    + intros k' Hk. apply hd_get_set_other. exact Hk.
    + exact Hsib.
    + intros q' [].
    + intros q' b y [].
    + split; [exact Ha|]. split; [exact Ha2|]. split.
      * intros b _ Hb. apply cell_store_other. apply (Hroot _ Hb).
      * rewrite length_store. lia.
  - rewrite (in_place_set_path_step _ _ _ _ _ _ _ Hc) in H.
    destruct (hd_get key d) as [y|] eqn:Hy.
    + (* the item is present *)
      destruct (IH h y h' (unshared_item _ _ _ _ _ Hc Hy Hu)
                  (closed_item _ _ _ _ _ Hc Hy Hcl) H)
        as (Ia & Ia2 & Ib & Il).
      assert (Hsib : forall k' z p b, k' <> key -> hd_get k' d = Some z ->
                       InPlace.walk h z p = Some (HRef b) -> cell h' b = cell h b).
      { intros k' z p b Hk Hz Hp. apply Ib.
        - apply (Hcl (Key k' :: p)).
          rewrite (in_place_walk_key _ _ _ _ _ Hc), Hz. exact Hp.
        - intro q. apply (items_apart _ _ _ _ _ _ _ Hc Hy Hz Hk Hu p q b Hp). }
      destruct (Hgoal d) as [Ha Ha2].
      * rewrite <- Hc. apply Ib; [exact Hlt|].
        apply (item_below _ _ _ _ _ Hc Hy Hu).
      * reflexivity.
      * exact Hsib.
      * intros q' Hd. rewrite Hy. apply (Ia _ Hd).
      * intros q' b y' Hd Hy' Hq. inversion Hy'; subst y'. apply (Ia2 _ _ Hd Hq).
      * split; [exact Ha|]. split; [exact Ha2|]. split; [|exact Il].
        intros b Hb Hn. apply Ib; [exact Hb|].
        intros p Hp. apply (Hn (Key key :: p)).
        rewrite (in_place_walk_key _ _ _ _ _ Hc), Hy. exact Hp.
    + (* the item is missing: a new mapping is stored under the key *)
      set (a0 := length h) in *.
      set (h1 := store (h ++ [[]])%list a (hd_set key (HRef a0) d)) in *.
      assert (Hlen1 : length h1 = S a0).
      { unfold h1. rewrite length_store, length_app. cbn [length]. unfold a0. lia. }
      assert (Hold : forall b, b < a0 -> b <> a -> cell h1 b = cell h b).
      { intros b Hb Hne. unfold h1. rewrite cell_store_other by exact Hne.
        apply cell_alloc_old. exact Hb. }
      assert (Hc1 : cell h1 a = Some (hd_set key (HRef a0) d)).
      { unfold h1. apply cell_store_same. rewrite length_app. cbn [length].
        unfold a0 in *. lia. }
      assert (Hnew : cell h1 a0 = Some []).
      { unfold h1. rewrite cell_store_other by (unfold a0 in *; lia).
        apply cell_alloc_new. }
      assert (Hu1 : unshared h1 (HRef a0)).
      { intros p q b Hp Hq.
        rewrite (in_place_walk_empty _ _ _ _ Hnew Hp).
        rewrite (in_place_walk_empty _ _ _ _ Hnew Hq). reflexivity. }
      assert (Hcl1 : closed h1 (HRef a0)).
      { intros p b Hp.
        rewrite (in_place_walk_empty _ _ _ _ Hnew Hp) in Hp.
        inversion Hp; subst b. lia. }
      destruct (IH h1 (HRef a0) h' Hu1 Hcl1 H) as (Ia & Ia2 & Ib & Il).
      assert (Hkeep : forall b, b < a0 -> cell h' b = cell h1 b).
      { intros b Hb. apply Ib; [lia|].
        intros p Hp. rewrite (in_place_walk_empty _ _ _ _ Hnew Hp) in Hp.
        inversion Hp. lia. }
      assert (Hsib : forall k' z p b, k' <> key -> hd_get k' d = Some z ->
                       InPlace.walk h z p = Some (HRef b) -> cell h' b = cell h b).
      { intros k' z p b Hk Hz Hp.
        assert (Hb : b < a0).
        { apply (Hcl (Key k' :: p)).
          rewrite (in_place_walk_key _ _ _ _ _ Hc), Hz. exact Hp. }
        rewrite (Hkeep _ Hb). apply (Hold _ Hb).
        intro E. subst b. apply (item_below _ _ _ _ _ Hc Hz Hu p Hp). }
      destruct (Hgoal (hd_set key (HRef a0) d)) as [Ha Ha2].
      * rewrite (Hkeep _ Hlt). exact Hc1.
      * intros k' Hk. apply hd_get_set_other. exact Hk.
      * exact Hsib.
      * intros q' Hd. rewrite hd_get_set_same.
        rewrite (Ia _ Hd).
        destruct q' as [|[k'|i] q'']; [destruct Hd | |reflexivity].
        rewrite (in_place_walk_key _ _ _ _ _ Hnew). reflexivity.
      * intros q' b y _ Hy'. discriminate.
      * split; [exact Ha|]. split; [exact Ha2|]. split; [|lia].
        intros b Hb Hn. rewrite (Hkeep _ Hb). apply (Hold _ Hb).
        apply (Hroot _ Hn).
Qed.

(** the mappings of [plain_store] and the paths that lead to them *)
Lemma plain_store_paths (p : list seg) (b : nat) :
  InPlace.walk plain_store (HRef 0) p = Some (HRef b) ->
  (p = [] /\ b = 0) \/ (p = [Key "a"] /\ b = 1) \/ (p = [Key "c"] /\ b = 2).
Proof.
  intro H. destruct p as [|[k|i] p]; [| |discriminate].
  - inversion H. left. split; reflexivity.
  - right. cbn [InPlace.walk plain_store cell nth_error hd_get] in H.
    destruct (String.eqb_spec k "a") as [->|_].
    + left. destruct p as [|[k2|i2] p2]; [| |discriminate].
      * inversion H. split; reflexivity.
      * cbn [InPlace.walk plain_store cell nth_error hd_get] in H.
        destruct (String.eqb k2 "b"); [|discriminate].
        destruct p2 as [|[?|?] ?]; discriminate.
    + destruct (String.eqb_spec k "c") as [->|_]; [|discriminate].
      right. destruct p as [|[k2|i2] p2]; [| |discriminate].
      * inversion H. split; reflexivity.
      * cbn [InPlace.walk plain_store cell nth_error hd_get] in H.
        destruct (String.eqb k2 "k"); [|discriminate].
        destruct p2 as [|[?|?] ?]; discriminate.
Qed.

Lemma plain_store_unshared : unshared plain_store (HRef 0).
Proof.
  intros p q b Hp Hq.
  destruct (plain_store_paths _ _ Hp) as [[-> Hb]|[[-> Hb]|[-> Hb]]];
    destruct (plain_store_paths _ _ Hq) as [[-> Hb']|[[-> Hb']|[-> Hb']]];
    try reflexivity; lia.
Defined.

Lemma plain_store_closed : closed plain_store (HRef 0).
Proof.
  intros p b Hp.
  destruct (plain_store_paths _ _ Hp) as [[_ ->]|[[_ ->]|[_ ->]]];
    cbn [plain_store length]; lia.
Defined.

(** X7.  In a configuration in which no mapping is held at two places,
    an override changes nothing outside its path.  The override
    writes into the mappings of the configuration themselves; every
    path, through keys and through indices of sequences, that parts
    ways with the key path of the override at some segment leads to
    the same value, or to no value, before and after, and a mapping
    found there is as it was. *)
Theorem override_leaves_other_paths :
  forall (h h' : heap) (config : hval) (t key_path v : string) (q : list seg),
    unshared h config -> closed h config ->
    PyStr.split "=" t = [key_path; v] ->
    InPlace.apply_parameter h config (Token t) = Ok h' ->
    departs (PyStr.split "." key_path) q ->
    InPlace.walk h' config q = InPlace.walk h config q
    /\ (forall b, InPlace.walk h config q = Some (HRef b) -> cell h' b = cell h b).
Proof.
  intros h h' config t key_path v q Hu Hc Hs H Hd.
  unfold InPlace.apply_parameter in H. rewrite Hs in H.
  destruct (in_place_set_path_frame _ _ _ _ _ Hu Hc H) as (Ha & Ha2 & _).
  split; [apply (Ha _ Hd) | intros b Hb; apply (Ha2 _ _ Hd Hb)].
Qed.

Lemma override_leaves_other_paths_witness :
  InPlace.walk
    [[("a", HRef 1); ("c", HRef 2)]; [("b", HStr "2")]; [("k", HInt 1)]]
    (HRef 0) [Key "c"]
  = InPlace.walk plain_store (HRef 0) [Key "c"]
  /\ (forall b,
         InPlace.walk plain_store (HRef 0) [Key "c"] = Some (HRef b) ->
         cell [[("a", HRef 1); ("c", HRef 2)]; [("b", HStr "2")]; [("k", HInt 1)]] b
         = cell plain_store b).
Proof.
  apply (override_leaves_other_paths plain_store
           [[("a", HRef 1); ("c", HRef 2)]; [("b", HStr "2")]; [("k", HInt 1)]]
           (HRef 0) "a.b=2" "a.b" "2" [Key "c"]).
  - exact plain_store_unshared.
  - exact plain_store_closed.
  - reflexivity.
  - reflexivity.
  - simpl. left. discriminate.
Defined.

(** Where one mapping is held under two keys the write is seen under
    both: in [{a: &x {k: 1}, b: *x}] the override [a.k=2] changes what
    is found at [b.k] as well. *)
Lemma override_through_an_alias :
  InPlace.walk shared_store (HRef 0) [Key "b"; Key "k"] = Some (HInt 1%Z)
  /\ InPlace._update_parameters shared_store (HRef 0) [Token "a.k=2"]
     = Ok [[("a", HRef 1); ("b", HRef 1)]; [("k", HStr "2")]]
  /\ InPlace.walk [[("a", HRef 1); ("b", HRef 1)]; [("k", HStr "2")]]
       (HRef 0) [Key "b"; Key "k"] = Some (HStr "2")
  /\ ~ unshared shared_store (HRef 0).
Proof.
  split; [reflexivity|]. split; [reflexivity|]. split; [reflexivity|].
  intro H.
  assert (E : [Key "a"] = [Key "b"]) by (apply (H _ _ 1); reflexivity).
  discriminate.
Qed.

End Store.


(** X8.  An override [key_path=v] is applied exactly when every value met
    along [key_path] before its last segment is a mapping, the
    missing ones being created; when a value on the way is anything
    else (a number, a string, a sequence, [None]) the update raises
    [TypeError]. *)
Theorem override_outcome :
  forall (c : value) (t key_path v : string),
    PyStr.split "=" t = [key_path; v] ->
    ((forall pre k post x,
         PyStr.split "." key_path = (pre ++ k :: post)%list ->
         walk c pre = Some x -> is_mapping x = true) ->
     exists c', apply_parameter c (Token t) = Ok c')
    /\ (forall pre k post x,
           PyStr.split "." key_path = (pre ++ k :: post)%list ->
           walk c pre = Some x -> is_mapping x = false ->
           apply_parameter c (Token t) = Raise TypeError).
Proof.
  intros c t key_path v Hs.
  rewrite (apply_parameter_split _ _ _ _ Hs). split.
  - intro H. apply set_path_clear; [|exact H].
    pose proof (split_length "." key_path) as Hl.
    destruct (PyStr.split "." key_path); [discriminate | discriminate].
  - intros pre k post x Hk Hw Hx. rewrite Hk.
    apply (set_path_blocked _ _ _ _ _ _ Hw Hx).
Qed.

Lemma override_outcome_witness :
  (exists c', apply_parameter (VDict [("a", VInt 1)]) (Token "x.y=2") = Ok c')
  /\ apply_parameter (VDict [("a", VInt 1)]) (Token "a.b=2") = Raise TypeError.
Proof.
  split.
  - apply (proj1 (override_outcome (VDict [("a", VInt 1)]) "x.y=2" "x.y" "2" eq_refl)).
    intros pre k post x Hk Hw.
    destruct pre as [|p [|p2 pre']].
    + inversion Hw. reflexivity.
    + inversion Hk; subst. discriminate.
    + inversion Hk; subst. discriminate.
  - apply (proj2 (override_outcome (VDict [("a", VInt 1)]) "a.b=2" "a.b" "2" eq_refl)
             ["a"] "b" [] (VInt 1)); reflexivity.
Defined.

(** ** The argument list *)

Lemma parse_args_fold (w : World) (args : option (list string)) (cli : bool) :
  _parse_args w args cli
  = fold_left parse_step
      (let args := List.map Token (match args with Some l => l | None => [] end) in
       if cli then (args ++ [Argv (argv w)])%list else args)
      (Ok ([], [])).
Proof. reflexivity. Qed.

(** the tokens are sorted into names of documents and parameters, each
    list in the order of the tokens *)
Lemma parse_tokens (l : list string) :
  forall c p,
    fold_left parse_step (List.map Token l) (Ok (c, p))
    = Ok ((c ++ List.map Token (List.filter is_config l))%list,
          (p ++ List.map (fun t => Token (as_parameter t))
                  (List.filter (fun t => negb (is_config t)) l))%list).
Proof.
  induction l as [|t l IH]; intros c p.
  - simpl. rewrite !app_nil_r. reflexivity.
  - assert (Hstep : parse_step (Ok (c, p)) (Token t)
                    = if is_config t then Ok ((c ++ [Token t])%list, p)
                      else Ok (c, (p ++ [Token (as_parameter t)])%list)).
    { unfold parse_step, is_config, as_parameter. cbn [bind].
      destruct (PyStr.contains "=" t); [reflexivity|].
      destruct (PyStr.contains "--" t); reflexivity. }
    cbn [List.map fold_left List.filter]. rewrite Hstep.
    destruct (is_config t); cbn [negb List.map]; rewrite IH, <- !app_assoc;
      reflexivity.
Qed.

Lemma contains_here (x s : string) : PyStr.contains x (x ++ s) = true.
Proof.
  assert (H : PyStr.startswith x (x ++ s) = true).
  { induction x as [|a x IH]; [reflexivity|].
    simpl. rewrite Ascii.eqb_refl. exact IH. }
  destruct (x ++ s); simpl in *; rewrite H; reflexivity.
Qed.

Lemma contains_later (x a s : string) :
  PyStr.contains x s = true -> PyStr.contains x (a ++ s) = true.
Proof.
  intro H. induction a as [|c a IH]; [exact H|].
  cbn [append PyStr.contains]. rewrite IH.
  destruct (PyStr.startswith x (String c (a ++ s))); reflexivity.
Qed.

Lemma contains_equals_flag (name : string) :
  PyStr.contains "=" ("--" ++ name) = PyStr.contains "=" name.
Proof. reflexivity. Qed.

(** X9.  A flag [--name] stands for the override [name=True]: the two
    tokens give the same lists of documents and parameters at every
    place of the argument list, and so the same build. *)
Theorem flag_is_override_true :
  forall (w : World) (pre post : list string) (name : string) (cli : bool),
    PyStr.contains "=" name = false ->
    _parse_args w (Some (pre ++ ("--" ++ name)%string :: post)%list) cli
    = _parse_args w (Some (pre ++ (name ++ "=True")%string :: post)%list) cli
    /\ forall fuel config,
         build w fuel config (Some (pre ++ ("--" ++ name)%string :: post)%list) cli
         = build w fuel config (Some (pre ++ (name ++ "=True")%string :: post)%list) cli.
Proof.
  intros w pre post name cli Hname.
  assert (Hparse :
    _parse_args w (Some (pre ++ ("--" ++ name)%string :: post)%list) cli
    = _parse_args w (Some (pre ++ (name ++ "=True")%string :: post)%list) cli).
  { rewrite !parse_args_fold. cbv zeta.
    assert (Htok :
      fold_left parse_step (List.map Token (pre ++ ("--" ++ name)%string :: post)%list)
        (Ok ([], []))
      = fold_left parse_step (List.map Token (pre ++ (name ++ "=True")%string :: post)%list)
          (Ok ([], []))).
    { assert (Hone : forall cp,
                 parse_step (Ok cp) (Token ("--" ++ name))
                 = parse_step (Ok cp) (Token (name ++ "=True"))).
      { intros [c p]. unfold parse_step. cbn [bind].
        rewrite contains_equals_flag, Hname, (contains_here "--" name).
        rewrite (contains_later "=" name "=True" eq_refl).
        reflexivity. }
      rewrite !List.map_app, !fold_left_app, !(parse_tokens pre).
      cbn [List.map fold_left]. rewrite Hone. reflexivity. }
    destruct cli; [|exact Htok].
    rewrite !fold_left_app, Htok. reflexivity. }
  split; [exact Hparse|].
  intros fuel config. unfold build. rewrite Hparse. reflexivity.
Qed.

Lemma flag_is_override_true_witness :
  _parse_args empty_world (Some ["base"; "--debug"; "lr=1"]) false
  = _parse_args empty_world (Some ["base"; "debug=True"; "lr=1"]) false.
Proof.
  apply (flag_is_override_true empty_world ["base"] ["lr=1"] "debug" false).
  reflexivity.
Defined.

Lemma tokens_are_text (l : list string) :
  mapM token_text (List.map Token l) = Ok l.
Proof.
  induction l as [|t l IH]; [reflexivity|].
  simpl. rewrite IH. reflexivity.
Qed.

Lemma mapM_app_raise {A B : Type} (f : A -> result B) (l : list A) (l' : list B)
  (a : A) (e : exn) :
  mapM f l = Ok l' -> f a = Raise e -> mapM f (l ++ [a]) = Raise e.
Proof.
  revert l'. induction l as [|x l IH]; intros l' Hl Ha.
  - simpl. rewrite Ha. reflexivity.
  - apply mapM_ok_inv in Hl. destruct Hl as (b & t' & Hb & Ht & _).
    cbn [app mapM]. rewrite Hb, (IH _ Ht Ha). reflexivity.
Qed.

Lemma update_parameters_argv (c : value) (params : list arg) (l : list string) :
  forall tree, _update_parameters c (params ++ [Argv l]) <> Ok tree.
Proof.
  intro tree. rewrite update_parameters_snoc.
  destruct (_update_parameters c params); discriminate.
Qed.

(** X10.  With [cli=True] the constructor never yields a configuration:
    [sys.argv[1:]] is appended to [args] as one element, a list, which
    no later step accepts.  Unless one of the command-line words is
    exactly [=], the build raises [TypeError] before any document is
    read. *)
Theorem cli_build_fails :
  forall (w : World) (fuel : nat) (config : string) (args : option (list string)),
    (forall tree, build w fuel config args true <> Ok tree)
    /\ (list_mem "=" (argv w) = false ->
        build w fuel config args true = Raise TypeError).
Proof.
  intros w fuel config args.
  set (l := match args with Some l => l | None => [] end).
  assert (Hparse :
    _parse_args w args true
    = parse_step
        (Ok (List.map Token (List.filter is_config l),
             List.map (fun t => Token (as_parameter t))
               (List.filter (fun t => negb (is_config t)) l)))
        (Argv (argv w))).
  { rewrite parse_args_fold. cbv zeta. fold l.
    rewrite fold_left_app, parse_tokens. reflexivity. }
  unfold build. rewrite Hparse. unfold parse_step. cbn [bind].
  assert (Hjoin : forall names : list arg,
             names = List.map Token (config :: List.filter is_config l) ->
             mapM token_text (names ++ [Argv (argv w)]) = Raise TypeError).
  { intros names ->. apply (mapM_app_raise _ _ _ _ _ (tokens_are_text _)).
    reflexivity. }
  destruct (list_mem "=" (argv w)) eqn:He.
  - split; [|discriminate].
    intro tree. cbn [bind].
    destruct (_update_config (Some config) _) as [c0| | |]; cbn [bind];
      try discriminate.
    destruct (_interpolate w _ fuel c0) as [c1| | |]; cbn [bind]; try discriminate.
    pose proof (update_parameters_argv c1
                  (List.map (fun t => Token (as_parameter t))
                     (List.filter (fun t => negb (is_config t)) l))
                  (argv w)) as Hu.
    destruct (_update_parameters c1 _) as [c2| | |]; cbn [bind]; try discriminate.
    exfalso. apply (Hu c2). reflexivity.
  - assert (Hb : (if list_mem "--" (argv w)
                  then Raise TypeError
                  else Ok ((List.map Token (List.filter is_config l)
                              ++ [Argv (argv w)])%list,
                           List.map (fun t => Token (as_parameter t))
                             (List.filter (fun t => negb (is_config t)) l)))
                 = Raise TypeError
                 \/ list_mem "--" (argv w) = false).
    { destruct (list_mem "--" (argv w)); [left; reflexivity | right; reflexivity]. }
    destruct Hb as [Hb|Hb].
    + destruct (list_mem "--" (argv w)); [|discriminate].
      cbn [bind]. split; [discriminate | reflexivity].
    + rewrite Hb. cbn [bind]. unfold _update_config.
      change (Token config :: (List.map Token (List.filter is_config l)
                                 ++ [Argv (argv w)])%list)
        with ((List.map Token (config :: List.filter is_config l)
                 ++ [Argv (argv w)])%list).
      rewrite (Hjoin _ eq_refl).
      destruct (List.map Token (config :: List.filter is_config l)
                  ++ [Argv (argv w)])%list eqn:E;
        [destruct (List.map Token (config :: List.filter is_config l)); discriminate|].
      cbn [bind]. split; [discriminate | reflexivity].
Qed.

Lemma cli_build_fails_witness :
  build empty_world 10 "base" None true = Raise TypeError.
Proof.
  apply (proj2 (cli_build_fails empty_world 10 "base" None)). reflexivity.
Defined.

(** ** The scanner, continued *)

Lemma span_forallb (p : ascii -> bool) (s a b : string) :
  PyStr.span p s = (a, b) -> PyStr.forallb p a = true /\ s = a ++ b.
Proof.
  revert a b. induction s as [|c s IH]; simpl; intros a b H.
  - inversion H. split; reflexivity.
  - destruct (p c) eqn:Hc.
    + destruct (PyStr.span p s) as [a' b'].
      inversion H; subst. destruct (IH a' b eq_refl) as [Ha ->].
      simpl. rewrite Hc, Ha. split; reflexivity.
    + inversion H. split; reflexivity.
Qed.

(** a match starts with the marker of its pattern *)
Lemma match_here_marker (rx : regex) (s : string) :
  PyStr.startswith (marker rx) s = false -> match_here rx s = None.
Proof.
  unfold match_here, fuel_for. intro H.
  destruct s as [|c0 s]; [reflexivity|].
  destruct (Ascii.eqb c0 "$") eqn:E0;
    [apply Ascii.eqb_eq in E0; subst c0
    |destruct c0 as [[] [] [] [] [] [] [] []]; try reflexivity; discriminate].
  destruct s as [|c1 s1]; [reflexivity|].
  destruct (Ascii.eqb c1 "{") eqn:E1;
    [apply Ascii.eqb_eq in E1; subst c1
    |destruct c1 as [[] [] [] [] [] [] [] []]; try reflexivity; discriminate].
  rewrite match_at_unfold.
  destruct rx; [discriminate|].
  unfold match_op.
  change (PyStr.startswith (marker cfg_regex) (String "$" (String "{" s1)))
    with (PyStr.startswith "cfg" s1) in H.
  rewrite H. reflexivity.
Qed.

Lemma unmarked_no_match (rx : regex) (s : string) :
  unmarked rx s = true -> match_here rx s = None /\ search rx s = None.
Proof.
  unfold unmarked. intro H. apply negb_true_iff in H.
  induction s as [|c r IH].
  - split; reflexivity.
  - cbn [PyStr.contains] in H.
    destruct (PyStr.startswith (marker rx) (String c r)) eqn:Hs; [discriminate|].
    pose proof (match_here_marker rx _ Hs) as Hm.
    split; [exact Hm|].
    rewrite search_unfold, Hm. apply (IH H).
Qed.

(** the shape of a match: the text is [${], the operator, a colon
    with white space on either side, the argument, and [}] *)
Lemma match_shape (rx : regex) (fuel : nat) (s : string) (m : rmatch) :
  match_at rx fuel s = Some m ->
  exists ws1 ws2,
    group0 m = "${" ++ group_op m ++ ws1 ++ ":" ++ ws2 ++ group_arg m ++ "}"
    /\ PyStr.forallb is_space ws1 = true
    /\ PyStr.forallb is_space ws2 = true
    /\ group_op m <> ""
    /\ PyStr.forallb is_word (group_op m) = true.
Proof.
  intro H. destruct fuel as [|fuel]; [discriminate|].
  destruct s as [|c0 s]; [discriminate|].
  destruct (Ascii.eqb c0 "$") eqn:E0;
    [apply Ascii.eqb_eq in E0; subst c0
    |destruct c0 as [[] [] [] [] [] [] [] []]; simpl in H; discriminate].
  destruct s as [|c1 s1]; [discriminate|].
  destruct (Ascii.eqb c1 "{") eqn:E1;
    [apply Ascii.eqb_eq in E1; subst c1
    |destruct c1 as [[] [] [] [] [] [] [] []]; simpl in H; discriminate].
  rewrite match_at_unfold in H.
  destruct (match_op rx s1) as [[op s2]|] eqn:Hop; [|discriminate].
  destruct (PyStr.span is_space s2) as [ws1 s3] eqn:Hws1.
  destruct s3 as [|c3 s4]; [discriminate|].
  destruct (Ascii.eqb c3 ":") eqn:E3;
    [apply Ascii.eqb_eq in E3; subst c3
    |destruct c3 as [[] [] [] [] [] [] [] []]; discriminate].
  destruct (PyStr.span is_space s4) as [ws2 s5] eqn:Hws2.
  destruct (match_arg rx fuel s5) as [[arg rest]|]; [|discriminate].
  inversion H; subst m. cbn [group0 group_op group_arg].
  exists ws1, ws2.
  split; [reflexivity|].
  split; [apply (span_forallb _ _ _ _ Hws1)|].
  split; [apply (span_forallb _ _ _ _ Hws2)|].
  destruct rx; unfold match_op in Hop.
  - destruct (PyStr.span is_word s1) as [wd r] eqn:Hw.
    destruct (PyStr.is_empty wd) eqn:He; [discriminate|].
    inversion Hop; subst. split.
    + intros ->. discriminate.
    + apply (span_forallb _ _ _ _ Hw).
  - destruct (PyStr.startswith "cfg" s1); [|discriminate].
    inversion Hop; subst. split; [discriminate | reflexivity].
Qed.

(** X11.  The expression that [_get_expression] returns is a piece of the
    string it was found in, and it has the shape of the pattern: it
    is [${], the operator (a non-empty word), a colon with optional
    white space on either side, the argument, and [}]. *)
Theorem get_expression_is_a_piece :
  forall (self : Self) (obj expr op arg : string),
    _get_expression self obj = Ok (expr, op, arg) ->
    exists pre post ws1 ws2,
      obj = pre ++ expr ++ post
      /\ expr = "${" ++ op ++ ws1 ++ ":" ++ ws2 ++ arg ++ "}"
      /\ PyStr.forallb is_space ws1 = true
      /\ PyStr.forallb is_space ws2 = true
      /\ op <> ""
      /\ PyStr.forallb is_word op = true.
Proof.
  intros self obj expr op arg H. unfold _get_expression in H.
  destruct (search (op_regex self) obj) as [m|] eqn:Hs; [|discriminate].
  inversion H; subst. clear H.
  destruct (search_covers _ _ _ Hs) as [pre Hpre].
  assert (Hm : exists t, match_here (op_regex self) t = Some m).
  { clear Hpre. induction obj as [|c r IH].
    - discriminate.
    - rewrite search_unfold in Hs.
      destruct (match_here (op_regex self) (String c r)) eqn:E.
      + inversion Hs; subst. eauto.
      + apply (IH Hs). }
  destruct Hm as [t Hm].
  destruct (match_shape _ _ _ _ Hm) as (ws1 & ws2 & H0 & H1 & H2 & H3 & H4).
  exists pre, (after m), ws1, ws2. repeat split; assumption.
Qed.

Lemma get_expression_is_a_piece_witness :
  exists pre post ws1 ws2,
    "a ${add : 1, 2} b" = pre ++ "${add : 1, 2}" ++ post
    /\ "${add : 1, 2}" = "${" ++ "add" ++ ws1 ++ ":" ++ ws2 ++ "1, 2" ++ "}"
    /\ PyStr.forallb is_space ws1 = true
    /\ PyStr.forallb is_space ws2 = true
    /\ "add" <> ""
    /\ PyStr.forallb is_word "add" = true.
Proof.
  apply (get_expression_is_a_piece (phase2 VNone) "a ${add : 1, 2} b").
  reflexivity.
Defined.

(** X12.  A string that is an expression as a whole is the expression that
    [_get_expression] finds in it, so the two calls made on such a
    string agree. *)
Theorem entire_expression_is_found :
  forall (self : Self) (s : string),
    _is_entire_expression self s = true ->
    _contains_expression self s = true
    /\ exists op arg, _get_expression self s = Ok (s, op, arg).
Proof.
  intros self s H.
  unfold _is_entire_expression, fullmatch in H.
  destruct (match_here (op_regex self) s) as [m|] eqn:Hm; [|discriminate].
  destruct (after m) eqn:Ha; [|discriminate].
  pose proof (proj1 (match_covers _ _) _ _ Hm) as Hc.
  rewrite Ha, append_empty_r in Hc.
  assert (Hs : search (op_regex self) s = Some m).
  { destruct s as [|c r].
    - discriminate.
    - rewrite search_unfold, Hm. reflexivity. }
  unfold _contains_expression, _get_expression. rewrite Hs.
  split; [reflexivity|].
  exists (group_op m), (group_arg m). rewrite <- Hc. reflexivity.
Qed.

Lemma entire_expression_is_found_witness :
  _contains_expression (phase1 VNone) "${cfg: a, b}" = true
  /\ exists op arg,
       _get_expression (phase1 VNone) "${cfg: a, b}" = Ok ("${cfg: a, b}", op, arg).
Proof.
  apply (entire_expression_is_found (phase1 VNone) "${cfg: a, b}").
  reflexivity.
Defined.

(** ** Trees without expressions *)

Lemma mapM_same {A : Type} (g : A -> result A) (l : list A) :
  Forall (fun x => g x = Ok x) l -> mapM g l = Ok l.
Proof.
  induction 1 as [|x t Hx Ht IH]; [reflexivity|].
  simpl. rewrite Hx, IH. reflexivity.
Qed.

Lemma depth_list (x : value) (l : list value) :
  In x l -> (depth x < depth (VList l))%nat.
Proof.
  induction l as [|y t IH]; [intros []|].
  intros [->|Hin].
  - simpl. lia.
  - specialize (IH Hin). simpl in *. lia.
Qed.

Lemma depth_dict (kv : string * value) (d : dict) :
  In kv d -> (depth (snd kv) < depth (VDict d))%nat.
Proof.
  induction d as [|y t IH]; [intros []|].
  intros [->|Hin].
  - simpl. lia.
  - specialize (IH Hin). simpl in *. lia.
Qed.

Lemma interpolate_unmarked (w : World) (self : Self) (fuel : nat) :
  forall t,
    all_strings (unmarked (op_regex self)) t = true ->
    (depth t <= fuel)%nat ->
    _interpolate w self fuel t = Ok t.
Proof.
  induction fuel as [|fuel IH]; intros t Hall Hd.
  - destruct t; simpl in Hd; lia.
  - rewrite interpolate_step. destruct t; try reflexivity.
    + simpl in Hall.
      destruct (unmarked_no_match _ _ Hall) as [Hm Hs].
      unfold _is_entire_expression, _contains_expression, fullmatch.
      rewrite Hm, Hs. reflexivity.
    + rewrite all_strings_list in Hall.
      rewrite mapM_same; [reflexivity|].
      apply Forall_forall. intros x Hx. apply IH.
      * rewrite List.forallb_forall in Hall. apply Hall. exact Hx.
      * pose proof (depth_list x l Hx). lia.
    + rewrite all_strings_dict in Hall. unfold map_values.
      rewrite mapM_same; [reflexivity|].
      apply Forall_forall. intros [k x] Hx. cbn [fst snd]. rewrite IH.
      * reflexivity.
      * rewrite List.forallb_forall in Hall. apply (Hall _ Hx).
      * pose proof (depth_dict _ d Hx). simpl in *. lia.
Qed.

(** X13.  A tree in which no string holds the start of an expression of the
    active pattern ([${] in the second pass, [${cfg] in the first) is
    returned as it is, and the call ends: a number of calls equal to
    the nesting depth of the tree is enough. *)
Theorem tree_without_expressions_is_unchanged :
  forall (w : World) (self : Self) (fuel : nat) (t : value),
    all_strings (unmarked (op_regex self)) t = true ->
    (depth t <= fuel)%nat ->
    _interpolate w self fuel t = Ok t.
Proof.
  intros w self fuel t. apply interpolate_unmarked.
Qed.

Lemma tree_without_expressions_is_unchanged_witness :
  _interpolate empty_world (phase1 VNone) 3
    (VDict [("a", VStr "${add: 1, 2}"); ("b", VList [VInt 1; VStr "$x"])])
  = Ok (VDict [("a", VStr "${add: 1, 2}"); ("b", VList [VInt 1; VStr "$x"])]).
Proof.
  apply tree_without_expressions_is_unchanged; [reflexivity | simpl; lia].
Defined.

(** ** Expressions inside other text *)

Lemma startswith_dollar (c : ascii) (x s : string) :
  no_dollar c = true -> PyStr.startswith (String "$" x) (String c s) = false.
Proof.
  unfold no_dollar. intro H. apply negb_true_iff in H.
  cbn [PyStr.startswith]. rewrite Ascii.eqb_sym, H. reflexivity.
Qed.

Lemma startswith_self (x s : string) : PyStr.startswith x (x ++ s) = true.
Proof.
  induction x as [|a x IH]; [reflexivity|].
  simpl. rewrite Ascii.eqb_refl. exact IH.
Qed.

Lemma drop_self (x s : string) : PyStr.drop (String.length x) (x ++ s) = s.
Proof. induction x as [|a x IH]; [reflexivity | exact IH]. Qed.

(** the first occurrence of a text that starts with a dollar sign,
    after text without one *)
Lemma replace_after_text (pre x new post : string) :
  PyStr.forallb no_dollar pre = true ->
  PyStr.replace_first (String "$" x) new (pre ++ String "$" (x ++ post))
  = pre ++ new ++ post.
Proof.
  intro Hpre. induction pre as [|c pre IH].
  - cbn [append]. rewrite replace_first_unfold.
    change (String "$" (x ++ post)) with (String "$" x ++ post).
    rewrite startswith_self, drop_self. reflexivity.
  - simpl in Hpre. apply andb_true_iff in Hpre. destruct Hpre as [Hc Hpre].
    cbn [append]. rewrite replace_first_unfold, (startswith_dollar c _ _ Hc).
    rewrite (IH Hpre). reflexivity.
Qed.

Section Embedded.

Variable w : World.
Variable tree : value.
Variables pre op arg post : string.

Hypothesis Hpre : PyStr.forallb no_dollar pre = true.
Hypothesis Hne : op <> "".
Hypothesis Hop : PyStr.forallb is_word op = true.
Hypothesis Harg : PyStr.forallb no_brace arg = true.
Hypothesis Hblack : starts_black arg = true.
Hypothesis Htext : pre ++ post <> "".

(** one turn of the loop on the first expression of a string: the
    dispatcher is called on it and its result is put in its place *)
Lemma embedded_turn (fuel : nat) :
  _interpolate w (phase2 tree) (S (S (S fuel)))
    (VStr (pre ++ expression op arg ++ post))
  = (r <- _interpolate_op w (phase2 tree) (expression op arg) op arg ;;
     match r with
     | VStr r => interpolate_while w (phase2 tree) (S fuel) (pre ++ r ++ post)
     | _ => Raise TypeError
     end).
Proof.
  rewrite interpolate_str_step.
  rewrite (unrecognised_not_entire tree pre op arg post) by assumption.
  unfold _contains_expression at 1.
  change (op_regex (phase2 tree)) with general_op_regex.
  rewrite (unrecognised_found pre op arg post) by assumption.
  rewrite interpolate_while_step.
  unfold _contains_expression at 1, _get_expression.
  change (op_regex (phase2 tree)) with general_op_regex.
  rewrite (unrecognised_found pre op arg post) by assumption.
  cbn [bind group0 group_op group_arg].
  unfold expression at 1.
  rewrite interpolate_plain by (reflexivity || assumption).
  fold (expression op arg).
  destruct (_interpolate_op w (phase2 tree) (expression op arg) op arg)
    as [r| | |]; try reflexivity.
  cbn [bind]. destruct r; try reflexivity.
  change (PyStr.replace_first (expression op arg) s
            (pre ++ expression op arg ++ post))
    with (PyStr.replace_first (String "$" (String "{" (op ++ ":" ++ arg ++ "}"))) s
            (pre ++ String "$" (String "{" (op ++ ":" ++ arg ++ "}") ++ post))).
  rewrite replace_after_text by assumption. reflexivity.
Qed.

Lemma while_unmarked (fuel : nat) (s : string) :
  unmarked general_op_regex s = true ->
  interpolate_while w (phase2 tree) (S fuel) s = Ok (VStr s).
Proof.
  intro H. rewrite interpolate_while_step.
  unfold _contains_expression.
  change (op_regex (phase2 tree)) with general_op_regex.
  rewrite (proj2 (unmarked_no_match _ _ H)). reflexivity.
Qed.

End Embedded.

(** X14.  The first expression of a string that holds other text as well is
    replaced by the text that the dispatcher returns for it; when the
    string so obtained holds no further [${], it is the result.  An
    error raised for the expression is the outcome of the call. *)
Theorem embedded_expression_is_replaced :
  forall (w : World) (tree : value) (pre op arg post : string) (fuel : nat),
    PyStr.forallb no_dollar pre = true ->
    op <> "" -> PyStr.forallb is_word op = true ->
    PyStr.forallb no_brace arg = true -> starts_black arg = true ->
    pre ++ post <> "" ->
    (forall r,
        _interpolate_op w (phase2 tree) (expression op arg) op arg = Ok (VStr r) ->
        unmarked general_op_regex (pre ++ r ++ post) = true ->
        _interpolate w (phase2 tree) (3 + fuel) (VStr (pre ++ expression op arg ++ post))
        = Ok (VStr (pre ++ r ++ post)))
    /\ (forall e,
           _interpolate_op w (phase2 tree) (expression op arg) op arg = Raise e ->
           _interpolate w (phase2 tree) (3 + fuel) (VStr (pre ++ expression op arg ++ post))
           = Raise e).
Proof.
  intros w tree pre op arg post fuel Hpre Hne Hop Harg Hblack Htext.
  cbn [Nat.add]. rewrite embedded_turn by assumption.
  split.
  - intros r Hr Hu. rewrite Hr. cbn [bind]. apply while_unmarked. exact Hu.
  - intros e He. rewrite He. reflexivity.
Qed.

Lemma embedded_expression_is_replaced_witness :
  _interpolate foo_world (phase2 VNone) 3 (VStr "<${env:FOO}>") = Ok (VStr "<bar>")
  /\ _interpolate foo_world (phase2 (VDict [])) 3 (VStr "<${var:x}>")
     = Raise (undefined "x").
Proof.
  split.
  - apply (proj1 (embedded_expression_is_replaced foo_world VNone "<" "env" "FOO" ">" 0
                    eq_refl ltac:(discriminate) eq_refl eq_refl eq_refl
                    ltac:(discriminate)) "bar");
      reflexivity.
  - apply (proj2 (embedded_expression_is_replaced foo_world (VDict []) "<" "var" "x" ">" 0
                    eq_refl ltac:(discriminate) eq_refl eq_refl eq_refl
                    ltac:(discriminate)) (undefined "x")).
    reflexivity.
Defined.

(** X15.  A reference inside other text to a value that is not a string (a
    number, a boolean, [None], a sequence or a mapping) raises
    [TypeError]: the value is handed to [str.replace] as it is. *)
Theorem embedded_reference_to_non_text_raises :
  forall (w : World) (tree : value) (pre post : string) (keys : list string)
         (v : value) (fuel : nat),
    PyStr.forallb no_dollar pre = true ->
    pre ++ post <> "" ->
    keys <> [] ->
    Forall (fun k => count "." k = 0%nat) keys ->
    PyStr.forallb no_brace (PyStr.join "." keys) = true ->
    starts_black (PyStr.join "." keys) = true ->
    walk tree keys = Some v ->
    is_str v = false ->
    _interpolate w (phase2 tree) (3 + fuel)
      (VStr (pre ++ expression "var" (PyStr.join "." keys) ++ post))
    = Raise TypeError.
Proof.
  intros w tree pre post keys v fuel Hpre Htext Hne Hdots Hplain Hblack Hwalk Hv.
  cbn [Nat.add].
  rewrite embedded_turn by (assumption || reflexivity || discriminate).
  change (_interpolate_op w (phase2 tree) (expression "var" (PyStr.join "." keys))
            "var" (PyStr.join "." keys))
    with (_interpolate_var (phase2 tree) (PyStr.join "." keys)).
  rewrite interpolate_var_fold, split_join by assumption.
  rewrite (var_fold_found _ keys tree v Hwalk).
  cbn [bind]. destruct v; try reflexivity. discriminate.
Qed.

Lemma embedded_reference_to_non_text_raises_witness :
  _interpolate empty_world (phase2 (VDict [("port", VInt 8080)])) 3
    (VStr "localhost:${var:port}")
  = Raise TypeError.
Proof.
  apply (embedded_reference_to_non_text_raises empty_world
           (VDict [("port", VInt 8080)]) "localhost:" "" ["port"] (VInt 8080) 0);
    try reflexivity; try discriminate.
  repeat constructor.
Defined.

(** ** The whole build *)

(** the include pattern on an expression whose argument has no braces *)
Lemma match_plain_cfg (arg rest : string) :
  PyStr.forallb no_brace arg = true -> starts_black arg = true ->
  match_here cfg_regex ("${cfg:" ++ arg ++ "}" ++ rest)
  = Some {| group0 := "${cfg:" ++ arg ++ "}";
            group_op := "cfg";
            group_arg := arg;
            after := rest |}.
Proof.
  intros Harg Hblack.
  unfold match_here, fuel_for.
  change ("${cfg:" ++ arg ++ "}" ++ rest)
    with (String "$" (String "{" ("cfg:" ++ arg ++ String "}" rest))).
  rewrite match_at_unfold.
  change (match_op cfg_regex ("cfg:" ++ arg ++ String "}" rest))
    with (Some ("cfg", String ":" (arg ++ String "}" rest))).
  cbv iota beta.
  change (PyStr.span is_space (String ":" (arg ++ String "}" rest)))
    with (EmptyString, String ":" (arg ++ String "}" rest)).
  cbv iota beta.
  assert (Hspan : PyStr.span is_space (arg ++ String "}" rest)
                  = (EmptyString, arg ++ String "}" rest)).
  { destruct arg as [|a arg']; [reflexivity|].
    simpl in Hblack. apply negb_true_iff in Hblack.
    cbn [append PyStr.span]. rewrite Hblack. reflexivity. }
  rewrite Hspan. cbv iota beta.
  rewrite (match_arg_plain cfg_regex arg rest Harg).
  - reflexivity.
  - cbn [String.length]. rewrite !length_append. cbn [String.length]. lia.
Qed.

Lemma forallb_append (p : ascii -> bool) (a b : string) :
  PyStr.forallb p (a ++ b) = (PyStr.forallb p a && PyStr.forallb p b)%bool.
Proof.
  induction a as [|c a IH]; [reflexivity|].
  simpl. rewrite IH, andb_assoc. reflexivity.
Qed.

Lemma forallb_join (p : ascii -> bool) (sep : string) (l : list string) :
  PyStr.forallb p sep = true -> Forall (fun t => PyStr.forallb p t = true) l ->
  PyStr.forallb p (PyStr.join sep l) = true.
Proof.
  intros Hsep. induction 1 as [|t l Ht Hl IH]; [reflexivity|].
  destruct l as [|t2 l']; [exact Ht|].
  change (PyStr.join sep (t :: t2 :: l')) with (t ++ sep ++ PyStr.join sep (t2 :: l')).
  rewrite !forallb_append, Ht, Hsep, IH. reflexivity.
Qed.

Lemma remove_char_absent (c : ascii) (s : string) :
  count c s = 0%nat -> PyStr.remove_char c s = s.
Proof.
  induction s as [|d r IH]; [reflexivity|].
  simpl. destruct (Ascii.eqb c d); [discriminate|].
  intro H. rewrite (IH H). reflexivity.
Qed.

Lemma starts_black_join (l : list string) :
  Forall plain_name l -> starts_black (PyStr.join "," l) = true.
Proof.
  intro H. destruct H as [|t l Ht Hl]; [reflexivity|].
  assert (Hfirst : forall r, starts_black (t ++ String "," r) = true).
  { intro r. destruct t as [|c t']; [reflexivity|].
    unfold plain_name in Ht. simpl in Ht.
    apply andb_true_iff in Ht. destruct Ht as [Hc _].
    unfold name_char in Hc. apply andb_true_iff in Hc. destruct Hc as [_ Hc].
    exact Hc. }
  destruct l as [|t2 l'].
  - destruct t as [|c t']; [reflexivity|].
    exact (Hfirst "").
  - exact (Hfirst (PyStr.join "," (t2 :: l'))).
Qed.

Lemma name_char_no_brace (c : ascii) : name_char c = true -> no_brace c = true.
Proof.
  unfold name_char. intro H.
  apply andb_true_iff in H. destruct H as [H _].
  apply andb_true_iff in H. destruct H as [H _]. exact H.
Qed.

Lemma name_char_no_space (c : ascii) :
  name_char c = true -> negb (Ascii.eqb c " ") = true.
Proof.
  destruct c as [[] [] [] [] [] [] [] []]; vm_compute; congruence.
Qed.

Lemma name_char_no_comma (c : ascii) :
  name_char c = true -> negb (Ascii.eqb c ",") = true.
Proof.
  destruct c as [[] [] [] [] [] [] [] []]; vm_compute; congruence.
Qed.

Lemma forallb_absent (c : ascii) (s : string) :
  PyStr.forallb (fun d => negb (Ascii.eqb d c)) s = true -> count c s = 0%nat.
Proof.
  apply forallb_count. rewrite Ascii.eqb_refl. reflexivity.
Qed.

(** the first pass on the string that [_update_config] builds from
    plain names is the merge of the documents they name *)
Lemma first_pass_merges (w : World) (self : Self) (fuel : nat) (names : list string) :
  op_regex self = cfg_regex ->
  names <> [] -> Forall plain_name names ->
  _interpolate w self (S fuel) (VStr ("${cfg:" ++ PyStr.join "," names ++ "}"))
  = merge_configs w names [].
Proof.
  intros Hrx Hne Hnames.
  assert (Hbrace : PyStr.forallb no_brace (PyStr.join "," names) = true).
  { apply forallb_join; [reflexivity|].
    eapply Forall_impl; [|exact Hnames].
    intros t Ht. apply (forallb_weaken _ _ _ name_char_no_brace Ht). }
  assert (Hspace : count " " (PyStr.join "," names) = 0%nat).
  { apply forallb_absent. apply forallb_join; [reflexivity|].
    eapply Forall_impl; [|exact Hnames].
    intros t Ht. apply (forallb_weaken _ _ _ name_char_no_space Ht). }
  assert (Hcomma : Forall (fun k => count "," k = 0%nat) names).
  { eapply Forall_impl; [|exact Hnames].
    intros t Ht. apply forallb_absent.
    apply (forallb_weaken _ _ _ name_char_no_comma Ht). }
  pose proof (match_plain_cfg (PyStr.join "," names) ""
                Hbrace (starts_black_join names Hnames)) as Hm.
  change ("${cfg:" ++ PyStr.join "," names ++ "}" ++ "")
    with ("${cfg:" ++ PyStr.join "," names ++ "}") in Hm.
  rewrite interpolate_str_step.
  unfold _is_entire_expression, _get_expression, fullmatch. rewrite Hrx.
  change ("${cfg:" ++ PyStr.join "," names ++ "}")
    with (String "$" (String "{" ("cfg:" ++ PyStr.join "," names ++ "}"))) in *.
  rewrite search_unfold, Hm. cbn [after PyStr.is_empty bind group0 group_op group_arg].
  change (_interpolate_op w self
            (String "$" (String "{" ("cfg:" ++ PyStr.join "," names ++ "}")))
            "cfg" (PyStr.join "," names))
    with (_interpolate_cfg w (PyStr.join "," names)).
  unfold _interpolate_cfg.
  rewrite (remove_char_absent _ _ Hspace), (split_join "," names Hne Hcomma).
  reflexivity.
Qed.

Lemma filter_all {A : Type} (p : A -> bool) (l : list A) :
  Forall (fun x => p x = true) l ->
  List.filter p l = l /\ List.filter (fun x => negb (p x)) l = [].
Proof.
  induction 1 as [|x l Hx Hl [IH1 IH2]]; [split; reflexivity|].
  simpl. rewrite Hx, IH1, IH2. split; reflexivity.
Qed.

(** the build up to the end of the first pass: the documents named by
    [config] and by the tokens of [args] that are names are merged in
    that order, and the overrides are applied to the merged tree in
    the order of [args] *)
Lemma build_after_first_pass (w : World) (fuel : nat) (config : string)
  (args : list string) :
  Forall plain_name (config :: List.filter is_config args) ->
  build w (S fuel) config (Some args) false
  = (c1 <- merge_configs w (config :: List.filter is_config args) [] ;;
     c2 <- _update_parameters c1
             (List.map (fun t => Token (as_parameter t))
                (List.filter (fun t => negb (is_config t)) args)) ;;
     c3 <- _interpolate w (phase2 c2) (S fuel) c2 ;;
     c4 <- numeric_pass c3 ;;
     match c4 with
     | VDict _ => Ok c4
     | _ => Raise AttributeError
     end).
Proof.
  intro Hnames.
  unfold build. rewrite parse_args_fold. cbv zeta.
  rewrite parse_tokens. cbn [app bind].
  unfold _update_config.
  change (Token config :: List.map Token (List.filter is_config args))
    with (List.map Token (config :: List.filter is_config args)).
  rewrite tokens_are_text.
  cbn [List.map bind].
  rewrite first_pass_merges by (reflexivity || discriminate || assumption).
  reflexivity.
Qed.

Lemma merge_configs_fold (w : World) (names : list string) (docs : list dict) :
  Forall2 (fun n d => _load_conf w n = Ok (VDict d)) names docs ->
  forall acc,
    merge_configs w names acc = Ok (VDict (fold_left dict_update docs acc)).
Proof.
  induction 1 as [|n d names docs Hn Hrest IH]; intro acc; [reflexivity|].
  simpl. rewrite Hn. simpl. apply IH.
Qed.

(** X16.  When [config] and [args] name documents that are mappings, the
    build gives the numeric pass of their merge, in which each
    top-level key has the value of the last document that holds it,
    [config] being the first; this holds when the merged tree holds no
    [${], the number of calls allowed being at least its nesting
    depth. *)
Theorem build_merges_documents :
  forall (w : World) (fuel : nat) (config : string) (names : list string)
         (docs : list dict),
    Forall plain_name (config :: names) ->
    Forall (fun t => is_config t = true) names ->
    Forall2 (fun n d => _load_conf w n = Ok (VDict d)) (config :: names) docs ->
    Forall unique_keys docs ->
    (forall k, dict_get k (merge_all docs) = last_binding k docs)
    /\ (all_strings (unmarked general_op_regex) (VDict (merge_all docs)) = true ->
        (depth (VDict (merge_all docs)) <= fuel)%nat ->
        build w fuel config (Some names) false
        = numeric_pass (VDict (merge_all docs))).
Proof.
  intros w fuel config names docs Hplain Hconf Hload Hu.
  pose proof (merge_configs_fold w _ _ Hload []) as Hm.
  fold (merge_all docs) in Hm.
  split.
  - destruct (merge_mappings w _ _ Hload Hu []) as (merged & Hm' & Hk).
    rewrite Hm in Hm'. inversion Hm'; subst merged.
    intro k. rewrite Hk. destruct (last_binding k docs); reflexivity.
  - intros Hall Hd.
    destruct fuel as [|fuel]; [simpl in Hd; lia|].
    destruct (filter_all is_config names Hconf) as [Hf1 Hf2].
    rewrite build_after_first_pass by (rewrite Hf1; exact Hplain).
    rewrite Hf1, Hf2, Hm. cbn [bind List.map].
    change (_update_parameters (VDict (merge_all docs)) [])
      with (Ok (VDict (merge_all docs))).
    cbn [bind].
    rewrite (interpolate_unmarked w (phase2 (VDict (merge_all docs))) (S fuel) _ Hall Hd).
    cbn [bind]. rewrite pass_dict.
    destruct (map_values numeric_pass (merge_all docs)); reflexivity.
Qed.

Lemma build_merges_documents_witness :
  (forall k, dict_get k (merge_all [doc_A; doc_B]) = last_binding k [doc_A; doc_B])
  /\ build merge_world 2 "A" (Some ["B"]) false
     = numeric_pass (VDict (merge_all [doc_A; doc_B])).
Proof.
  destruct (build_merges_documents merge_world 2 "A" ["B"] [doc_A; doc_B])
    as [Hk Hb].
  - repeat constructor.
  - repeat constructor.
  - repeat constructor.
  - apply Forall_cons; [apply unique_keys_A|].
    apply Forall_cons; [apply unique_keys_B | apply Forall_nil].
  - split; [exact Hk|]. apply Hb; [reflexivity | simpl; lia].
Defined.

(** X17.  The place of the document names among the overrides in [args]
    does not matter: two argument lists with the same names in the
    same order and the same overrides in the same order give the same
    build. *)
Theorem build_ignores_interleaving :
  forall (w : World) (fuel : nat) (config : string) (args args' : list string)
         (cli : bool),
    List.filter is_config args = List.filter is_config args' ->
    List.map as_parameter (List.filter (fun t => negb (is_config t)) args)
    = List.map as_parameter (List.filter (fun t => negb (is_config t)) args') ->
    build w fuel config (Some args) cli = build w fuel config (Some args') cli.
Proof.
  intros w fuel config args args' cli Hc Hp.
  assert (Htok :
    fold_left parse_step (List.map Token args) (Ok ([], []))
    = fold_left parse_step (List.map Token args') (Ok ([], []))).
  { rewrite !parse_tokens. cbn [app].
    rewrite Hc.
    rewrite <- (List.map_map as_parameter Token), Hp, List.map_map.
    reflexivity. }
  unfold build. rewrite !parse_args_fold. cbv zeta.
  destruct cli; [rewrite !fold_left_app|]; rewrite Htok; reflexivity.
Qed.

Lemma build_ignores_interleaving_witness :
  build merge_world 5 "A" (Some ["x=1"; "B"; "--v"]) false
  = build merge_world 5 "A" (Some ["B"; "x=1"; "v=True"]) false.
Proof.
  apply (build_ignores_interleaving merge_world 5 "A"
           ["x=1"; "B"; "--v"] ["B"; "x=1"; "v=True"] false);
    reflexivity.
Defined.

(** ** Whole-string references, instances *)

Lemma whole_string_var_witness :
  _interpolate empty_world (phase2 var_tree) 1 (VStr (expression "var" "a"))
  = Ok (VDict [("b", VInt 1)]).
Proof.
  apply (whole_string_var empty_world var_tree ["a"] (VDict [("b", VInt 1)]) 0);
    try reflexivity; [discriminate | repeat constructor].
Defined.

(** ** Arithmetic, continued *)

Lemma digit_no_brace (c : ascii) :
  PyStr.is_ascii_digit c = true -> no_brace c = true.
Proof. destruct c as [[] [] [] [] [] [] [] []]; vm_compute; congruence. Qed.

Lemma digit_black (c : ascii) :
  PyStr.is_ascii_digit c = true -> negb (is_space c) = true.
Proof. destruct c as [[] [] [] [] [] [] [] []]; vm_compute; congruence. Qed.

Lemma numerals_no_brace (ns : list Z) :
  Forall (fun n => 0 <= n) ns ->
  PyStr.forallb no_brace (PyStr.join "," (numerals ns)) = true.
Proof.
  intro Hns. destruct (numerals_plain ns Hns) as [Hplain _].
  apply forallb_join; [reflexivity|].
  eapply Forall_impl; [|exact Hplain].
  intros t [_ Ht]. apply (forallb_weaken _ _ _ digit_no_brace Ht).
Qed.

Lemma numerals_black (n : Z) (ns : list Z) :
  0 <= n -> starts_black (PyStr.join "," (numerals (n :: ns))) = true.
Proof.
  intro Hn. destruct (str_of_int_digits n Hn) as (Hne & Hdig & _).
  cbn [numerals List.map]. fold (numerals ns).
  destruct (PyStr.str_of_int n) as [|c r]; [congruence|].
  simpl in Hdig. apply andb_true_iff in Hdig. destruct Hdig as [Hc _].
  destruct (numerals ns); simpl; apply digit_black; exact Hc.
Qed.

(** an expression whose operator is a name of the [operator] module
    and whose argument is a list of numerals goes to
    [_interpolate_math] *)
Lemma interpolate_arithmetic (w : World) (tree : value) (fuel : nat)
  (op : string) (n : Z) (ns : list Z) :
  op <> "" -> PyStr.forallb is_word op = true ->
  String.eqb op "var" = false -> String.eqb op "cfg" = false ->
  String.eqb op "env" = false -> Operator.hasattr op = true ->
  0 <= n -> Forall (fun n => 0 <= n) ns ->
  _interpolate w (phase2 tree) (S fuel)
    (VStr (expression op (PyStr.join "," (numerals (n :: ns)))))
  = _interpolate_math op (PyStr.join "," (numerals (n :: ns))).
Proof.
  intros Hne Hop Hv Hc He Hh Hn Hns.
  unfold expression.
  rewrite interpolate_plain;
    [| reflexivity | exact Hne | exact Hop
     | apply numerals_no_brace; constructor; assumption
     | apply numerals_black; exact Hn].
  unfold _interpolate_op. rewrite Hv, Hc, He, Hh. reflexivity.
Qed.

Lemma fold_nonneg (f : Z -> Z -> Z) (ns : list Z) :
  (forall x y, 0 <= x -> 0 <= y -> 0 <= f x y) ->
  Forall (fun n => 0 <= n) ns ->
  forall n, 0 <= n -> 0 <= fold_left f ns n.
Proof.
  intros Hf. induction 1 as [|y ns Hy Hns IH]; intros n Hn; [exact Hn|].
  simpl. apply IH. apply Hf; assumption.
Qed.

(** X18.  A string that is an [add], [mul] or [pow] expression over a list
    of naturals resolves to the decimal text of the operation folded
    from the left over the operands, and the numeric pass turns that
    text into the number itself.  The operands and the result are
    taken within CPython's bound of 4300 digits on conversions
    between integers and text. *)
Theorem arithmetic_expression_resolves :
  forall (w : World) (tree : value) (fuel : nat) (op : string)
         (f : Z -> Z -> Z) (n : Z) (ns : list Z),
    In (op, f) [("add", Z.add); ("mul", Z.mul); ("pow", Z.pow)] ->
    0 <= n -> Forall (fun n => 0 <= n) ns ->
    Forall printable (n :: ns) -> printable (fold_left f ns n) ->
    _interpolate w (phase2 tree) (S fuel)
      (VStr (expression op (PyStr.join "," (numerals (n :: ns)))))
    = Ok (VStr (PyStr.str_of_int (fold_left f ns n)))
    /\ numeric_pass (VStr (PyStr.str_of_int (fold_left f ns n)))
       = Ok (VInt (fold_left f ns n)).
Proof.
  intros w tree fuel op f n ns Hin Hn Hns _ _.
  destruct (arithmetic_left_fold n ns Hn Hns) as (Hadd & _ & Hmul & Hpow).
  assert (Hpos : 0 <= fold_left f ns n).
  { apply fold_nonneg; try assumption.
    destruct Hin as [H|[H|[H|[]]]]; inversion H; subst; intros x y Hx Hy.
    - lia.
    - apply Z.mul_nonneg_nonneg; assumption.
    - apply Z.pow_nonneg. exact Hx. }
  split.
  - destruct Hin as [H|[H|[H|[]]]]; inversion H; subst;
      rewrite interpolate_arithmetic by (reflexivity || discriminate || assumption);
      assumption.
  - destruct (str_of_int_digits _ Hpos) as (Hne & Hdig & Hval).
    change (numeric_pass (VStr (PyStr.str_of_int (fold_left f ns n))))
      with (_maybe_convert_to_numeric (VStr (PyStr.str_of_int (fold_left f ns n)))).
    unfold _maybe_convert_to_numeric, PyStr.isdigit, PyStr.int_of_digits.
    rewrite (forallb_weaken _ _ _ digit_isdigit Hdig), Hdig, Hval.
    destruct (PyStr.str_of_int (fold_left f ns n)); [congruence | reflexivity].
Qed.

Lemma arithmetic_expression_resolves_witness :
  _interpolate empty_world (phase2 VNone) 1 (VStr "${mul:2,3,7}") = Ok (VStr "42")
  /\ numeric_pass (VStr "42") = Ok (VInt 42).
Proof.
  apply (arithmetic_expression_resolves empty_world VNone 0 "mul" Z.mul 2 [3; 7]).
  - right. left. reflexivity.
  - lia.
  - repeat constructor; lia.
  - repeat constructor; reflexivity.
  - reflexivity.
Defined.

(** X19.  A [truediv], [floordiv] or [mod] expression over naturals whose
    second operand is zero raises [ZeroDivisionError], whatever
    operands follow.  The operands are taken within CPython's bound
    of 4300 digits on integers read from text. *)
Theorem division_by_zero_raises :
  forall (w : World) (tree : value) (fuel : nat) (op : string) (n : Z) (ns : list Z),
    In op ["truediv"; "floordiv"; "mod"] ->
    0 <= n -> Forall (fun n => 0 <= n) ns ->
    Forall printable (n :: ns) ->
    _interpolate w (phase2 tree) (S fuel)
      (VStr (expression op (PyStr.join "," (numerals (n :: 0 :: ns)))))
    = Raise ZeroDivisionError.
Proof.
  intros w tree fuel op n ns Hin Hn Hns _.
  assert (Hall : Forall (fun n => 0 <= n) (n :: 0 :: ns))
    by (repeat constructor; (assumption || lia)).
  assert (Hargs : mapM numeric_pass
                    (List.map VStr (operands (PyStr.join "," (numerals (n :: 0 :: ns)))))
                  = Ok (List.map VInt (n :: 0 :: ns))).
  { rewrite operands_numerals by (assumption || discriminate).
    apply convert_numerals. exact Hall. }
  assert (Hcall : forall g, In g [Operator.truediv; Operator.floordiv; Operator.mod_] ->
            Operator.reduce (Operator.call g) (List.map VInt (n :: 0 :: ns))
            = Raise ZeroDivisionError).
  { intros g Hg. cbn [List.map]. rewrite reduce_cons. cbn [fold_left].
    rewrite reduce_step_ok.
    destruct Hg as [<-|[<-|[<-|[]]]]; cbn [Operator.call Z.eqb PyFloat.int_truediv bind];
      apply reduce_raise. }
  destruct Hin as [<-|[<-|[<-|[]]]];
    rewrite interpolate_arithmetic
      by (reflexivity || discriminate || assumption || (constructor; (assumption || lia)));
    rewrite interpolate_math_unfold, Hargs; cbn [bind].
  - change (Operator.getattr "truediv") with (Some Operator.truediv). cbv iota.
    rewrite Hcall by (simpl; tauto). reflexivity.
  - change (Operator.getattr "floordiv") with (Some Operator.floordiv). cbv iota.
    rewrite Hcall by (simpl; tauto). reflexivity.
  - change (Operator.getattr "mod") with (Some Operator.mod_). cbv iota.
    rewrite Hcall by (simpl; tauto). reflexivity.
Qed.

Lemma division_by_zero_raises_witness :
  _interpolate empty_world (phase2 VNone) 1 (VStr "${truediv:1,0}")
  = Raise ZeroDivisionError.
Proof.
  apply (division_by_zero_raises empty_world VNone 0 "truediv" 1 []).
  - left. reflexivity.
  - lia.
  - constructor.
  - repeat constructor; reflexivity.
Defined.

(** ** Variable lookup, continued *)

(** X20.  A reference whose path goes on after a value that is not a
    container raises [TypeError], not the error of an undefined
    name; after a string it raises [TypeError] when the next segment
    occurs in the string and the error of an undefined name when it
    does not. *)
Theorem var_path_through_a_leaf :
  forall (self : Self) (pre post : list string) (k : string) (x : value),
    Forall (fun k => count "." k = 0%nat) (pre ++ k :: post) ->
    walk (config self) pre = Some x ->
    (is_atom x = true ->
     _interpolate_var self (PyStr.join "." (pre ++ k :: post)) = Raise TypeError)
    /\ (forall s, x = VStr s ->
          _interpolate_var self (PyStr.join "." (pre ++ k :: post))
          = if PyStr.contains k s then Raise TypeError
            else Raise (undefined (PyStr.join "." (pre ++ k :: post)))).
Proof.
  intros self pre post k x Hdots Hw.
  rewrite interpolate_var_fold, split_join;
    [| destruct pre; discriminate | exact Hdots].
  rewrite fold_left_app, (var_fold_found _ pre _ _ Hw). cbn [fold_left].
  split.
  - intro Hx.
    assert (Hs : var_step (PyStr.join "." (pre ++ k :: post)) (Ok x) k
                 = Raise TypeError)
      by (destruct x; try discriminate; reflexivity).
    rewrite Hs. apply var_fold_raise.
  - intros s ->. unfold var_step at 2. cbn [bind py_in].
    destruct (PyStr.contains k s); cbn [negb py_getitem]; apply var_fold_raise.
Qed.

Lemma var_path_through_a_leaf_witness :
  _interpolate_var (phase2 var_tree) "a.b.c" = Raise TypeError
  /\ _interpolate_var (phase2 (VDict [("a", VStr "xyz")])) "a.b"
     = Raise (undefined "a.b").
Proof.
  split.
  - apply (proj1 (var_path_through_a_leaf (phase2 var_tree) ["a"; "b"] [] "c" (VInt 1)
                    ltac:(repeat constructor) eq_refl)).
    reflexivity.
  - apply (proj2 (var_path_through_a_leaf (phase2 (VDict [("a", VStr "xyz")]))
                    ["a"] [] "b" (VStr "xyz")
                    ltac:(repeat constructor) eq_refl) "xyz").
    reflexivity.
Defined.

(** ** Missing documents *)

Lemma merge_missing (w : World) (pre : list string) (docs : list dict)
  (n : string) (post : list string) :
  Forall2 (fun n d => _load_conf w n = Ok (VDict d)) pre docs ->
  assoc n (documents w) = None ->
  forall acc, merge_configs w (pre ++ n :: post) acc = Raise FileNotFoundError.
Proof.
  intros Hpre Hn.
  induction Hpre as [|n1 d1 pre docs Hn1 Hrest IH]; intro acc; simpl.
  - unfold _load_conf. rewrite Hn. reflexivity.
  - rewrite Hn1. simpl. apply IH.
Qed.

(** X21.  When the documents named by [config] and [args] are mappings up
    to a name for which there is no document, the build raises
    [FileNotFoundError], whatever names and overrides come after. *)
Theorem build_with_missing_document_raises :
  forall (w : World) (fuel : nat) (config : string) (args : list string)
         (pre : list string) (docs : list dict) (n : string) (post : list string),
    Forall plain_name (config :: List.filter is_config args) ->
    config :: List.filter is_config args = (pre ++ n :: post)%list ->
    Forall2 (fun n d => _load_conf w n = Ok (VDict d)) pre docs ->
    assoc n (documents w) = None ->
    build w (S fuel) config (Some args) false = Raise FileNotFoundError.
Proof.
  intros w fuel config args pre docs n post Hplain Hnames Hpre Hn.
  rewrite build_after_first_pass by exact Hplain.
  rewrite Hnames, (merge_missing w pre docs n post Hpre Hn). reflexivity.
Qed.

Lemma build_with_missing_document_raises_witness :
  build merge_world 1 "A" (Some ["x=1"; "C"; "B"]) false = Raise FileNotFoundError.
Proof.
  apply (build_with_missing_document_raises merge_world 0 "A" ["x=1"; "C"; "B"]
           ["A"] [doc_A] "C" ["B"]).
  - repeat constructor.
  - reflexivity.
  - repeat constructor.
  - reflexivity.
Defined.

(** ** The object and its attributes *)

Section Attributes.

Local Open Scope list_scope.

Lemma instantiate_unfold (d : dict) :
  instantiate (VDict d) = (self <- set_items d fresh ;; delete_own self).
Proof. reflexivity. Qed.

Lemma as_member_dict (d : dict) : as_member (VDict d) = Nested (Obj (as_attrs d)).
Proof.
  unfold as_attrs. cbn [as_member]. do 2 f_equal.
  induction d as [|kv t IH]; [reflexivity|].
  cbn [List.filter List.map]. destruct (is_own (fst kv)); cbn [negb List.map].
  - exact IH.
  - rewrite IH. reflexivity.
Qed.

Lemma prune_dict (d : dict) : prune (VDict d) = VDict (prune_items d).
Proof.
  unfold prune_items. cbn [prune]. f_equal.
  induction d as [|kv t IH]; [reflexivity|].
  cbn [List.filter List.map]. destruct (is_own (fst kv)); cbn [negb List.map].
  - exact IH.
  - rewrite IH. reflexivity.
Qed.

Lemma keys_all_dict (p : string -> bool) (d : dict) :
  keys_all p (VDict d)
  = List.forallb (fun kv => (p (fst kv) && keys_all p (snd kv))%bool) d.
Proof.
  induction d as [|kv t IH]; [reflexivity|].
  simpl in *. rewrite IH. reflexivity.
Qed.

Lemma well_keyed_dict (d : dict) :
  well_keyed (VDict d)
  <-> unique_keys d /\ Forall (fun kv => well_keyed (snd kv)) d.
Proof.
  cbn [well_keyed].
  assert (H : (fix items (d : dict) : Prop :=
                 match d with
                 | [] => True
                 | kv :: r => well_keyed (snd kv) /\ items r
                 end) d <-> Forall (fun kv => well_keyed (snd kv)) d).
  { induction d as [|kv t IH].
    - split; [constructor | trivial].
    - split.
      + intros [Hk Ht]. constructor; [exact Hk | apply IH; exact Ht].
      + intro HF. inversion HF; subst. split; [assumption | apply IH; assumption]. }
  rewrite H. reflexivity.
Qed.

Lemma hides_dict (d : dict) :
  hides_to_dict (VDict d)
  = List.existsb
      (fun kv => (negb (is_own (fst kv))
                  && (has_to_dict (snd kv) || hides_to_dict (snd kv)))%bool) d.
Proof.
  induction d as [|kv t IH]; [reflexivity|].
  cbn [List.existsb]. rewrite <- IH. reflexivity.
Qed.

Lemma as_attrs_cons (k : string) (v : value) (t : dict) :
  as_attrs ((k, v) :: t)
  = if is_own k then as_attrs t else (k, as_member v) :: as_attrs t.
Proof.
  unfold as_attrs. cbn [List.filter fst snd].
  destruct (is_own k); reflexivity.
Qed.

Lemma prune_items_cons (k : string) (v : value) (t : dict) :
  prune_items ((k, v) :: t)
  = if is_own k then prune_items t else (k, prune v) :: prune_items t.
Proof.
  unfold prune_items. cbn [List.filter fst snd].
  destruct (is_own k); reflexivity.
Qed.

Lemma delete_own_block (a b c e f : member) (rest : list (string * member)) :
  delete_own (Obj (own_attrs a b c e f ++ rest)) = Ok (Obj rest).
Proof. reflexivity. Qed.

Lemma attrs_set_own (k : string) (m a b c e f : member)
  (rest : list (string * member)) :
  is_own k = true ->
  exists a' b' c' e' f',
    attrs_set k m (own_attrs a b c e f ++ rest)
    = own_attrs a' b' c' e' f' ++ rest.
Proof.
  unfold is_own, list_mem, own_names. cbn [existsb]. intro H.
  repeat (apply orb_true_iff in H; destruct H as [H|H];
          [apply String.eqb_eq in H; subst k;
           do 5 eexists; reflexivity|]).
  discriminate.
Qed.

Lemma attrs_set_free (k : string) (m a b c e f : member)
  (rest : list (string * member)) :
  is_own k = false ->
  attrs_set k m (own_attrs a b c e f ++ rest)
  = own_attrs a b c e f ++ attrs_set k m rest.
Proof.
  unfold is_own, list_mem, own_names. cbn [existsb]. intro H.
  repeat (apply orb_false_iff in H; destruct H as [?H H]).
  cbn [own_attrs app attrs_set].
  repeat match goal with
         | Hk : String.eqb k _ = false |- _ => rewrite Hk; clear Hk
         end.
  reflexivity.
Qed.

Lemma attrs_set_new (k : string) (m : member) (rest : list (string * member)) :
  ~ In k (List.map fst rest) -> attrs_set k m rest = (rest ++ [(k, m)])%list.
Proof.
  induction rest as [|[k' m'] t IH]; intro H; [reflexivity|].
  cbn [attrs_set app]. destruct (String.eqb k k') eqn:E.
  - apply String.eqb_eq in E. subst k'. exfalso. apply H. left. reflexivity.
  - rewrite IH; [reflexivity|]. intro Hin. apply H. right. exact Hin.
Qed.

Lemma setattr_storable (self : object) (k : string) (m : member) :
  storable k = true ->
  setattr self k m = Ok (Obj (attrs_set k m (__dict__ self))).
Proof.
  unfold storable, list_mem, setattr. cbn [existsb]. intro H.
  apply negb_true_iff in H.
  repeat (apply orb_false_iff in H; destruct H as [?H H]).
  repeat match goal with
         | Hk : String.eqb k _ = false |- _ => rewrite Hk; clear Hk
         end.
  reflexivity.
Qed.

Lemma setattr_unstorable (self : object) (k : string) (m : member) :
  storable k = false ->
  exists e, setattr self k m = Raise e /\ is_setattr_error e.
Proof.
  unfold storable, list_mem, setattr, is_setattr_error. cbn [existsb]. intro H.
  apply negb_false_iff in H.
  destruct (String.eqb k "__class__");
    [eexists; split; [reflexivity | left; reflexivity]|].
  destruct (String.eqb k "__dict__");
    [eexists; split; [reflexivity | left; reflexivity]|].
  destruct (String.eqb k "__weakref__");
    [eexists; split; [reflexivity | right; reflexivity] | discriminate].
Qed.

(** the outcome of the loop of [__init__] from a state that holds the
    object's own attributes and others under names that the items do
    not use *)
Lemma set_items_outcome (d : dict) :
  Forall (fun kv =>
            well_keyed (snd kv) ->
            if keys_all storable (snd kv)
            then wrap (snd kv) = Ok (as_member (snd kv))
            else exists e, wrap (snd kv) = Raise e /\ is_setattr_error e) d ->
  unique_keys d ->
  Forall (fun kv => well_keyed (snd kv)) d ->
  forall a b c e f rest,
    (forall kv, In kv d -> ~ In (fst kv) (List.map fst rest)) ->
    if List.forallb (fun kv => (storable (fst kv) && keys_all storable (snd kv))%bool) d
    then exists a' b' c' e' f',
        set_items d (Obj (own_attrs a b c e f ++ rest))
        = Ok (Obj (own_attrs a' b' c' e' f' ++ rest ++ as_attrs d))
    else exists err,
        set_items d (Obj (own_attrs a b c e f ++ rest)) = Raise err
        /\ is_setattr_error err.
Proof.
  induction 1 as [|[k v] t Hv Ht IH]; intros Hu Hw a b c e f rest Hfresh.
  - cbn [List.forallb set_items]. exists a, b, c, e, f.
    unfold as_attrs. cbn [List.filter List.map]. rewrite app_nil_r. reflexivity.
  - unfold unique_keys in Hu. cbn [List.map fst] in Hu.
    inversion Hu as [|? ? Hk Hu']; subst.
    inversion Hw as [|? ? Hwv Hwt]; subst.
    cbn [fst snd] in *. specialize (Hv Hwv).
    cbn [List.forallb set_items fst snd].
    destruct (keys_all storable v).
    + rewrite Hv. cbn [bind].
      destruct (storable k) eqn:Hs; cbn [andb].
      * rewrite setattr_storable by exact Hs. cbn [bind __dict__].
        rewrite as_attrs_cons.
        destruct (is_own k) eqn:Ho.
        -- destruct (attrs_set_own k (as_member v) a b c e f rest Ho)
             as (a' & b' & c' & e' & f' & ->).
           apply (IH Hu' Hwt).
           intros kv Hin. apply Hfresh. right. exact Hin.
        -- rewrite (attrs_set_free k _ a b c e f rest Ho).
           rewrite attrs_set_new
             by (apply (Hfresh (k, v)); left; reflexivity).
           specialize (IH Hu' Hwt a b c e f (rest ++ [(k, as_member v)])%list).
           assert (Hfresh' : forall kv, In kv t ->
                               ~ In (fst kv)
                                   (List.map fst (rest ++ [(k, as_member v)])%list)).
           { intros kv Hin. rewrite List.map_app, in_app_iff.
             intros [Hr|[Hk'|[]]].
             - apply (Hfresh kv); [right; exact Hin | exact Hr].
             - cbn [fst] in Hk'. apply Hk. rewrite Hk'.
               apply in_map. exact Hin. }
           specialize (IH Hfresh').
           destruct (List.forallb _ t).
           ++ destruct IH as (a' & b' & c' & e' & f' & IH).
              exists a', b', c', e', f'. rewrite IH.
              rewrite <- !app_assoc. reflexivity.
           ++ exact IH.
      * destruct (setattr_unstorable (Obj (own_attrs a b c e f ++ rest)) k
                    (as_member v) Hs) as (err & He & Herr).
        exists err. rewrite He. split; [reflexivity | exact Herr].
    + rewrite andb_false_r. cbn [andb].
      destruct Hv as (err & He & Herr).
      exists err. rewrite He. split; [reflexivity | exact Herr].
Qed.

(** a value is held as the attribute [as_member] describes, unless a
    name cannot be set *)
Lemma wrap_outcome (v : value) :
  well_keyed v ->
  if keys_all storable v
  then wrap v = Ok (as_member v)
  else exists e, wrap v = Raise e /\ is_setattr_error e.
Proof.
  induction v as [| b | n | f | s | l IH | d IH] using value_tree_ind;
    intro Hw; try reflexivity.
  apply well_keyed_dict in Hw. destruct Hw as [Hu Hw].
  pose proof (set_items_outcome d IH Hu Hw Internal Internal Internal Internal
                Internal [] (fun _ _ H => H)) as Hloop.
  rewrite keys_all_dict.
  unfold wrap. rewrite instantiate_unfold.
  change fresh
    with (Obj (own_attrs Internal Internal Internal Internal Internal ++ [])).
  destruct (List.forallb _ d).
  - destruct Hloop as (a' & b' & c' & e' & f' & ->).
    cbn [bind app]. rewrite delete_own_block. cbn [bind].
    rewrite as_member_dict. reflexivity.
  - destruct Hloop as (err & -> & Herr).
    exists err. split; [reflexivity | exact Herr].
Qed.

Lemma instantiate_outcome (d : dict) :
  well_keyed (VDict d) ->
  if keys_all storable (VDict d)
  then instantiate (VDict d) = Ok (Obj (as_attrs d))
  else exists e, instantiate (VDict d) = Raise e /\ is_setattr_error e.
Proof.
  intro Hw. pose proof (wrap_outcome (VDict d) Hw) as H.
  unfold wrap in H. rewrite as_member_dict in H.
  destruct (keys_all storable (VDict d)).
  - destruct (instantiate (VDict d)); cbn [bind] in H; try discriminate.
    inversion H. reflexivity.
  - destruct H as (err & H & Herr).
    destruct (instantiate (VDict d)); cbn [bind] in H; try discriminate.
    inversion H; subst. exists err. split; [reflexivity | exact Herr].
Qed.

Lemma instantiate_ok (d : dict) (o : object) :
  well_keyed (VDict d) -> instantiate (VDict d) = Ok o ->
  o = Obj (as_attrs d) /\ keys_all storable (VDict d) = true.
Proof.
  intros Hw Ho. pose proof (instantiate_outcome d Hw) as H.
  destruct (keys_all storable (VDict d)).
  - rewrite Ho in H. inversion H. split; reflexivity.
  - destruct H as (err & H & _). rewrite Ho in H. discriminate.
Qed.

Lemma to_dict_unfold (attrs : list (string * member)) :
  to_dict (Obj attrs)
  = mapM (fun kv => v <- item_value (snd kv) ;; Ok (fst kv, v)) attrs.
Proof.
  induction attrs as [|[k m] t IH]; [reflexivity|].
  assert (H : to_dict (Obj ((k, m) :: t))
              = (v <- item_value m ;; t' <- to_dict (Obj t) ;; Ok ((k, v) :: t'))).
  { destruct m as [v|o|]; try reflexivity.
    unfold item_value, call_to_dict. cbn [to_dict].
    destruct (assoc "to_dict" (__dict__ o)); reflexivity. }
  rewrite H, IH. cbn [mapM fst snd].
  destruct (item_value m); reflexivity.
Qed.

Lemma own_differs (k k' : string) :
  is_own k = false -> is_own k' = true -> String.eqb k k' = false.
Proof.
  intros Hk Hk'. destruct (String.eqb k k') eqn:E; [|reflexivity].
  apply String.eqb_eq in E. congruence.
Qed.

Lemma assoc_as_attrs (k : string) (d : dict) :
  is_own k = false ->
  assoc k (as_attrs d) = option_map as_member (dict_get k d).
Proof.
  intro Hk. induction d as [|[k' v] t IH]; [reflexivity|].
  rewrite as_attrs_cons. cbn [dict_get].
  destruct (is_own k') eqn:Ho.
  - rewrite (own_differs k k' Hk Ho). exact IH.
  - cbn [assoc]. destruct (String.eqb k k'); [reflexivity | exact IH].
Qed.

Lemma assoc_as_attrs_own (k : string) (d : dict) :
  is_own k = true -> assoc k (as_attrs d) = None.
Proof.
  intro Hk. induction d as [|[k' v] t IH]; [reflexivity|].
  rewrite as_attrs_cons.
  destruct (is_own k') eqn:Ho; [exact IH|].
  cbn [assoc]. rewrite String.eqb_sym, (own_differs k' k Ho Hk). exact IH.
Qed.

Lemma call_to_dict_as_attrs (d : dict) :
  call_to_dict (Obj (as_attrs d))
  = if has_to_dict (VDict d) then Raise TypeError else to_dict (Obj (as_attrs d)).
Proof.
  unfold call_to_dict. cbn [__dict__ has_to_dict].
  rewrite assoc_as_attrs by reflexivity. unfold dict_mem.
  destruct (dict_get "to_dict" d); reflexivity.
Qed.

Lemma to_dict_items (d : dict) :
  Forall (fun kv =>
            item_value (as_member (snd kv))
            = if (has_to_dict (snd kv) || hides_to_dict (snd kv))%bool
              then Raise TypeError else Ok (prune (snd kv))) d ->
  to_dict (Obj (as_attrs d))
  = if hides_to_dict (VDict d) then Raise TypeError else Ok (prune_items d).
Proof.
  rewrite to_dict_unfold, hides_dict.
  induction 1 as [|[k v] t Hv Ht IH]; [reflexivity|].
  rewrite as_attrs_cons, prune_items_cons. cbn [List.existsb fst snd] in *.
  destruct (is_own k); cbn [negb andb orb]; [exact IH|].
  cbn [mapM fst snd]. rewrite Hv.
  destruct (has_to_dict v || hides_to_dict v)%bool; cbn [bind orb]; [reflexivity|].
  rewrite IH. destruct (List.existsb _ t); reflexivity.
Qed.

(** what [to_dict] gives for the attribute that holds a value *)
Lemma item_value_as_member (v : value) :
  item_value (as_member v)
  = if (has_to_dict v || hides_to_dict v)%bool
    then Raise TypeError else Ok (prune v).
Proof.
  induction v as [| b | n | f | s | l IH | d IH] using value_tree_ind;
    try reflexivity.
  rewrite as_member_dict. cbn [item_value].
  rewrite call_to_dict_as_attrs.
  destruct (has_to_dict (VDict d)); cbn [orb bind]; [reflexivity|].
  rewrite (to_dict_items d IH), prune_dict.
  destruct (hides_to_dict (VDict d)); reflexivity.
Qed.

(** [to_dict] called on the object that holds the items of a mapping *)
Lemma call_to_dict_items (d : dict) :
  call_to_dict (Obj (as_attrs d))
  = if (has_to_dict (VDict d) || hides_to_dict (VDict d))%bool
    then Raise TypeError else Ok (prune_items d).
Proof.
  rewrite call_to_dict_as_attrs.
  destruct (has_to_dict (VDict d)); cbn [orb]; [reflexivity|].
  apply to_dict_items.
  apply Forall_forall. intros kv _. apply item_value_as_member.
Qed.

Lemma prune_clean (v : value) :
  keys_all (fun k => negb (is_own k)) v = true -> prune v = v.
Proof.
  induction v as [| b | n | f | s | l IH | d IH] using value_tree_ind;
    try reflexivity.
  rewrite keys_all_dict, prune_dict. intro H. f_equal.
  induction IH as [|[k v] t Hv Ht IHt]; [reflexivity|].
  cbn [List.forallb fst snd] in H.
  apply andb_true_iff in H. destruct H as [H Hrest].
  apply andb_true_iff in H. destruct H as [Hk Hkv].
  rewrite prune_items_cons. apply negb_true_iff in Hk. rewrite Hk.
  cbn [snd] in Hv. rewrite (Hv Hkv), (IHt Hrest). reflexivity.
Qed.

Lemma as_attrs_names (d : dict) :
  List.map fst (as_attrs d)
  = List.filter (fun k => negb (is_own k)) (List.map fst d).
Proof.
  induction d as [|[k v] t IH]; [reflexivity|].
  rewrite as_attrs_cons. cbn [List.map List.filter fst].
  destruct (is_own k); cbn [negb List.map fst]; rewrite IH; reflexivity.
Qed.

(** X22.  For a [config] given as a mapping, [args] and [cli] play no part
    and nothing is resolved or converted: [to_dict()] gives back the
    items of the mapping as they are, without those under the five
    names that the object uses for itself, in the mappings that are
    values of mappings as well.  When the mapping, or one of the
    mappings kept as an instance, has the key [to_dict], the call
    raises [TypeError], the attribute hiding the method. *)
Theorem to_dict_after_init :
  forall (w : World) (fuel : nat) (d : dict) (args : option (list string))
         (cli : bool) (o : object),
    well_keyed (VDict d) ->
    __init__ w fuel (VDict d) args cli = Ok o ->
    call_to_dict o
    = if (has_to_dict (VDict d) || hides_to_dict (VDict d))%bool
      then Raise TypeError else Ok (prune_items d).
Proof.
  intros w fuel d args cli o Hw Ho.
  change (__init__ w fuel (VDict d) args cli) with (instantiate (VDict d)) in Ho.
  destruct (instantiate_ok d o Hw Ho) as [-> _].
  apply call_to_dict_items.
Qed.

Lemma to_dict_after_init_witness :
  call_to_dict (Obj [("a", Plain (VStr "${add: 1, 2}"));
                     ("n", Nested (Obj [("k", Plain (VInt 1))]))])
  = Ok [("a", VStr "${add: 1, 2}"); ("n", VDict [("k", VInt 1)])].
Proof.
  apply (to_dict_after_init empty_world 0
           [("a", VStr "${add: 1, 2}"); ("config", VInt 0);
            ("n", VDict [("op_regex", VNone); ("k", VInt 1)])]
           (Some ["a=2"]) true).
  - apply well_keyed_dict. split.
    + unfold unique_keys. simpl.
      repeat constructor; simpl; intuition discriminate.
    + repeat constructor; simpl;
        try (unfold unique_keys; simpl;
             repeat constructor; simpl; intuition discriminate).
  - reflexivity.
Defined.

(** X23.  A mapping in which no key, at any depth of mappings, is one of
    the five names of the object itself, nor [__class__], [__dict__]
    or [__weakref__], and in which neither the mapping nor a mapping
    kept as an instance has the key [to_dict], makes an object, and
    [to_dict()] on the object gives that mapping back. *)
Theorem mapping_round_trip :
  forall (w : World) (fuel : nat) (d : dict) (args : option (list string))
         (cli : bool),
    well_keyed (VDict d) ->
    keys_all storable (VDict d) = true ->
    keys_all (fun k => negb (is_own k)) (VDict d) = true ->
    (has_to_dict (VDict d) || hides_to_dict (VDict d))%bool = false ->
    exists o, __init__ w fuel (VDict d) args cli = Ok o /\ call_to_dict o = Ok d.
Proof.
  intros w fuel d args cli Hw Hs Hown Hh.
  change (__init__ w fuel (VDict d) args cli) with (instantiate (VDict d)).
  pose proof (instantiate_outcome d Hw) as Ho. rewrite Hs in Ho.
  exists (Obj (as_attrs d)). split; [exact Ho|].
  rewrite call_to_dict_items, Hh.
  pose proof (prune_clean (VDict d) Hown) as Hp.
  rewrite prune_dict in Hp. congruence.
Qed.

Lemma mapping_round_trip_witness :
  exists o,
    __init__ empty_world 0 (VDict [("a", VStr "1"); ("n", VDict [("k", VList [])])])
      None false = Ok o
    /\ call_to_dict o = Ok [("a", VStr "1"); ("n", VDict [("k", VList [])])].
Proof.
  apply mapping_round_trip; try reflexivity.
  apply well_keyed_dict. split.
  - unfold unique_keys. simpl.
    repeat constructor; simpl; intuition discriminate.
  - repeat constructor; simpl;
      try (unfold unique_keys; simpl;
           repeat constructor; simpl; intuition discriminate).
Defined.

(** X24.  The constructor on a mapping succeeds exactly when no key, at any
    depth of mappings, is [__class__], [__dict__] or [__weakref__];
    the names of the object, as [__iter__], [__len__] and [items]
    give them, are then the keys of the mapping, in their order,
    without the five names of the object itself.  Otherwise it raises
    [TypeError] or [AttributeError]. *)
Theorem init_outcome :
  forall (w : World) (fuel : nat) (d : dict) (args : option (list string))
         (cli : bool),
    well_keyed (VDict d) ->
    (keys_all storable (VDict d) = true ->
     exists o,
       __init__ w fuel (VDict d) args cli = Ok o
       /\ __iter__ o = List.filter (fun k => negb (is_own k)) (List.map fst d)
       /\ __len__ o = List.length (__iter__ o)
       /\ List.map fst (items o) = __iter__ o)
    /\ (keys_all storable (VDict d) = false ->
        exists e,
          __init__ w fuel (VDict d) args cli = Raise e /\ is_setattr_error e).
Proof.
  intros w fuel d args cli Hw.
  change (__init__ w fuel (VDict d) args cli) with (instantiate (VDict d)).
  pose proof (instantiate_outcome d Hw) as Ho.
  split; intro Hs; rewrite Hs in Ho.
  - exists (Obj (as_attrs d)). split; [exact Ho|]. split; [|split].
    + apply as_attrs_names.
    + unfold __len__, __iter__. rewrite List.length_map. reflexivity.
    + reflexivity.
  - exact Ho.
Qed.

Lemma init_outcome_witness :
  (exists o,
      __init__ empty_world 0 (VDict [("b", VInt 1); ("config", VInt 2); ("a", VInt 3)])
        None false = Ok o
      /\ __iter__ o = ["b"; "a"]
      /\ __len__ o = List.length (__iter__ o)
      /\ List.map fst (items o) = __iter__ o)
  /\ (exists e,
         __init__ empty_world 0 (VDict [("n", VDict [("__class__", VInt 1)])])
           None false = Raise e
         /\ is_setattr_error e).
Proof.
  split.
  - apply (proj1 (init_outcome empty_world 0
                    [("b", VInt 1); ("config", VInt 2); ("a", VInt 3)] None false
                    ltac:(apply well_keyed_dict; split;
                          [unfold unique_keys; simpl;
                           repeat constructor; simpl; intuition discriminate
                          | repeat constructor]))).
    reflexivity.
  - apply (proj2 (init_outcome empty_world 0
                    [("n", VDict [("__class__", VInt 1)])] None false
                    ltac:(apply well_keyed_dict; split;
                          [unfold unique_keys; simpl;
                           repeat constructor; simpl; intuition discriminate
                          | repeat constructor; simpl;
                            try (unfold unique_keys; simpl;
                                 repeat constructor; simpl; intuition discriminate)]))).
    reflexivity.
Defined.

Lemma own_not_class_attribute (k : string) :
  is_own k = true -> list_mem k class_attributes = false.
Proof.
  unfold is_own, list_mem at 1, own_names. cbn [existsb]. intro H.
  repeat (apply orb_true_iff in H; destruct H as [H|H];
          [apply String.eqb_eq in H; subst k; reflexivity|]).
  discriminate.
Qed.

(** X25.  After the constructor on a mapping, the five names of the object
    itself are not attributes: [__getitem__] on one of them raises
    [AttributeError], also when the mapping had such a key.  Every
    other key of the mapping gives its value, as an instance when the
    value is a mapping. *)
Theorem getitem_after_init :
  forall (w : World) (fuel : nat) (d : dict) (args : option (list string))
         (cli : bool) (o : object) (k : string),
    well_keyed (VDict d) ->
    __init__ w fuel (VDict d) args cli = Ok o ->
    (is_own k = true -> __getitem__ o k = Raise AttributeError)
    /\ (is_own k = false ->
        forall v, dict_get k d = Some v -> __getitem__ o k = Ok (as_member v)).
Proof.
  intros w fuel d args cli o k Hw Ho.
  change (__init__ w fuel (VDict d) args cli) with (instantiate (VDict d)) in Ho.
  destruct (instantiate_ok d o Hw Ho) as [-> _].
  unfold __getitem__. cbn [__dict__]. split.
  - intro Hk. rewrite (assoc_as_attrs_own k d Hk), (own_not_class_attribute k Hk).
    reflexivity.
  - intros Hk v Hv. rewrite (assoc_as_attrs k d Hk), Hv. reflexivity.
Qed.

Lemma getitem_after_init_witness :
  __getitem__ (Obj [("a", Plain (VInt 1))]) "config" = Raise AttributeError
  /\ __getitem__ (Obj [("a", Plain (VInt 1))]) "a" = Ok (Plain (VInt 1)).
Proof.
  assert (Hw : well_keyed (VDict [("config", VInt 0); ("a", VInt 1)])).
  { apply well_keyed_dict. split.
    - unfold unique_keys. simpl.
      repeat constructor; simpl; intuition discriminate.
    - repeat constructor. }
  split.
  - apply (proj1 (getitem_after_init empty_world 0
                    [("config", VInt 0); ("a", VInt 1)] None false
                    (Obj [("a", Plain (VInt 1))]) "config" Hw eq_refl)).
    reflexivity.
  - apply (proj2 (getitem_after_init empty_world 0
                    [("config", VInt 0); ("a", VInt 1)] None false
                    (Obj [("a", Plain (VInt 1))]) "a" Hw eq_refl) eq_refl (VInt 1)).
    reflexivity.
Defined.

(** X26.  The object built from a [config] given as a string holds the
    resolved tree in the same way: [to_dict()] gives back the items
    of the tree that the build yields, without those under the five
    names of the object itself. *)
Theorem to_dict_after_build :
  forall (w : World) (fuel : nat) (s : string) (args : option (list string))
         (cli : bool) (d : dict) (o : object),
    build w fuel s args cli = Ok (VDict d) ->
    well_keyed (VDict d) ->
    __init__ w fuel (VStr s) args cli = Ok o ->
    call_to_dict o
    = if (has_to_dict (VDict d) || hides_to_dict (VDict d))%bool
      then Raise TypeError else Ok (prune_items d).
Proof.
  intros w fuel s args cli d o Hb Hw Ho.
  unfold __init__ in Ho. rewrite Hb in Ho. cbn [bind] in Ho.
  destruct (instantiate_ok d o Hw Ho) as [-> _].
  apply call_to_dict_items.
Qed.

Lemma to_dict_after_build_witness :
  call_to_dict
    (Obj [("x", Plain (VInt 1)); ("y", Plain (VInt 2)); ("z", Plain (VInt 2))])
  = Ok [("x", VInt 1); ("y", VInt 2); ("z", VInt 2)].
Proof.
  apply (to_dict_after_build merge_world 2 "A" (Some ["B"]) false
           [("x", VInt 1); ("y", VInt 2); ("z", VInt 2)]).
  - reflexivity.
  - apply well_keyed_dict. split.
    + unfold unique_keys. simpl.
      repeat constructor; simpl; intuition discriminate.
    + repeat constructor.
  - reflexivity.
Defined.

Lemma assoc_attrs_set (k k' : string) (m : member) (l : list (string * member)) :
  assoc k' (attrs_set k m l)
  = if String.eqb k' k then Some m else assoc k' l.
Proof.
  induction l as [|[k1 m1] t IH]; cbn [attrs_set assoc].
  - destruct (String.eqb k' k); reflexivity.
  - destruct (String.eqb k k1) eqn:E1; cbn [assoc].
    + apply String.eqb_eq in E1. subst k1.
      destruct (String.eqb k' k); reflexivity.
    + destruct (String.eqb k' k1) eqn:E2.
      * apply String.eqb_eq in E2. subst k1.
        rewrite String.eqb_sym, E1. reflexivity.
      * exact IH.
Qed.

Lemma length_attrs_set (k : string) (m : member) (l : list (string * member)) :
  List.length (attrs_set k m l)
  = match assoc k l with Some _ => List.length l | None => S (List.length l) end.
Proof.
  induction l as [|[k1 m1] t IH]; [reflexivity|].
  cbn [attrs_set assoc]. destruct (String.eqb k k1); [reflexivity|].
  cbn [List.length]. rewrite IH. destruct (assoc k t); reflexivity.
Qed.

Lemma setitem_ok (o o' : object) (k : string) (v : value) :
  well_keyed v -> __setitem__ o k v = Ok o' ->
  o' = Obj (attrs_set k (as_member v) (__dict__ o)).
Proof.
  intros Hw H. unfold __setitem__ in H.
  pose proof (wrap_outcome v Hw) as Hv.
  destruct (keys_all storable v).
  - rewrite Hv in H. cbn [bind] in H.
    destruct (storable k) eqn:Hs.
    + rewrite setattr_storable in H by exact Hs. inversion H. reflexivity.
    + destruct (setattr_unstorable o k (as_member v) Hs) as (e & He & _).
      rewrite He in H. discriminate.
  - destruct Hv as (e & He & _). rewrite He in H. discriminate.
Qed.

(** X27.  What [__setitem__] stores under a key, [__getitem__] gives back
    (an instance when the value is a mapping); the other keys keep
    what they gave, and the number of attributes grows by one exactly
    when the key is new. *)
Theorem setitem_then_getitem :
  forall (o o' : object) (k : string) (v : value),
    well_keyed v ->
    __setitem__ o k v = Ok o' ->
    __getitem__ o' k = Ok (as_member v)
    /\ (forall k', k' <> k -> __getitem__ o' k' = __getitem__ o k')
    /\ __len__ o'
       = match assoc k (__dict__ o) with
         | Some _ => __len__ o
         | None => S (__len__ o)
         end.
Proof.
  intros o o' k v Hw H.
  rewrite (setitem_ok o o' k v Hw H).
  unfold __getitem__, __len__. cbn [__dict__].
  split; [|split].
  - rewrite assoc_attrs_set, String.eqb_refl. reflexivity.
  - intros k' Hk. rewrite assoc_attrs_set.
    destruct (String.eqb k' k) eqn:E; [|reflexivity].
    apply String.eqb_eq in E. congruence.
  - apply length_attrs_set.
Qed.

Lemma setitem_then_getitem_witness :
  __getitem__ (Obj [("a", Plain (VInt 1)); ("b", Nested (Obj [("y", Plain (VInt 2))]))])
    "b"
  = Ok (Nested (Obj [("y", Plain (VInt 2))])).
Proof.
  apply (setitem_then_getitem (Obj [("a", Plain (VInt 1))])
           (Obj [("a", Plain (VInt 1)); ("b", Nested (Obj [("y", Plain (VInt 2))]))])
           "b" (VDict [("config", VInt 1); ("y", VInt 2)])).
  - apply well_keyed_dict. split.
    + unfold unique_keys. simpl.
      repeat constructor; simpl; intuition discriminate.
    + repeat constructor.
  - reflexivity.
Defined.

Lemma mapM_attrs_set (k : string) (m : member) (attrs : list (string * member)) :
  forall dd,
    mapM (fun kv => v <- item_value (snd kv) ;; Ok (fst kv, v)) attrs = Ok dd ->
    mapM (fun kv => v <- item_value (snd kv) ;; Ok (fst kv, v)) (attrs_set k m attrs)
    = (v <- item_value m ;; Ok (dict_set k v dd)).
Proof.
  induction attrs as [|[k1 m1] t IH]; intros dd H.
  - inversion H; subst. cbn [attrs_set mapM fst snd].
    destruct (item_value m); reflexivity.
  - apply mapM_ok_inv in H. destruct H as ([k1' x1] & tt & Hx & Ht & ->).
    cbn [fst snd] in Hx.
    destruct (item_value m1) as [y1| | |] eqn:Hm1; cbn [bind] in Hx; try discriminate.
    inversion Hx; subst k1' x1.
    cbn [attrs_set dict_set]. destruct (String.eqb k k1).
    + cbn [mapM fst snd]. rewrite Ht.
      destruct (item_value m); reflexivity.
    + cbn [mapM fst snd]. rewrite Hm1, (IH _ Ht). cbn [bind].
      destruct (item_value m); reflexivity.
Qed.

Lemma call_to_dict_ok (o : object) (dd : dict) :
  call_to_dict o = Ok dd ->
  assoc "to_dict" (__dict__ o) = None /\ to_dict o = Ok dd.
Proof.
  unfold call_to_dict.
  destruct (assoc "to_dict" (__dict__ o)); [discriminate|].
  intro H. split; [reflexivity | exact H].
Qed.

(** X28.  Setting an item on the object and then calling [to_dict()] gives
    the same as setting the item on what [to_dict()] gave before,
    with the five names of the object pruned from a value that is a
    mapping.  The call raises [TypeError] when the key is [to_dict]
    or when the value is or holds a mapping with the key
    [to_dict]. *)
Theorem to_dict_after_setitem :
  forall (o o' : object) (k : string) (v : value) (dd : dict),
    well_keyed v ->
    call_to_dict o = Ok dd ->
    __setitem__ o k v = Ok o' ->
    call_to_dict o'
    = if (String.eqb k "to_dict" || has_to_dict v || hides_to_dict v)%bool
      then Raise TypeError
      else Ok (dict_set k (prune v) dd).
Proof.
  intros o o' k v dd Hw Hd H.
  destruct (call_to_dict_ok o dd Hd) as [Hno Hto].
  rewrite (setitem_ok o o' k v Hw H).
  unfold call_to_dict. cbn [__dict__].
  rewrite assoc_attrs_set, String.eqb_sym.
  destruct (String.eqb k "to_dict"); cbn [orb]; [reflexivity|].
  rewrite Hno.
  destruct o as [attrs]. cbn [__dict__].
  rewrite to_dict_unfold in Hto |- *.
  rewrite (mapM_attrs_set k (as_member v) attrs dd Hto), item_value_as_member.
  destruct (has_to_dict v || hides_to_dict v)%bool; reflexivity.
Qed.

Lemma to_dict_after_setitem_witness :
  call_to_dict
    (Obj [("a", Plain (VInt 1)); ("b", Nested (Obj [("y", Plain (VInt 2))]))])
  = Ok (dict_set "b" (prune (VDict [("config", VInt 1); ("y", VInt 2)]))
          [("a", VInt 1)]).
Proof.
  apply (to_dict_after_setitem (Obj [("a", Plain (VInt 1))])
           (Obj [("a", Plain (VInt 1)); ("b", Nested (Obj [("y", Plain (VInt 2))]))])
           "b" (VDict [("config", VInt 1); ("y", VInt 2)]) [("a", VInt 1)]).
  - apply well_keyed_dict. split.
    + unfold unique_keys. simpl.
      repeat constructor; simpl; intuition discriminate.
    + repeat constructor.
  - reflexivity.
  - reflexivity.
Defined.

End Attributes.

(** ** The name of the file that is opened *)

Lemma rfind_from_plain (c : ascii) (s : string) :
  count c s = 0%nat ->
  forall pos last, PurePath.rfind_from c s pos last = last.
Proof.
  induction s as [|d r IH]; intros H pos last; [reflexivity|].
  simpl in *. destruct (Ascii.eqb c d); [discriminate|].
  apply IH. exact H.
Qed.

Lemma rfind_from_last (c : ascii) (stem ext : string) :
  count c ext = 0%nat ->
  forall pos last,
    PurePath.rfind_from c (stem ++ String c ext) pos last
    = Some (pos + String.length stem)%nat.
Proof.
  intro H. induction stem as [|d r IH]; intros pos last.
  - cbn [append PurePath.rfind_from String.length]. rewrite Ascii.eqb_refl.
    rewrite rfind_from_plain by exact H. f_equal. lia.
  - cbn [append PurePath.rfind_from String.length]. rewrite IH. f_equal. lia.
Qed.

Lemma take_self (x s : string) : PurePath.take (String.length x) (x ++ s) = x.
Proof.
  induction x as [|a x IH]; [destruct s; reflexivity|].
  simpl. rewrite IH. reflexivity.
Qed.

(** a string is free of dots, or it is cut by its last dot *)
Lemma last_dot (c : ascii) (s : string) :
  count c s = 0%nat
  \/ exists stem ext, s = stem ++ String c ext /\ count c ext = 0%nat.
Proof.
  induction s as [|d r IH]; [left; reflexivity|].
  destruct IH as [H|(stem & ext & -> & Hext)].
  - destruct (Ascii.eqb c d) eqn:E.
    + apply Ascii.eqb_eq in E. subst d.
      right. exists "", r. split; [reflexivity | exact H].
    + left. simpl. rewrite E. exact H.
  - right. exists (String d stem), ext. split; [reflexivity | exact Hext].
Qed.

Lemma suffix_plain (name : string) :
  count "." name = 0%nat -> PurePath.suffix name = "".
Proof.
  intro H. unfold PurePath.suffix, PurePath.rfind.
  rewrite rfind_from_plain by exact H. reflexivity.
Qed.

Lemma suffix_split (stem ext : string) :
  count "." ext = 0%nat ->
  PurePath.suffix (stem ++ String "." ext)
  = if (PyStr.is_empty stem || PyStr.is_empty ext)%bool then ""
    else String "." ext.
Proof.
  intro H. unfold PurePath.suffix, PurePath.rfind.
  rewrite rfind_from_last by exact H. cbn [Nat.add].
  rewrite length_append, drop_self. cbn [String.length].
  destruct (Nat.ltb_spec 0 (String.length stem)) as [H0|H0];
    destruct (Nat.ltb_spec (String.length stem)
                (String.length stem + S (String.length ext) - 1)) as [H1|H1];
    destruct stem as [|a stem']; destruct ext as [|b ext'];
    cbn [String.length] in *; try lia; reflexivity.
Qed.

Lemma yml_name_yml (x : string) :
  x <> "" ->
  PurePath.suffix (x ++ ".yml") = ".yml" /\ yml_name (x ++ ".yml") = Ok (x ++ ".yml").
Proof.
  intro Hx.
  assert (Hs : PurePath.suffix (x ++ ".yml") = ".yml").
  { change (x ++ ".yml") with (x ++ String "." "yml").
    rewrite suffix_split by reflexivity.
    destruct x; [congruence | reflexivity]. }
  split; [exact Hs|]. unfold yml_name. rewrite Hs. reflexivity.
Qed.

Lemma yml_name_plain (name : string) :
  count "." name = 0%nat -> name <> "" -> yml_name name = Ok (name ++ ".yml").
Proof.
  intros Hdot Hne. unfold yml_name, PurePath.with_suffix.
  rewrite (suffix_plain name Hdot). cbn [String.eqb negb PyStr.is_empty].
  destruct name; [congruence | reflexivity].
Qed.

Lemma yml_name_ext (stem ext : string) :
  stem <> "" -> ext <> "" -> count "." ext = 0%nat ->
  yml_name (stem ++ String "." ext) = Ok (stem ++ ".yml").
Proof.
  intros Hstem Hext Hdot.
  destruct (String.eqb ext "yml") eqn:E.
  - apply String.eqb_eq in E. subst ext.
    apply (yml_name_yml stem Hstem).
  - unfold yml_name, PurePath.with_suffix.
    rewrite (suffix_split stem ext Hdot).
    destruct stem as [|a stem']; [congruence|].
    destruct ext as [|b ext']; [congruence|].
    cbn [PyStr.is_empty orb append].
    assert (Hne : String.eqb (String "." (String b ext')) ".yml" = false).
    { cbn [String.eqb]. rewrite Ascii.eqb_refl. exact E. }
    rewrite Hne. cbn [negb].
    change (String a (stem' ++ String "." (String b ext')))
      with (String a stem' ++ String "." (String b ext')).
    rewrite length_append.
    replace (String.length (String a stem')
             + String.length (String "." (String b ext'))
             - String.length (String "." (String b ext')))%nat
      with (String.length (String a stem')) by lia.
    rewrite take_self. reflexivity.
Qed.

(** X29.  The name of the file that [_load_conf] opens is the name it is
    given when that name ends in [.yml]; a name without a dot gets
    [.yml] appended; and in a name [stem.ext] whose last dot is
    neither its first nor its last character, [.ext] is replaced by
    [.yml], so the extension of the name is not kept. *)
Theorem yml_name_replaces_extension :
  forall name : string,
    (count "." name = 0%nat -> name <> "" -> yml_name name = Ok (name ++ ".yml"))
    /\ (forall stem ext,
           name = stem ++ "." ++ ext ->
           stem <> "" -> ext <> "" -> count "." ext = 0%nat ->
           yml_name name = Ok (stem ++ ".yml")).
Proof.
  intro name. split.
  - apply yml_name_plain.
  - intros stem ext -> Hstem Hext Hdot.
    apply (yml_name_ext stem ext Hstem Hext Hdot).
Qed.

Lemma yml_name_replaces_extension_witness :
  yml_name "conf" = Ok "conf.yml"
  /\ yml_name "conf.yaml" = Ok "conf.yml"
  /\ yml_name "v1.2" = Ok "v1.yml".
Proof.
  split; [|split].
  - apply (proj1 (yml_name_replaces_extension "conf")); [reflexivity | discriminate].
  - apply (proj2 (yml_name_replaces_extension "conf.yaml") "conf" "yaml");
      (reflexivity || discriminate).
  - apply (proj2 (yml_name_replaces_extension "v1.2") "v1" "2");
      (reflexivity || discriminate).
Defined.

(** X30.  For every name that is not empty the file that is opened has the
    suffix [.yml], and naming that file gives the same file: the
    normalisation of the first two lines of [_load_conf] is
    idempotent. *)
Theorem yml_name_is_idempotent :
  forall name : string,
    name <> "" ->
    exists file,
      yml_name name = Ok file
      /\ PurePath.suffix file = ".yml"
      /\ yml_name file = Ok file.
Proof.
  intros name Hne.
  assert (H : exists x, x <> "" /\ yml_name name = Ok (x ++ ".yml")).
  { destruct (last_dot "." name) as [Hdot|(stem & ext & Hn & Hext)].
    - exists name. split; [exact Hne|].
      apply (yml_name_plain name Hdot Hne).
    - destruct stem as [|a stem'].
      + exists name. split; [exact Hne|].
        unfold yml_name, PurePath.with_suffix. rewrite Hn.
        rewrite (suffix_split "" ext Hext). reflexivity.
      + destruct ext as [|b ext'].
        * exists name. split; [exact Hne|].
          unfold yml_name, PurePath.with_suffix. rewrite Hn.
          rewrite (suffix_split (String a stem') "" Hext). reflexivity.
        * exists (String a stem'). split; [discriminate|].
          rewrite Hn. apply yml_name_ext; [discriminate | discriminate | exact Hext]. }
  destruct H as (x & Hx & Hy).
  exists (x ++ ".yml"). split; [exact Hy|].
  apply (yml_name_yml x Hx).
Qed.

Lemma yml_name_is_idempotent_witness :
  exists file,
    yml_name "a.tar.gz" = Ok file
    /\ PurePath.suffix file = ".yml"
    /\ yml_name file = Ok file.
Proof.
  apply yml_name_is_idempotent. discriminate.
Defined.
